(** * Dump1090: the 2.4 MHz Mode S demodulator and the network service fabric

    A shallow embedding of [src/externals/demod_2400.c] and of the handlers
    of [src/net_io.c], with the properties of the specification that
    concern them.

    Conventions of the embedding:
    - a C integer of width [w] is a [Z]; where the C arithmetic can leave
      the range the wrap-around is written out ([wrap32], [wrap64], ...);
    - a pointer into the magnitude buffer is the index of the sample it
      points to; [mag_at m i] is the C expression [m[i]];
    - C out-parameters and globals are fields of an explicit state record
      that every function takes and returns;
    - functions that live outside the two files (the message scorer, the
      Mode S decoder, the frame handlers, the allocator) are variables of
      a section, or inputs of the event that triggers them. *)

From Stdlib Require Import ZArith List Lia Bool String Ascii.
From stdpp Require Import base numbers list gmap strings pretty.
Import ListNotations.
Open Scope Z_scope.

(** ** Machine integers *)

Definition wrap16 (x : Z) : Z := x mod 2 ^ 16.
Definition wrap32 (x : Z) : Z := x mod 2 ^ 32.
Definition wrap64 (x : Z) : Z := x mod 2 ^ 64.

(** Conversion of a value to [int32_t] (two's complement). *)
Definition to_int32 (x : Z) : Z :=
  let u := wrap32 x in if u <? 2 ^ 31 then u else u - 2 ^ 32.

Lemma wrap64_small x : 0 <= x < 2 ^ 64 -> wrap64 x = x.
Proof. intros H. unfold wrap64. now apply Z.mod_small. Qed.

Lemma wrap32_small x : 0 <= x < 2 ^ 32 -> wrap32 x = x.
Proof. intros H. unfold wrap32. now apply Z.mod_small. Qed.

(** * The demodulator, [demod_2400.c] *)

Module Demod.

Definition PREAMBLE_THRESHOLD_PIZERO : Z := 75.
Definition MODES_SHORT_MSG_BYTES : Z := 7.
Definition MODES_LONG_MSG_BYTES : Z := 14.
Definition MODES_LONG_MSG_BITS : Z := MODES_LONG_MSG_BYTES * 8.
Definition MODES_SHORT_MSG_BITS : Z := MODES_SHORT_MSG_BYTES * 8.

(** The magnitude samples: the array [mag->data] together with the room
    the capture code leaves behind it.  [mag_at m i] is [m[i]]; an index
    past the allocation reads 0. *)
Definition mag_at (m : list Z) (i : Z) : Z := nth (Z.to_nat i) m 0.

(** ** The correlation functions

    [p] is the pointer given to the C function, so [m[k]] there is
    [mag_at m (p + k)] here.  The operands are [uint16_t] promoted to
    [int]; the largest magnitude of a result is below [2^31]. *)

Definition slice_phase0 (m : list Z) (p : Z) : Z :=
  18 * mag_at m p - 15 * mag_at m (p + 1) - 3 * mag_at m (p + 2).

Definition slice_phase1 (m : list Z) (p : Z) : Z :=
  14 * mag_at m p - 5 * mag_at m (p + 1) - 9 * mag_at m (p + 2).

Definition slice_phase2 (m : list Z) (p : Z) : Z :=
  16 * mag_at m p + 5 * mag_at m (p + 1) - 20 * mag_at m (p + 2).

Definition slice_phase3 (m : list Z) (p : Z) : Z :=
  7 * mag_at m p + 11 * mag_at m (p + 1) - 18 * mag_at m (p + 2).

Definition slice_phase4 (m : list Z) (p : Z) : Z :=
  4 * mag_at m p + 15 * mag_at m (p + 1) - 20 * mag_at m (p + 2)
  + 1 * mag_at m (p + 3).

Definition imin (a b : Z) : Z := if a <? b then a else b.
Definition imax (a b : Z) : Z := if b <? a then a else b.

(** ** Field extraction *)

(** [data[i]] of a message buffer. *)
Definition byte_at (data : list Z) (i : Z) : Z := nth (Z.to_nat i) data 0.

Definition getbit (data : list Z) (bitnum : Z) : Z :=
  let bi := wrap32 (bitnum - 1) in
  let byi := Z.shiftr bi 3 in
  let mask := Z.shiftl 1 (7 - Z.land bi 7) in
  if Z.land (byte_at data byi) mask =? 0 then 0 else 1.

Definition getbits (data : list Z) (firstbit lastbit : Z) : Z :=
  let fbi := wrap32 (firstbit - 1) in
  let lbi := wrap32 (lastbit - 1) in
  let fby := Z.shiftr fbi 3 in
  let lby := Z.shiftr lbi 3 in
  let nby := wrap32 (lby - fby + 1) in
  let shift := 7 - Z.land lbi 7 in
  let topmask := Z.shiftr 255 (Z.land fbi 7) in
  let d k := byte_at data (fby + k) in
  if nby =? 5 then
    wrap32 (Z.lor (Z.shiftl (Z.land (d 0) topmask) (32 - shift))
           (Z.lor (Z.shiftl (d 1) (24 - shift))
           (Z.lor (Z.shiftl (d 2) (16 - shift))
           (Z.lor (Z.shiftl (d 3) (8 - shift))
                  (Z.shiftr (d 4) shift)))))
  else if nby =? 4 then
    wrap32 (Z.lor (Z.shiftl (Z.land (d 0) topmask) (24 - shift))
           (Z.lor (Z.shiftl (d 1) (16 - shift))
           (Z.lor (Z.shiftl (d 2) (8 - shift))
                  (Z.shiftr (d 3) shift))))
  else if nby =? 3 then
    wrap32 (Z.lor (Z.shiftl (Z.land (d 0) topmask) (16 - shift))
           (Z.lor (Z.shiftl (d 1) (8 - shift))
                  (Z.shiftr (d 2) shift)))
  else if nby =? 2 then
    wrap32 (Z.lor (Z.shiftl (Z.land (d 0) topmask) (8 - shift))
                  (Z.shiftr (d 1) shift))
  else if nby =? 1 then
    Z.shiftr (Z.land (d 0) topmask) shift
  else 0.

Definition modesMessageLenByType (type : Z) : Z :=
  if Z.land type 16 =? 0 then MODES_SHORT_MSG_BITS else MODES_LONG_MSG_BITS.

(** ** The sets of acceptable downlink formats *)

(** [1 << n] stored in a [uint32_t]. *)
Definition bit32 (n : Z) : Z := wrap32 (Z.shiftl 1 n).

(** The body of the loop [for (bit = 0; bit < 5; ++bit)], on the bits
    that remain to be flipped; [rec] is the recursive call with
    [damage_bits - 1]. *)
Definition damage_loop (rec : Z -> Z) (df : Z) (bits : list Z) (result : Z) : Z :=
  fold_left
    (fun acc b => Z.lor acc (rec (Z.lxor df (Z.shiftl 1 b) mod 2 ^ 8)))
    bits result.

Fixpoint generate_damage_set (df : Z) (damage_bits : nat) : Z :=
  let result := bit32 df in
  match damage_bits with
  | O => result
  | S d => damage_loop (fun df' => generate_damage_set df' d) df [0; 1; 2; 3; 4] result
  end.

(** The compile-time switch and the settings of [Modes] that the
    demodulator reads. *)
Record config := {
  ENABLE_DF24 : bool;
  nfix_crc : Z;
  fixDF : Z;
  preambleThreshold : Z;
  samples_dropped : Z        (* Modes.stats_15min.samples_dropped *)
}.

(** [init_bitsets] returns the two statics
    [(valid_df_short_bitset, valid_df_long_bitset)]. *)
Definition init_bitsets (cfg : config) : Z * Z :=
  let short :=
    Z.lor (bit32 0) (Z.lor (bit32 4) (Z.lor (bit32 5) (bit32 11))) in
  let long0 :=
    Z.lor (bit32 16) (Z.lor (bit32 17) (Z.lor (bit32 18)
      (Z.lor (bit32 20) (bit32 21)))) in
  let long1 :=
    if ENABLE_DF24 cfg then
      Z.lor long0
        (Z.lor (bit32 24) (Z.lor (bit32 25) (Z.lor (bit32 26) (Z.lor (bit32 27)
        (Z.lor (bit32 28) (Z.lor (bit32 29) (Z.lor (bit32 30) (bit32 31))))))))
    else long0 in
  let long2 :=
    if negb (fixDF cfg =? 0) && negb (nfix_crc cfg =? 0)
    then Z.lor long1 (generate_damage_set 17 1)
    else long1 in
  (short, long2).

(** The test [bitset & (1 << df)] of [score_phase]. *)
Definition df_in (bitset df : Z) : bool := negb (Z.land bitset (bit32 df) =? 0).

(** ** The byte slicer *)

Definition slice_bit (corr : Z) (mask : Z) : Z := if 0 <? corr then mask else 0.

Definition or8 (b7 b6 b5 b4 b3 b2 b1 b0 : Z) : Z :=
  Z.lor b7 (Z.lor b6 (Z.lor b5 (Z.lor b4 (Z.lor b3 (Z.lor b2 (Z.lor b1 b0)))))).

(** [slice_byte m pPtr phase] is [(theByte, *pPtr, *phase)] at the
    [return].  A phase outside 0..4 matches no [case]: nothing moves and
    the byte is 0. *)
Definition slice_byte (m : list Z) (pPtr phase : Z) : Z * Z * Z :=
  match phase with
  | 0 =>
      (or8 (slice_bit (slice_phase0 m pPtr) 0x80)
           (slice_bit (slice_phase2 m (pPtr + 2)) 0x40)
           (slice_bit (slice_phase4 m (pPtr + 4)) 0x20)
           (slice_bit (slice_phase1 m (pPtr + 7)) 0x10)
           (slice_bit (slice_phase3 m (pPtr + 9)) 0x08)
           (slice_bit (slice_phase0 m (pPtr + 12)) 0x04)
           (slice_bit (slice_phase2 m (pPtr + 14)) 0x02)
           (slice_bit (slice_phase4 m (pPtr + 16)) 0x01),
       pPtr + 19, 1)
  | 1 =>
      (or8 (slice_bit (slice_phase1 m pPtr) 0x80)
           (slice_bit (slice_phase3 m (pPtr + 2)) 0x40)
           (slice_bit (slice_phase0 m (pPtr + 5)) 0x20)
           (slice_bit (slice_phase2 m (pPtr + 7)) 0x10)
           (slice_bit (slice_phase4 m (pPtr + 9)) 0x08)
           (slice_bit (slice_phase1 m (pPtr + 12)) 0x04)
           (slice_bit (slice_phase3 m (pPtr + 14)) 0x02)
           (slice_bit (slice_phase0 m (pPtr + 17)) 0x01),
       pPtr + 19, 2)
  | 2 =>
      (or8 (slice_bit (slice_phase2 m pPtr) 0x80)
           (slice_bit (slice_phase4 m (pPtr + 2)) 0x40)
           (slice_bit (slice_phase1 m (pPtr + 5)) 0x20)
           (slice_bit (slice_phase3 m (pPtr + 7)) 0x10)
           (slice_bit (slice_phase0 m (pPtr + 10)) 0x08)
           (slice_bit (slice_phase2 m (pPtr + 12)) 0x04)
           (slice_bit (slice_phase4 m (pPtr + 14)) 0x02)
           (slice_bit (slice_phase1 m (pPtr + 17)) 0x01),
       pPtr + 19, 3)
  | 3 =>
      (or8 (slice_bit (slice_phase3 m pPtr) 0x80)
           (slice_bit (slice_phase0 m (pPtr + 3)) 0x40)
           (slice_bit (slice_phase2 m (pPtr + 5)) 0x20)
           (slice_bit (slice_phase4 m (pPtr + 7)) 0x10)
           (slice_bit (slice_phase1 m (pPtr + 10)) 0x08)
           (slice_bit (slice_phase3 m (pPtr + 12)) 0x04)
           (slice_bit (slice_phase0 m (pPtr + 15)) 0x02)
           (slice_bit (slice_phase2 m (pPtr + 17)) 0x01),
       pPtr + 19, 4)
  | 4 =>
      (or8 (slice_bit (slice_phase4 m pPtr) 0x80)
           (slice_bit (slice_phase1 m (pPtr + 3)) 0x40)
           (slice_bit (slice_phase3 m (pPtr + 5)) 0x20)
           (slice_bit (slice_phase0 m (pPtr + 8)) 0x10)
           (slice_bit (slice_phase2 m (pPtr + 10)) 0x08)
           (slice_bit (slice_phase4 m (pPtr + 12)) 0x04)
           (slice_bit (slice_phase1 m (pPtr + 15)) 0x02)
           (slice_bit (slice_phase3 m (pPtr + 17)) 0x01),
       pPtr + 20, 0)
  | _ => (0, pPtr, phase)
  end.

(** ** State of the demodulator

    [msg1] and [msg2] are the two byte arrays of [demodulate2400]; the
    pointers [msg] and [bestmsg] range over them, [bestmsg] is also
    [NULL] at first. *)
Inductive buf_id := Msg1 | Msg2.

(** The calls that [score_phase] makes, in order: every entry of
    [slice_byte] with the values of [*pPtr] and [*phase] it is given, and
    every call of the external scorer with its two arguments. *)
Inductive call :=
| CallSlice (pPtr phase : Z)
| CallScore (bytes : list Z) (validbits : Z).

(** The counters of [struct stats] that the demodulator increments
    (all [uint32_t]). *)
Record stats := {
  demod_preambles : Z;
  demod_rejected_bad : Z;
  demod_rejected_unknown_icao : Z;
  demod_accepted : list Z;           (* [MODES_MAX_BITERRORS + 1] *)
  demod_preamblePhase : list Z;      (* [5] *)
  demod_bestPhase : list Z           (* [5] *)
}.

(** The fields of [struct modesMessage] that [demodulate2400] writes,
    and [correctedbits], which it reads back from the decoder. *)
Record modesMessage := {
  mm_msg : list Z;
  timestamp : Z;
  sysTimestamp : Z;
  score : Z;
  correctedbits : Z
}.

Record mag_buf := {
  mag_data : list Z;
  mag_length : Z;
  mag_sampleTimestamp : Z;
  mag_sysTimestamp : Z
}.

Record dstate := {
  valid_df_short_bitset : Z;
  valid_df_long_bitset : Z;
  stats_current : stats;
  msg1 : list Z;
  msg2 : list Z;
  msg : buf_id;
  bestmsg : option buf_id;
  bestscore : Z;
  bestphase : Z;
  calls : list call;
  used : list modesMessage           (* the messages given to netUseMessage *)
}.

Definition with_bitsets (bs : Z * Z) (s : dstate) : dstate :=
  {| valid_df_short_bitset := fst bs; valid_df_long_bitset := snd bs;
     stats_current := stats_current s; msg1 := msg1 s; msg2 := msg2 s;
     msg := msg s; bestmsg := bestmsg s; bestscore := bestscore s;
     bestphase := bestphase s; calls := calls s; used := used s |}.

Definition with_stats (f : stats -> stats) (s : dstate) : dstate :=
  {| valid_df_short_bitset := valid_df_short_bitset s;
     valid_df_long_bitset := valid_df_long_bitset s;
     stats_current := f (stats_current s); msg1 := msg1 s; msg2 := msg2 s;
     msg := msg s; bestmsg := bestmsg s; bestscore := bestscore s;
     bestphase := bestphase s; calls := calls s; used := used s |}.

Definition with_bufs (b1 b2 : list Z) (s : dstate) : dstate :=
  {| valid_df_short_bitset := valid_df_short_bitset s;
     valid_df_long_bitset := valid_df_long_bitset s;
     stats_current := stats_current s; msg1 := b1; msg2 := b2;
     msg := msg s; bestmsg := bestmsg s; bestscore := bestscore s;
     bestphase := bestphase s; calls := calls s; used := used s |}.

Definition with_best (cur : buf_id) (bm : option buf_id) (bs bp : Z)
    (s : dstate) : dstate :=
  {| valid_df_short_bitset := valid_df_short_bitset s;
     valid_df_long_bitset := valid_df_long_bitset s;
     stats_current := stats_current s; msg1 := msg1 s; msg2 := msg2 s;
     msg := cur; bestmsg := bm; bestscore := bs;
     bestphase := bp; calls := calls s; used := used s |}.

Definition with_bestscore (bs : Z) (s : dstate) : dstate :=
  with_best (msg s) (bestmsg s) bs (bestphase s) s.

Definition log_call (c : call) (s : dstate) : dstate :=
  {| valid_df_short_bitset := valid_df_short_bitset s;
     valid_df_long_bitset := valid_df_long_bitset s;
     stats_current := stats_current s; msg1 := msg1 s; msg2 := msg2 s;
     msg := msg s; bestmsg := bestmsg s; bestscore := bestscore s;
     bestphase := bestphase s; calls := calls s ++ [c]; used := used s |}.

Definition netUseMessage (mm : modesMessage) (s : dstate) : dstate :=
  {| valid_df_short_bitset := valid_df_short_bitset s;
     valid_df_long_bitset := valid_df_long_bitset s;
     stats_current := stats_current s; msg1 := msg1 s; msg2 := msg2 s;
     msg := msg s; bestmsg := bestmsg s; bestscore := bestscore s;
     bestphase := bestphase s; calls := calls s; used := used s ++ [mm] |}.

(** [buf s b] is the array that the pointer [b] points to. *)
Definition buf (s : dstate) (b : buf_id) : list Z :=
  match b with Msg1 => msg1 s | Msg2 => msg2 s end.

(** [( *msg)[i] = v]. *)
Definition store_msg (i v : Z) (s : dstate) : dstate :=
  match msg s with
  | Msg1 => with_bufs (<[Z.to_nat i := v]> (msg1 s)) (msg2 s) s
  | Msg2 => with_bufs (msg1 s) (<[Z.to_nat i := v]> (msg2 s)) s
  end.

(** [counter++] on a [uint32_t]. *)
Definition incr32 (x : Z) : Z := wrap32 (x + 1).

Definition bump_preambles (t : stats) : stats :=
  {| demod_preambles := incr32 (demod_preambles t);
     demod_rejected_bad := demod_rejected_bad t;
     demod_rejected_unknown_icao := demod_rejected_unknown_icao t;
     demod_accepted := demod_accepted t;
     demod_preamblePhase := demod_preamblePhase t;
     demod_bestPhase := demod_bestPhase t |}.

Definition bump_rejected_bad (t : stats) : stats :=
  {| demod_preambles := demod_preambles t;
     demod_rejected_bad := incr32 (demod_rejected_bad t);
     demod_rejected_unknown_icao := demod_rejected_unknown_icao t;
     demod_accepted := demod_accepted t;
     demod_preamblePhase := demod_preamblePhase t;
     demod_bestPhase := demod_bestPhase t |}.

Definition bump_rejected_unknown_icao (t : stats) : stats :=
  {| demod_preambles := demod_preambles t;
     demod_rejected_bad := demod_rejected_bad t;
     demod_rejected_unknown_icao := incr32 (demod_rejected_unknown_icao t);
     demod_accepted := demod_accepted t;
     demod_preamblePhase := demod_preamblePhase t;
     demod_bestPhase := demod_bestPhase t |}.

Definition bump_accepted (i : Z) (t : stats) : stats :=
  {| demod_preambles := demod_preambles t;
     demod_rejected_bad := demod_rejected_bad t;
     demod_rejected_unknown_icao := demod_rejected_unknown_icao t;
     demod_accepted := alter incr32 (Z.to_nat i) (demod_accepted t);
     demod_preamblePhase := demod_preamblePhase t;
     demod_bestPhase := demod_bestPhase t |}.

Definition bump_preamblePhase (i : Z) (t : stats) : stats :=
  {| demod_preambles := demod_preambles t;
     demod_rejected_bad := demod_rejected_bad t;
     demod_rejected_unknown_icao := demod_rejected_unknown_icao t;
     demod_accepted := demod_accepted t;
     demod_preamblePhase := alter incr32 (Z.to_nat i) (demod_preamblePhase t);
     demod_bestPhase := demod_bestPhase t |}.

Definition bump_bestPhase (i : Z) (t : stats) : stats :=
  {| demod_preambles := demod_preambles t;
     demod_rejected_bad := demod_rejected_bad t;
     demod_rejected_unknown_icao := demod_rejected_unknown_icao t;
     demod_accepted := demod_accepted t;
     demod_preamblePhase := demod_preamblePhase t;
     demod_bestPhase := alter incr32 (Z.to_nat i) (demod_bestPhase t) |}.

Section WithCollaborators.

(** The functions that [demod_2400.c] calls and does not define. *)
Variable scoreModesMessage : list Z -> Z -> Z.
Variable decodeModesMessage : modesMessage -> Z * modesMessage.
Variable receiveclock_ms_elapsed : Z -> Z -> Z.

(** What [netGetMM] hands out: a slot of the message buffer before the
    demodulator fills it. *)
Definition netGetMM : modesMessage :=
  {| mm_msg := []; timestamp := 0; sysTimestamp := 0; score := 0;
     correctedbits := 0 |}.

(** ** [score_phase] *)

(** The loop [for (i = 1; i < bytelen; ++i) ( *msg)[i] = slice_byte(..)],
    with [n] iterations left. *)
Fixpoint slice_rest (m : list Z) (n : nat) (i pPtr phase : Z) (s : dstate)
    : dstate :=
  match n with
  | O => s
  | S n' =>
      let '(b, pPtr', phase') := slice_byte m pPtr phase in
      slice_rest m n' (i + 1) pPtr' phase'
        (store_msg i b (log_call (CallSlice pPtr phase) s))
  end.

(** The other of the two buffers: [( *msg == msg1) ? msg2 : msg1]. *)
Definition other_buf (b : buf_id) : buf_id :=
  match b with Msg1 => Msg2 | Msg2 => Msg1 end.

(** From the [for] loop to the end of [score_phase], for a frame of
    [bytelen] bytes whose first byte is already in [*msg]. *)
Definition score_frame (m : list Z) (try_phase bytelen pPtr phase : Z)
    (s : dstate) : dstate :=
  let s := slice_rest m (Z.to_nat (bytelen - 1)) 1 pPtr phase s in
  let sc := scoreModesMessage (buf s (msg s)) (bytelen * 8) in
  let s := log_call (CallScore (buf s (msg s)) (bytelen * 8)) s in
  if bestscore s <? sc
  then with_best (other_buf (msg s)) (Some (msg s)) sc try_phase s
  else s.

Definition score_phase (m : list Z) (try_phase pa : Z) (s : dstate) : dstate :=
  let s := with_stats (bump_preamblePhase (try_phase - 4)) s in
  let pPtr := pa + 19 + Z.quot try_phase 5 in
  let phase := Z.rem try_phase 5 in
  let '(b0, pPtr', phase') := slice_byte m pPtr phase in
  let s := store_msg 0 b0 (log_call (CallSlice pPtr phase) s) in
  let df := Z.shiftr (byte_at (buf s (msg s)) 0) 3 in
  if df_in (valid_df_long_bitset s) df then
    score_frame m try_phase MODES_LONG_MSG_BYTES pPtr' phase' s
  else if df_in (valid_df_short_bitset s) df then
    score_frame m try_phase MODES_SHORT_MSG_BYTES pPtr' phase' s
  else
    let score := -2 in
    if bestscore s <? score then with_bestscore score s else s.

(** ** [demodulate2400] *)

Variable cfg : config.

(** The pre-check [pa[1] > pa[7] && pa[12] > pa[14] && pa[12] > pa[15]]. *)
Definition pre_check (m : list Z) (pa : Z) : bool :=
  (mag_at m (pa + 7) <? mag_at m (pa + 1))
  && (mag_at m (pa + 14) <? mag_at m (pa + 12))
  && (mag_at m (pa + 15) <? mag_at m (pa + 12)).

(** The unrolled pre-checks, [n] of them left: the test at [pa], then
    [pa++] and the next test.  The result is the value of [pa] where
    control leaves the sequence, and whether it leaves by
    [goto after_pre] ([true]) or falls through to [continue]. *)
Fixpoint pre_scan (m : list Z) (n : nat) (pa : Z) : Z * bool :=
  match n with
  | O => (pa, false)
  | S n' =>
      if pre_check m pa then (pa, true)
      else match n' with
           | O => (pa, false)
           | S _ => pre_scan m n' (pa + 1)
           end
  end.

(** The reference level for the preamble magnitude, an [int32_t]. *)
Definition ref_level_of (base_noise : Z) : Z :=
  let r :=
    if negb (samples_dropped cfg =? 0)
    then to_int32 (base_noise * imax PREAMBLE_THRESHOLD_PIZERO (preambleThreshold cfg))
    else to_int32 (wrap32 (base_noise * preambleThreshold cfg)) in
  Z.shiftr r 5.

(** From [base_noise = ...] to the last call of [score_phase]: the
    phases whose preamble magnitude reaches the reference level are
    tried, in the order 4, 5, 6, 7, 8. *)
Definition try_phases (m : list Z) (pa : Z) (s : dstate) : dstate :=
  let base_noise :=
    mag_at m (pa + 5) + mag_at m (pa + 8) + mag_at m (pa + 16)
    + mag_at m (pa + 17) + mag_at m (pa + 18) in
  let ref_level := ref_level_of base_noise in
  let s := with_bestscore (-42) s in
  let diff_2_3 := mag_at m (pa + 2) - mag_at m (pa + 3) in
  let sum_1_4 := mag_at m (pa + 1) + mag_at m (pa + 4) in
  let diff_10_11 := mag_at m (pa + 10) - mag_at m (pa + 11) in
  let common3456 := sum_1_4 - diff_2_3 + mag_at m (pa + 9) + mag_at m (pa + 12) in
  let s :=
    if ref_level <=? common3456 - diff_10_11
    then score_phase m 5 pa (score_phase m 4 pa s) else s in
  let s :=
    if ref_level <=? common3456 + diff_10_11
    then score_phase m 7 pa (score_phase m 6 pa s) else s in
  if ref_level <=? sum_1_4 + 2 * diff_2_3 + diff_10_11 + mag_at m (pa + 12)
  then score_phase m 8 pa s else s.

(** [mm->timestamp], a [uint64_t]. *)
Definition message_timestamp (mag : mag_buf) (pa bestphase : Z) : Z :=
  wrap64 (mag_sampleTimestamp mag + pa * 5 + (8 + 56) * 12 + bestphase).

(** The bytes that [bestmsg] points to ([NULL] gives no bytes). *)
Definition best_bytes (s : dstate) : list Z :=
  match bestmsg s with Some b => buf s b | None => [] end.

(** The message as [demodulate2400] fills it in before it calls the
    decoder. *)
Definition make_mm (mag : mag_buf) (pa : Z) (s : dstate) : modesMessage :=
  let ts := message_timestamp mag pa (bestphase s) in
  {| mm_msg := take 14 (best_bytes s);
     timestamp := ts;
     sysTimestamp :=
       mag_sysTimestamp mag
       + receiveclock_ms_elapsed (mag_sampleTimestamp mag) ts;
     score := bestscore s;
     correctedbits := correctedbits netGetMM |}.

(** From [msglen = ...] to [netUseMessage (mm)], for a candidate whose
    best score is not negative.  The result is the state and the value
    of [pa] at the end of the loop body.  The signal-power statistics
    are floating point and are left out. *)
Definition accept_frame (mag : mag_buf) (pa : Z) (s : dstate) : dstate * Z :=
  let msglen := modesMessageLenByType (getbits (best_bytes s) 1 5) in
  let '(result, mm) := decodeModesMessage (make_mm mag pa s) in
  if result <? 0 then
    (with_stats (if result =? -1 then bump_rejected_unknown_icao
                 else bump_rejected_bad) s, pa)
  else
    let s := with_stats (bump_accepted (correctedbits mm)) s in
    let s := with_stats (bump_bestPhase (bestphase s - 4)) s in
    (netUseMessage mm s, pa + Z.quot (msglen * 8) 4).

(** One turn of the loop [for (; pa < stop; pa++)], entered with
    [pa < stop]: the state and the value of [pa] when the body is left
    (by [continue] or at its end), before the [pa++] of the loop. *)
Definition demod_body (mag : mag_buf) (pa : Z) (s : dstate) : dstate * Z :=
  let m := mag_data mag in
  let stop := mag_length mag in
  let '(pa, found) := pre_scan m 10 pa in
  if negb found then (s, pa)
  else if negb (pa <? stop) then (s, pa)
  else
    let s := try_phases m pa s in
    if bestscore s =? -42 then (s, pa)
    else
      let s := with_stats bump_preambles s in
      if bestscore s <? 0 then
        (with_stats (if bestscore s =? -1 then bump_rejected_unknown_icao
                     else bump_rejected_bad) s, pa)
      else accept_frame mag pa s.

(** The loop.  [None] means that the turns allowed by [fuel] did not
    reach [pa >= stop]. *)
Fixpoint demod_loop (fuel : nat) (mag : mag_buf) (pa : Z) (s : dstate)
    : option dstate :=
  if negb (pa <? mag_length mag) then Some s
  else match fuel with
       | O => None
       | S fuel' =>
           let '(s', pa') := demod_body mag pa s in
           demod_loop fuel' mag (pa' + 1) s'
       end.

(** The state in which [demodulate2400] enters its loop: the bitsets
    are built at the first call, [msg] points to [msg1], [bestmsg] is
    [NULL] and [bestphase] is 0.  The arrays [msg1], [msg2] and
    [bestscore] are not initialised by the C code: they keep what the
    state holds. *)
Definition demod_entry (s : dstate) : dstate :=
  let s :=
    if valid_df_short_bitset s =? 0 then with_bitsets (init_bitsets cfg) s
    else s in
  with_best Msg1 None (bestscore s) 0 s.

(** [demodulate2400 (mag)], from its entry to the end of its loop.
    Every turn of the loop moves [pa] forward, so [mag_length mag] turns
    are enough (see [demod_loop_total]).  What the function does after
    the loop is not modelled: the update of [noise_power_sum], which is
    floating point, and of [noise_power_count], and the call of
    [netDrainMessageBuffers]; [stats] holds the counters of the
    demodulator only. *)
Definition demodulate2400_from (fuel : nat) (mag : mag_buf) (s : dstate)
    : option dstate :=
  demod_loop fuel mag 0 (demod_entry s).

Definition demodulate2400 (mag : mag_buf) (s : dstate) : option dstate :=
  demodulate2400_from (Z.to_nat (mag_length mag)) mag s.

End WithCollaborators.

(** ** The byte slicer: phase and pointer *)

Lemma lor_below (n a b : Z) :
  0 <= n -> 0 <= a < 2 ^ n -> 0 <= b < 2 ^ n -> 0 <= Z.lor a b < 2 ^ n.
Proof.
  intros Hn Ha Hb.
  assert (Hnn : 0 <= Z.lor a b) by (apply Z.lor_nonneg; lia).
  split; [exact Hnn|].
  destruct (Z.eq_dec (Z.lor a b) 0) as [E|E]; [rewrite E; lia|].
  apply Z.log2_lt_pow2; [lia|].
  rewrite Z.log2_lor by lia.
  destruct (Z.eq_dec a 0) as [->|Na]; destruct (Z.eq_dec b 0) as [->|Nb];
    try (exfalso; apply E; reflexivity).
  - rewrite Z.max_r by (apply Z.log2_nonneg). apply Z.log2_lt_pow2; lia.
  - rewrite Z.max_l by (apply Z.log2_nonneg). apply Z.log2_lt_pow2; lia.
  - apply Z.max_lub_lt; apply Z.log2_lt_pow2; lia.
Qed.

Lemma slice_bit_below (c mask : Z) :
  0 <= mask < 2 ^ 8 -> 0 <= slice_bit c mask < 2 ^ 8.
Proof. intros H. unfold slice_bit. destruct (0 <? c); lia. Qed.

Lemma or8_below (b7 b6 b5 b4 b3 b2 b1 b0 : Z) :
  0 <= b7 < 2 ^ 8 -> 0 <= b6 < 2 ^ 8 -> 0 <= b5 < 2 ^ 8 -> 0 <= b4 < 2 ^ 8 ->
  0 <= b3 < 2 ^ 8 -> 0 <= b2 < 2 ^ 8 -> 0 <= b1 < 2 ^ 8 -> 0 <= b0 < 2 ^ 8 ->
  0 <= or8 b7 b6 b5 b4 b3 b2 b1 b0 < 2 ^ 8.
Proof.
  intros. unfold or8. repeat (apply lor_below; [lia|assumption|]). assumption.
Qed.

(** The byte that [slice_byte] returns fits a [uint8_t]. *)
Lemma slice_byte_is_byte (m : list Z) (pPtr phase : Z) :
  0 <= (slice_byte m pPtr phase).1.1 < 2 ^ 8.
Proof.
  unfold slice_byte.
  destruct phase as [|p|p]; [| |simpl; lia].
  - simpl. apply or8_below; apply slice_bit_below; lia.
  - do 3 (try destruct p as [p|p|]); simpl;
      first [lia | apply or8_below; apply slice_bit_below; lia].
Qed.

(** C2. Slicing one byte in phase [p] of 0..4 leaves the phase at
    [(p + 1) mod 5] and moves the sample pointer forward by exactly 19
    samples when [p] is 0, 1, 2 or 3 and by exactly 20 samples when [p]
    is 4. *)
Theorem slice_byte_advance (m : list Z) (pPtr p : Z) :
  0 <= p <= 4 ->
  (slice_byte m pPtr p).2 = (p + 1) mod 5
  /\ (slice_byte m pPtr p).1.2 = pPtr + (if p =? 4 then 20 else 19).
Proof.
  intros Hp.
  assert (Hcases : p = 0 \/ p = 1 \/ p = 2 \/ p = 3 \/ p = 4) by lia.
  destruct Hcases as [-> | [-> | [-> | [-> | ->]]]]; split; reflexivity.
Qed.

Lemma slice_byte_advance_witness :
  (slice_byte [5; 1; 0; 2] 0 4).2 = (4 + 1) mod 5
  /\ (slice_byte [5; 1; 0; 2] 0 4).1.2 = 0 + (if 4 =? 4 then 20 else 19).
Proof. apply (slice_byte_advance [5; 1; 0; 2] 0 4). lia. Defined.

(** ** The early inspection of the DF field *)

(** The sets of downlink formats as the specification lists them. *)
Definition short_dfs : list Z := [0; 4; 5; 11].

Definition repair_enabled (cfg : config) : bool :=
  negb (fixDF cfg =? 0) && negb (nfix_crc cfg =? 0).

Definition long_dfs (cfg : config) : list Z :=
  [16; 17; 18; 20; 21]
  ++ (if ENABLE_DF24 cfg then [24; 25; 26; 27; 28; 29; 30; 31] else [])
  ++ (if repair_enabled cfg
      then map (fun b => Z.lxor 17 (2 ^ b)) [0; 1; 2; 3; 4] else []).

Definition Zin (x : Z) (l : list Z) : bool := existsb (Z.eqb x) l.

Lemma Zin_In (x : Z) (l : list Z) : Zin x l = true <-> In x l.
Proof.
  unfold Zin. rewrite existsb_exists. split.
  - intros (y & Hy & E). apply Z.eqb_eq in E. now subst.
  - intros H. exists x. split; [exact H|apply Z.eqb_refl].
Qed.

Definition dfs_0_31 : list Z := map Z.of_nat (seq 0 32).

Lemma in_dfs_0_31 (df : Z) : 0 <= df < 32 -> In df dfs_0_31.
Proof.
  intros H. unfold dfs_0_31. apply in_map_iff. exists (Z.to_nat df).
  split; [lia|]. apply in_seq. lia.
Qed.

(** The bitsets of the four builds: with or without [ENABLE_DF24], with
    or without DF repair. *)
Definition cfg_of (df24 repair : bool) : config :=
  {| ENABLE_DF24 := df24; nfix_crc := if repair then 1 else 0;
     fixDF := if repair then 1 else 0;
     preambleThreshold := PREAMBLE_THRESHOLD_PIZERO; samples_dropped := 0 |}.

Lemma init_bitsets_cfg_of (cfg : config) :
  init_bitsets cfg = init_bitsets (cfg_of (ENABLE_DF24 cfg) (repair_enabled cfg))
  /\ long_dfs cfg = long_dfs (cfg_of (ENABLE_DF24 cfg) (repair_enabled cfg)).
Proof.
  unfold init_bitsets, long_dfs, repair_enabled. simpl.
  destruct (ENABLE_DF24 cfg), (fixDF cfg =? 0), (nfix_crc cfg =? 0);
    split; reflexivity.
Qed.

Definition bitsets_agree (df24 repair : bool) : bool :=
  let bs := init_bitsets (cfg_of df24 repair) in
  forallb (fun df =>
             Bool.eqb (df_in bs.1 df) (Zin df short_dfs)
             && Bool.eqb (df_in bs.2 df) (Zin df (long_dfs (cfg_of df24 repair))))
          dfs_0_31.

(** The two bitsets that [init_bitsets] builds hold exactly the listed
    downlink formats. *)
Lemma init_bitsets_spec (cfg : config) (df : Z) :
  0 <= df < 32 ->
  (df_in (init_bitsets cfg).1 df = true <-> In df short_dfs)
  /\ (df_in (init_bitsets cfg).2 df = true <-> In df (long_dfs cfg)).
Proof.
  intros Hdf.
  destruct (init_bitsets_cfg_of cfg) as [-> ->].
  assert (H : bitsets_agree (ENABLE_DF24 cfg) (repair_enabled cfg) = true)
    by (destruct (ENABLE_DF24 cfg), (repair_enabled cfg); vm_compute; reflexivity).
  unfold bitsets_agree in H. rewrite forallb_forall in H.
  specialize (H df (in_dfs_0_31 df Hdf)).
  apply andb_prop in H. destruct H as [H1 H2].
  apply Bool.eqb_prop in H1, H2.
  rewrite H1, H2. split; apply Zin_In.
Qed.

Lemma short_long_disjoint (cfg : config) (df : Z) :
  In df short_dfs -> ~ In df (long_dfs cfg).
Proof.
  intros Hs Hl. destruct (init_bitsets_cfg_of cfg) as [_ E]. rewrite E in Hl.
  apply Zin_In in Hl.
  destruct Hs as [<- | [<- | [<- | [<- | []]]]];
    destruct (ENABLE_DF24 cfg), (repair_enabled cfg); vm_compute in Hl; discriminate.
Qed.

Section ScorePhase.

Variable scoreModesMessage : list Z -> Z -> Z.

Definition is_slice (c : call) : Prop :=
  match c with CallSlice _ _ => True | CallScore _ _ => False end.

(** What slicing bytes into [*msg] leaves alone. *)
Definition same_control (s s' : dstate) : Prop :=
  msg s' = msg s /\ bestmsg s' = bestmsg s /\ bestscore s' = bestscore s
  /\ bestphase s' = bestphase s
  /\ valid_df_short_bitset s' = valid_df_short_bitset s
  /\ valid_df_long_bitset s' = valid_df_long_bitset s
  /\ used s' = used s
  /\ length (msg1 s') = length (msg1 s) /\ length (msg2 s') = length (msg2 s)
  /\ buf s' (other_buf (msg s)) = buf s (other_buf (msg s)).

Lemma same_control_refl (s : dstate) : same_control s s.
Proof. unfold same_control. tauto. Qed.

Lemma same_control_trans (s1 s2 s3 : dstate) :
  same_control s1 s2 -> same_control s2 s3 -> same_control s1 s3.
Proof. unfold same_control. intuition congruence. Qed.

Lemma store_log_control (i v : Z) (c : call) (s : dstate) :
  same_control s (store_msg i v (log_call c s))
  /\ calls (store_msg i v (log_call c s)) = calls s ++ [c].
Proof.
  unfold same_control, store_msg, log_call, with_bufs. simpl.
  destruct (msg s); simpl; rewrite ?length_insert; tauto.
Qed.

Lemma with_stats_control (f : stats -> stats) (s : dstate) :
  same_control s (with_stats f s) /\ calls (with_stats f s) = calls s.
Proof. unfold same_control, with_stats. simpl. tauto. Qed.

Lemma store_msg_read (v : Z) (c : call) (s : dstate) :
  length (msg1 s) = 14%nat -> length (msg2 s) = 14%nat ->
  let s' := store_msg 0 v (log_call c s) in
  byte_at (buf s' (msg s')) 0 = v.
Proof.
  intros H1 H2. unfold store_msg, log_call, with_bufs, buf, byte_at. simpl.
  destruct (msg s); simpl.
  - destruct (msg1 s); [discriminate|reflexivity].
  - destruct (msg2 s); [discriminate|reflexivity].
Qed.

Lemma slice_rest_spec (m : list Z) (n : nat) :
  forall (i pPtr phase : Z) (s : dstate),
  exists slices,
    calls (slice_rest m n i pPtr phase s) = calls s ++ slices
    /\ length slices = n /\ Forall is_slice slices
    /\ same_control s (slice_rest m n i pPtr phase s).
Proof.
  induction n as [|n IH]; intros i pPtr phase s; simpl.
  - exists []. rewrite app_nil_r. repeat split; auto using same_control_refl.
  - destruct (slice_byte m pPtr phase) as [[b pPtr'] phase'].
    destruct (store_log_control i b (CallSlice pPtr phase) s) as [Hc Hl].
    destruct (IH (i + 1) pPtr' phase'
                 (store_msg i b (log_call (CallSlice pPtr phase) s)))
      as (sl & E & Hlen & Hall & Hc').
    exists (CallSlice pPtr phase :: sl). rewrite E, Hl, <- app_assoc.
    split; [reflexivity|]. split; [simpl; congruence|]. split.
    + constructor; [exact I|exact Hall].
    + eapply same_control_trans; eassumption.
Qed.

(** A frame of [n] bytes was sliced and scored: after the slice that
    gave the first byte, [n - 1] more calls of the slicer and then one
    call of the scorer, on the buffer that [msg] pointed to, with
    [n * 8] valid bits. *)
Definition scored_frame (n : Z) (s s' : dstate) : Prop :=
  exists slices,
    calls s' = calls s ++ slices ++ [CallScore (buf s' (msg s)) (n * 8)]
    /\ Z.of_nat (length slices) = n /\ Forall is_slice slices.

(** The phase was given up with score -2 after the first byte: one call
    of the slicer and none of the scorer, the best candidate stays, and
    the best score becomes -2 only where it was lower. *)
Definition aborted (pPtr phase : Z) (s s' : dstate) : Prop :=
  calls s' = calls s ++ [CallSlice pPtr phase]
  /\ bestscore s' = Z.max (bestscore s) (-2)
  /\ bestmsg s' = bestmsg s /\ bestphase s' = bestphase s /\ msg s' = msg s.

Lemma score_frame_spec (m : list Z) (try_phase bytelen pPtr phase : Z)
    (s0 s : dstate) (c : call) :
  1 <= bytelen -> is_slice c -> calls s = calls s0 ++ [c] -> msg s = msg s0 ->
  scored_frame bytelen s0
    (score_frame scoreModesMessage m try_phase bytelen pPtr phase s).
Proof.
  intros Hlen Hc Hcalls Hmsg. unfold score_frame.
  destruct (slice_rest_spec m (Z.to_nat (bytelen - 1)) 1 pPtr phase s)
    as (sl & E & Hn & Hall & Hctl).
  set (s1 := slice_rest m (Z.to_nat (bytelen - 1)) 1 pPtr phase s) in *.
  destruct Hctl as (Hm & _).
  exists (c :: sl).
  assert (Hbuf : forall s2, msg1 s2 = msg1 s1 -> msg2 s2 = msg2 s1 ->
                            buf s2 (msg s0) = buf s1 (msg s1)).
  { intros s2 E1 E2. rewrite Hm, Hmsg. unfold buf. destruct (msg s0); auto. }
  match goal with |- context [calls ?x = _] => set (s2 := x) end.
  assert (H2 : calls s2 = calls s1 ++ [CallScore (buf s1 (msg s1)) (bytelen * 8)]
               /\ msg1 s2 = msg1 s1 /\ msg2 s2 = msg2 s1).
  { unfold s2. destruct (bestscore _ <? _); simpl; tauto. }
  destruct H2 as (Hc2 & E1 & E2).
  split; [|split].
  - rewrite (Hbuf s2 E1 E2), Hc2, E, Hcalls, <- !app_assoc. reflexivity.
  - simpl length. lia.
  - constructor; assumption.
Qed.

(** The three ways through [score_phase], by the two bitset tests on
    the DF of the first byte. *)
Lemma score_phase_branches (m : list Z) (try_phase pa : Z) (s : dstate)
    (b0 pPtr' phase' : Z) :
  length (msg1 s) = 14%nat -> length (msg2 s) = 14%nat ->
  let pPtr := pa + 19 + Z.quot try_phase 5 in
  let phase := Z.rem try_phase 5 in
  slice_byte m pPtr phase = (b0, pPtr', phase') ->
  let df := Z.shiftr b0 3 in
  let s' := score_phase scoreModesMessage m try_phase pa s in
  (df_in (valid_df_long_bitset s) df = true -> scored_frame 14 s s')
  /\ (df_in (valid_df_long_bitset s) df = false ->
      df_in (valid_df_short_bitset s) df = true -> scored_frame 7 s s')
  /\ (df_in (valid_df_short_bitset s) df = false ->
      df_in (valid_df_long_bitset s) df = false -> aborted pPtr phase s s').
Proof.
  intros Hl1 Hl2 pPtr phase Hsl df s'.
  unfold s', score_phase. fold pPtr phase. rewrite Hsl.
  set (s0 := with_stats (bump_preamblePhase (try_phase - 4)) s).
  assert (Hs0 : calls s0 = calls s /\ msg s0 = msg s
                /\ length (msg1 s0) = 14%nat /\ length (msg2 s0) = 14%nat
                /\ valid_df_short_bitset s0 = valid_df_short_bitset s
                /\ valid_df_long_bitset s0 = valid_df_long_bitset s
                /\ bestscore s0 = bestscore s /\ bestmsg s0 = bestmsg s
                /\ bestphase s0 = bestphase s)
    by (unfold s0, with_stats; simpl; tauto).
  destruct Hs0 as (Hc0 & Hm0 & Hl10 & Hl20 & Hsh0 & Hlo0 & Hbs0 & Hbm0 & Hbp0).
  destruct (store_log_control 0 b0 (CallSlice pPtr phase) s0)
    as [(Hm & Hbm & Hbs & Hbp & Hsh & Hlo & _) Hcalls].
  pose proof (store_msg_read b0 (CallSlice pPtr phase) s0 Hl10 Hl20) as Hrd.
  simpl in Hrd.
  set (s1 := store_msg 0 b0 (log_call (CallSlice pPtr phase) s0)) in *.
  rewrite Hrd. fold df. rewrite Hsh, Hlo, Hsh0, Hlo0.
  assert (Hsf : forall n, 1 <= n ->
    scored_frame n s
      (score_frame scoreModesMessage m try_phase n pPtr' phase' s1)).
  { intros n Hn. apply score_frame_spec with (c := CallSlice pPtr phase);
      [exact Hn | exact I | congruence | congruence]. }
  split; [|split].
  - intros ->. apply Hsf. unfold MODES_LONG_MSG_BYTES. lia.
  - intros -> ->. apply Hsf. unfold MODES_SHORT_MSG_BYTES. lia.
  - intros -> ->. unfold aborted.
    destruct (bestscore s1 <? -2) eqn:Hlt.
    + apply Z.ltb_lt in Hlt. unfold with_bestscore, with_best. simpl.
      repeat split; try congruence. rewrite Hbs, Hbs0 in Hlt. lia.
    + apply Z.ltb_ge in Hlt.
      repeat split; try congruence. rewrite Hbs, Hbs0 in *. lia.
Qed.

(** C1. After the first byte of a candidate frame is sliced, its top
    five bits are the DF.  A DF of 0, 4, 5 or 11 makes a 7-byte frame; a
    DF of 16, 17, 18, 20 or 21, and with [ENABLE_DF24] one of 24..31,
    makes a 14-byte frame; with DF repair enabled the long bitset also
    holds every value one bit flip away from 17; a DF in neither bitset
    gives the phase up with score -2, no further byte is sliced and the
    scorer is not called. *)
Theorem score_phase_df_gate (cfg : config) (m : list Z) (try_phase pa : Z)
    (s : dstate) :
  (valid_df_short_bitset s, valid_df_long_bitset s) = init_bitsets cfg ->
  length (msg1 s) = 14%nat -> length (msg2 s) = 14%nat ->
  let pPtr := pa + 19 + Z.quot try_phase 5 in
  let phase := Z.rem try_phase 5 in
  let byte0 := (slice_byte m pPtr phase).1.1 in
  let df := Z.shiftr byte0 3 in
  let s' := score_phase scoreModesMessage m try_phase pa s in
  0 <= byte0 < 256 /\ 0 <= df < 32
  /\ (In df [0; 4; 5; 11] -> scored_frame 7 s s')
  /\ (In df [16; 17; 18; 20; 21] -> scored_frame 14 s s')
  /\ (ENABLE_DF24 cfg = true -> 24 <= df <= 31 -> scored_frame 14 s s')
  /\ (repair_enabled cfg = true ->
      forall b, 0 <= b < 5 ->
        df_in (valid_df_long_bitset s) (Z.lxor 17 (2 ^ b)) = true
        /\ (df = Z.lxor 17 (2 ^ b) -> scored_frame 14 s s'))
  /\ (df_in (valid_df_short_bitset s) df = false ->
      df_in (valid_df_long_bitset s) df = false ->
      aborted pPtr phase s s')
  /\ (~ In df short_dfs -> ~ In df (long_dfs cfg) -> aborted pPtr phase s s').
Proof.
  intros Hbits Hl1 Hl2 pPtr phase byte0 df s'.
  assert (Hshort : valid_df_short_bitset s = (init_bitsets cfg).1)
    by (rewrite <- Hbits; reflexivity).
  assert (Hlong : valid_df_long_bitset s = (init_bitsets cfg).2)
    by (rewrite <- Hbits; reflexivity).
  assert (Hb : 0 <= byte0 < 256) by apply slice_byte_is_byte.
  assert (Hdf : 0 <= df < 32).
  { unfold df. rewrite Z.shiftr_div_pow2 by lia. change (2 ^ 3) with 8.
    split; [apply Z.div_pos; lia | apply Z.div_lt_upper_bound; lia]. }
  assert (Hrun :
    (df_in (valid_df_long_bitset s) df = true -> scored_frame 14 s s')
    /\ (df_in (valid_df_long_bitset s) df = false ->
        df_in (valid_df_short_bitset s) df = true -> scored_frame 7 s s')
    /\ (df_in (valid_df_short_bitset s) df = false ->
        df_in (valid_df_long_bitset s) df = false -> aborted pPtr phase s s')).
  { destruct (slice_byte m pPtr phase) as [[b0 pPtr'] phase'] eqn:Hsl.
    exact (score_phase_branches m try_phase pa s b0 pPtr' phase' Hl1 Hl2 Hsl). }
  destruct Hrun as (Hrl & Hrs & Hra).
  destruct (init_bitsets_spec cfg df Hdf) as [Hs Hl].
  rewrite <- Hshort in Hs. rewrite <- Hlong in Hl.
  assert (Hlong_in : In df (long_dfs cfg) -> scored_frame 14 s s')
    by (intros H; apply Hrl, Hl, H).
  split; [exact Hb|]. split; [exact Hdf|]. repeat apply conj.
  - intros Hin. apply Hrs; [|apply Hs, Hin].
    destruct (df_in (valid_df_long_bitset s) df); [|reflexivity].
    exfalso. apply (short_long_disjoint cfg df Hin), Hl. reflexivity.
  - intros Hin. apply Hlong_in. unfold long_dfs. apply in_or_app. now left.
  - intros H24 Hr. apply Hlong_in. unfold long_dfs. rewrite H24.
    apply in_or_app. right. apply in_or_app. left.
    assert (Hc : df = 24 \/ df = 25 \/ df = 26 \/ df = 27 \/ df = 28
                 \/ df = 29 \/ df = 30 \/ df = 31) by lia.
    simpl. lia.
  - intros Hrep b Hbr.
    assert (Hin : In (Z.lxor 17 (2 ^ b)) (long_dfs cfg)).
    { unfold long_dfs. rewrite Hrep. apply in_or_app. right. apply in_or_app.
      right. apply (in_map (fun b => Z.lxor 17 (2 ^ b))). simpl. lia. }
    split.
    + assert (Hr : 0 <= Z.lxor 17 (2 ^ b) < 32).
      { assert (Hc : b = 0 \/ b = 1 \/ b = 2 \/ b = 3 \/ b = 4) by lia.
        destruct Hc as [-> | [-> | [-> | [-> | ->]]]]; vm_compute;
          split; congruence. }
      rewrite Hlong. apply (init_bitsets_spec cfg _ Hr), Hin.
    + intros E. apply Hlong_in. rewrite E. exact Hin.
  - exact Hra.
  - intros Hns Hnl. apply Hra.
    + destruct (df_in (valid_df_short_bitset s) df); [|reflexivity].
      exfalso. apply Hns, Hs. reflexivity.
    + destruct (df_in (valid_df_long_bitset s) df); [|reflexivity].
      exfalso. apply Hnl, Hl. reflexivity.
Qed.

(** ** What one call of [score_phase] does to the best candidate *)

(** The trace holds the slicing and scoring of a frame of [n] bytes:
    [n] calls of the slicer in a row and then the call of the scorer on
    [bytes] with [n * 8] valid bits. *)
Definition frame_in_trace (n : Z) (bytes : list Z) (tr : list call) : Prop :=
  exists pre slices post,
    tr = pre ++ slices ++ CallScore bytes (n * 8) :: post
    /\ Z.of_nat (length slices) = n /\ Forall is_slice slices.

Lemma frame_in_trace_app (n : Z) (bytes : list Z) (tr more : list call) :
  frame_in_trace n bytes tr -> frame_in_trace n bytes (tr ++ more).
Proof.
  intros (pre & sl & post & E & Hn & Hall).
  exists pre, sl, (post ++ more). rewrite E, <- !app_assoc. auto.
Qed.

Inductive phase_result (try_phase : Z) (s s' : dstate) : Prop :=
| KeepBest :
    msg s' = msg s -> bestmsg s' = bestmsg s -> bestphase s' = bestphase s ->
    bestscore s' = bestscore s \/ (bestscore s' = -2 /\ bestscore s < -2) ->
    buf s' (other_buf (msg s)) = buf s (other_buf (msg s)) ->
    phase_result try_phase s s'
| NewBest (n : Z) :
    n = 7 \/ n = 14 ->
    bestmsg s' = Some (msg s) -> msg s' = other_buf (msg s) ->
    bestphase s' = try_phase -> bestscore s < bestscore s' ->
    bestscore s' = scoreModesMessage (buf s' (msg s)) (n * 8) ->
    frame_in_trace n (buf s' (msg s)) (calls s') ->
    phase_result try_phase s s'.

Definition same_globals (s s' : dstate) : Prop :=
  used s' = used s
  /\ valid_df_short_bitset s' = valid_df_short_bitset s
  /\ valid_df_long_bitset s' = valid_df_long_bitset s
  /\ length (msg1 s') = length (msg1 s) /\ length (msg2 s') = length (msg2 s)
  /\ exists more, calls s' = calls s ++ more.

Lemma same_globals_refl (s : dstate) : same_globals s s.
Proof.
  unfold same_globals. repeat split; auto. exists []. now rewrite app_nil_r.
Qed.

Lemma same_globals_trans (s1 s2 s3 : dstate) :
  same_globals s1 s2 -> same_globals s2 s3 -> same_globals s1 s3.
Proof.
  intros (U1 & A1 & B1 & C1 & D1 & m1 & E1) (U2 & A2 & B2 & C2 & D2 & m2 & E2).
  unfold same_globals. repeat split; try congruence.
  exists (m1 ++ m2). rewrite E2, E1, app_assoc. reflexivity.
Qed.

Lemma score_frame_effect (m : list Z) (try_phase n pPtr phase : Z)
    (s s1 : dstate) (c : call) :
  n = 7 \/ n = 14 -> is_slice c ->
  same_control s s1 -> calls s1 = calls s ++ [c] ->
  let s' := score_frame scoreModesMessage m try_phase n pPtr phase s1 in
  same_globals s s' /\ phase_result try_phase s s'.
Proof.
  intros Hn Hc Hctl Hcalls s'. unfold s', score_frame.
  destruct (slice_rest_spec m (Z.to_nat (n - 1)) 1 pPtr phase s1)
    as (sl & E & Hlen & Hall & Hctl1).
  set (s2 := slice_rest m (Z.to_nat (n - 1)) 1 pPtr phase s1) in *.
  pose proof (same_control_trans _ _ _ Hctl Hctl1) as Hc2.
  destruct Hc2 as (Hm & Hbm & Hbs & Hbp & Hsh & Hlo & Hu & Hl1 & Hl2 & Hother).
  set (sc := scoreModesMessage (buf s2 (msg s2)) (n * 8)).
  assert (Hbuf : buf s2 (msg s2) = buf s2 (msg s)) by (now rewrite Hm).
  simpl.
  destruct (bestscore s2 <? sc) eqn:Hlt; simpl.
  - apply Z.ltb_lt in Hlt. split.
    + unfold same_globals. simpl. repeat split; try assumption.
      exists ([c] ++ sl ++ [CallScore (buf s2 (msg s2)) (n * 8)]).
      rewrite E, Hcalls, <- !app_assoc. reflexivity.
    + match goal with |- phase_result _ _ ?x => set (s3 := x) end.
      assert (Hb3 : buf s3 (msg s) = buf s2 (msg s2))
        by (rewrite Hbuf; destruct (msg s); reflexivity).
      apply NewBest with (n := n); rewrite ?Hb3.
      * assumption.
      * simpl. now rewrite Hm.
      * simpl. now rewrite Hm.
      * reflexivity.
      * change (bestscore s3) with sc. lia.
      * reflexivity.
      * exists (calls s), (c :: sl), [].
        change (calls s3) with (calls s2 ++ [CallScore (buf s2 (msg s2)) (n * 8)]).
        rewrite E, Hcalls, <- !app_assoc.
        split; [reflexivity|]. split; [simpl length; lia|].
        constructor; assumption.
  - split.
    + unfold same_globals. simpl. repeat split; try assumption.
      exists ([c] ++ sl ++ [CallScore (buf s2 (msg s2)) (n * 8)]).
      rewrite E, Hcalls, <- !app_assoc. reflexivity.
    + apply KeepBest; simpl; auto.
Qed.

Lemma score_phase_effect (m : list Z) (try_phase pa : Z) (s : dstate) :
  let s' := score_phase scoreModesMessage m try_phase pa s in
  same_globals s s' /\ phase_result try_phase s s'.
Proof.
  unfold score_phase.
  set (pPtr := pa + 19 + Z.quot try_phase 5). set (phase := Z.rem try_phase 5).
  destruct (slice_byte m pPtr phase) as [[b0 pPtr'] phase'].
  set (s0 := with_stats (bump_preamblePhase (try_phase - 4)) s).
  destruct (with_stats_control (bump_preamblePhase (try_phase - 4)) s)
    as [Hc0 Hcalls0]. fold s0 in Hc0, Hcalls0.
  destruct (store_log_control 0 b0 (CallSlice pPtr phase) s0) as [Hc1 Hcalls1].
  set (s1 := store_msg 0 b0 (log_call (CallSlice pPtr phase) s0)) in *.
  pose proof (same_control_trans _ _ _ Hc0 Hc1) as Hctl.
  assert (Hcalls : calls s1 = calls s ++ [CallSlice pPtr phase]) by congruence.
  cbv zeta.
  destruct (df_in (valid_df_long_bitset s1) _).
  { apply score_frame_effect with (c := CallSlice pPtr phase); auto.
    exact I. }
  destruct (df_in (valid_df_short_bitset s1) _).
  { apply score_frame_effect with (c := CallSlice pPtr phase); auto.
    exact I. }
  destruct Hctl as (Hm & Hbm & Hbs & Hbp & Hsh & Hlo & Hu & Hl1 & Hl2 & Hother).
  destruct (bestscore s1 <? -2) eqn:Hlt.
  - apply Z.ltb_lt in Hlt. split.
    + unfold same_globals. simpl. repeat split; try assumption. eauto.
    + apply KeepBest; simpl; auto. right. split; [reflexivity|lia].
  - split.
    + unfold same_globals. repeat split; try assumption. eauto.
    + apply KeepBest; auto.
Qed.

(** The best candidate of the current sample position, once it has a
    score that is not negative: it lies in the buffer that [bestmsg]
    points to, which is not the one being filled; the trace holds its
    slicing and its scoring; and its phase is one of 4..8. *)
Definition winner (s : dstate) : Prop :=
  0 <= bestscore s ->
  exists b n,
    bestmsg s = Some b /\ msg s = other_buf b /\ (n = 7 \/ n = 14)
    /\ frame_in_trace n (buf s b) (calls s)
    /\ scoreModesMessage (buf s b) (n * 8) = bestscore s
    /\ 4 <= bestphase s <= 8.

Lemma other_buf_involutive (b : buf_id) : other_buf (other_buf b) = b.
Proof. now destruct b. Qed.

Lemma score_phase_winner (m : list Z) (try_phase pa : Z) (s : dstate) :
  4 <= try_phase <= 8 -> winner s ->
  winner (score_phase scoreModesMessage m try_phase pa s).
Proof.
  intros Htp Hw.
  destruct (score_phase_effect m try_phase pa s) as [Hg Hr].
  set (s' := score_phase scoreModesMessage m try_phase pa s) in *.
  destruct Hg as (_ & _ & _ & _ & _ & more & Hmore).
  destruct Hr as [Hm Hbm Hbp Hbs Hother | n Hn Hbm Hm Hbp Hlt Hsc Hfr].
  - intros Hpos.
    assert (Hbs' : bestscore s' = bestscore s) by lia.
    destruct Hw as (b & n & Eb & Em & Hn & Hfr & Hsc & Hph); [lia|].
    assert (Hbuf : buf s' b = buf s b).
    { rewrite Em, other_buf_involutive in Hother. exact Hother. }
    exists b, n. rewrite Hbuf, Hmore.
    repeat split; try congruence; try lia.
    now apply frame_in_trace_app.
  - intros Hpos. exists (msg s), n. repeat split; auto; lia.
Qed.

Lemma try_phases_winner (cfg : config) (m : list Z) (pa : Z) (s : dstate) :
  let w := try_phases scoreModesMessage cfg m pa s in
  same_globals s w /\ winner w.
Proof.
  unfold try_phases.
  set (s0 := with_bestscore (-42) s).
  assert (H0 : same_globals s s0 /\ winner s0).
  { split.
    - unfold s0, with_bestscore, with_best, same_globals. simpl.
      repeat split; auto. exists []. now rewrite app_nil_r.
    - intros Hpos. unfold s0 in Hpos. simpl in Hpos. lia. }
  assert (Hstep : forall tp s1, 4 <= tp <= 8 -> same_globals s s1 /\ winner s1 ->
            same_globals s (score_phase scoreModesMessage m tp pa s1)
            /\ winner (score_phase scoreModesMessage m tp pa s1)).
  { intros tp s1 Htp [Hg Hw]. split.
    - eapply same_globals_trans; [exact Hg|apply score_phase_effect].
    - now apply score_phase_winner. }
  cbv zeta.
  repeat match goal with
         | |- context [if ?c then _ else _] => destruct c
         end;
    repeat (apply Hstep; [lia|]); exact H0.
Qed.

End ScorePhase.

(** ** The loop of [demodulate2400] *)

Section Demodulate.

Variable scoreModesMessage : list Z -> Z -> Z.
Variable decodeModesMessage : modesMessage -> Z * modesMessage.
Variable receiveclock_ms_elapsed : Z -> Z -> Z.
Variable cfg : config.

Abbreviation try_phases' := (try_phases scoreModesMessage cfg).
Abbreviation make_mm' := (make_mm receiveclock_ms_elapsed).
Abbreviation demod_body' :=
  (demod_body scoreModesMessage decodeModesMessage receiveclock_ms_elapsed cfg).
Abbreviation demod_loop' :=
  (demod_loop scoreModesMessage decodeModesMessage receiveclock_ms_elapsed cfg).
Abbreviation demodulate2400' :=
  (demodulate2400 scoreModesMessage decodeModesMessage receiveclock_ms_elapsed cfg).

Lemma pre_scan_spec (m : list Z) (n : nat) :
  forall pa pa' found,
    pre_scan m (S n) pa = (pa', found) ->
    pa <= pa' <= pa + Z.of_nat n
    /\ (found = true -> pre_check m pa' = true).
Proof.
  induction n as [|n IH]; intros pa pa' found H; simpl in H.
  - destruct (pre_check m pa) eqn:Hp; inversion H; subst;
      split; try lia; congruence.
  - destruct (pre_check m pa) eqn:Hp.
    + inversion H; subst. split; [lia|auto].
    + apply IH in H. destruct H as [Hr Hf]. split; [lia|exact Hf].
Qed.

Lemma msglen_step_nonneg (bytes : list Z) :
  0 <= Z.quot (modesMessageLenByType (getbits bytes 1 5) * 8) 4.
Proof.
  unfold modesMessageLenByType.
  destruct (Z.land _ 16 =? 0); vm_compute; congruence.
Qed.

(** A message is accepted at the sample position [off]: the position
    lies in the buffer and passes the pre-check, the phases tried there
    leave the state [w] with a best score that is not negative, the
    decoder does not reject the message built from [w], and [mm] is that
    message as the decoder returns it. *)
Definition accepted_at (mag : mag_buf) (off : Z) (w : dstate)
    (mm : modesMessage) : Prop :=
  0 <= off < mag_length mag
  /\ pre_check (mag_data mag) off = true
  /\ (exists s0, w = try_phases' (mag_data mag) off s0)
  /\ 0 <= bestscore w /\ winner scoreModesMessage w
  /\ 0 <= (decodeModesMessage (make_mm' mag off w)).1
  /\ mm = (decodeModesMessage (make_mm' mag off w)).2.

(** What one turn of the loop leaves of the state: the bitsets, the
    trace extended, and at most one more message. *)
Definition turn (mag : mag_buf) (lo : Z) (s s' : dstate) : Prop :=
  valid_df_short_bitset s' = valid_df_short_bitset s
  /\ valid_df_long_bitset s' = valid_df_long_bitset s
  /\ (exists more, calls s' = calls s ++ more)
  /\ exists new,
       used s' = used s ++ new
       /\ Forall (fun mm => exists off w, lo <= off /\ accepted_at mag off w mm) new.

Lemma turn_refl (mag : mag_buf) (lo : Z) (s : dstate) : turn mag lo s s.
Proof.
  unfold turn. repeat split; auto.
  - exists []. now rewrite app_nil_r.
  - exists []. rewrite app_nil_r. auto.
Qed.

Lemma turn_trans (mag : mag_buf) (lo lo' : Z) (s1 s2 s3 : dstate) :
  lo <= lo' -> turn mag lo s1 s2 -> turn mag lo' s2 s3 -> turn mag lo s1 s3.
Proof.
  intros Hlo (A1 & B1 & (m1 & C1) & n1 & U1 & F1) (A2 & B2 & (m2 & C2) & n2 & U2 & F2).
  unfold turn. repeat split; try congruence.
  - exists (m1 ++ m2). rewrite C2, C1, app_assoc. reflexivity.
  - exists (n1 ++ n2). split; [rewrite U2, U1, app_assoc; reflexivity|].
    apply Forall_app. split; [exact F1|].
    eapply Forall_impl; [exact F2|]. simpl.
    intros mm (off & w & Ho & Ha). exists off, w. split; [lia|exact Ha].
Qed.

Lemma with_stats_turn (mag : mag_buf) (lo : Z) (f : stats -> stats)
    (s s' : dstate) :
  turn mag lo s s' -> turn mag lo s (with_stats f s').
Proof. unfold turn, with_stats. simpl. auto. Qed.

Lemma same_globals_turn (mag : mag_buf) (lo : Z) (s s' : dstate) :
  same_globals s s' -> turn mag lo s s'.
Proof.
  intros (U & A & B & _ & _ & M). unfold turn. repeat split; auto.
  exists []. rewrite app_nil_r. auto.
Qed.

Lemma demod_body_spec (mag : mag_buf) (pa : Z) (s s' : dstate) (pa' : Z) :
  0 <= pa -> demod_body' mag pa s = (s', pa') ->
  pa <= pa' /\ turn mag pa s s'.
Proof.
  intros Hpa H. unfold demod_body in H.
  destruct (pre_scan (mag_data mag) 10 pa) as [off found] eqn:Hscan.
  apply pre_scan_spec in Hscan. destruct Hscan as [Hoff Hfound].
  destruct found; simpl in H.
  2: { inversion H; subst. split; [lia|apply turn_refl]. }
  destruct (off <? mag_length mag) eqn:Hstop; simpl in H.
  2: { inversion H; subst. split; [lia|apply turn_refl]. }
  apply Z.ltb_lt in Hstop.
  destruct (try_phases_winner scoreModesMessage cfg (mag_data mag) off s)
    as [Hg Hw].
  set (w := try_phases' (mag_data mag) off s) in *.
  pose proof (same_globals_turn mag pa _ _ Hg) as Ht.
  destruct (bestscore w =? -42).
  { inversion H; subst. split; [lia|exact Ht]. }
  change (bestscore (with_stats bump_preambles w)) with (bestscore w) in H.
  destruct (bestscore w <? 0) eqn:Hneg.
  { inversion H; subst. split; [lia|]. now do 2 apply with_stats_turn. }
  apply Z.ltb_ge in Hneg.
  unfold accept_frame in H.
  change (make_mm receiveclock_ms_elapsed mag off (with_stats bump_preambles w))
    with (make_mm' mag off w) in H.
  destruct (decodeModesMessage (make_mm' mag off w)) as [result mm] eqn:Hdec.
  destruct (result <? 0) eqn:Hres.
  { inversion H; subst. split; [lia|]. now do 2 apply with_stats_turn. }
  apply Z.ltb_ge in Hres.
  inversion H; subst. split.
  { pose proof (msglen_step_nonneg (best_bytes (with_stats bump_preambles w))).
    lia. }
  destruct Ht as (A & B & (more & C) & new & U & F).
  unfold turn. simpl. repeat split; auto.
  - exists more. exact C.
  - exists (new ++ [mm]). rewrite U, app_assoc. split; [reflexivity|].
    apply Forall_app. split; [exact F|]. constructor; [|constructor].
    exists off, w. split; [lia|].
    unfold accepted_at. rewrite Hdec. simpl.
    repeat split; auto; try lia. exists s. reflexivity.
Qed.

Lemma demod_loop_spec (mag : mag_buf) (fuel : nat) :
  forall pa s s',
    0 <= pa -> demod_loop' fuel mag pa s = Some s' -> turn mag pa s s'.
Proof.
  induction fuel as [|fuel IH]; intros pa s s' Hpa H; simpl in H.
  - destruct (pa <? mag_length mag); simpl in H; [discriminate|].
    inversion H; subst. apply turn_refl.
  - destruct (pa <? mag_length mag); simpl in H.
    + destruct (demod_body' mag pa s) as [s1 pa1] eqn:Hb.
      apply demod_body_spec in Hb; [|exact Hpa]. destruct Hb as [Hle Ht].
      apply IH in H; [|lia].
      eapply turn_trans; [|exact Ht|exact H]. lia.
    + inversion H; subst. apply turn_refl.
Qed.

(** The loop ends: every turn moves [pa] forward, so a turn for each
    sample that is left is enough. *)
Lemma demod_loop_total (mag : mag_buf) (fuel : nat) :
  forall pa s,
    0 <= pa -> mag_length mag - pa <= Z.of_nat fuel ->
    exists s', demod_loop' fuel mag pa s = Some s'.
Proof.
  induction fuel as [|fuel IH]; intros pa s Hpa Hfuel; simpl.
  - destruct (pa <? mag_length mag) eqn:Hlt; simpl; [|eauto].
    apply Z.ltb_lt in Hlt. lia.
  - destruct (pa <? mag_length mag) eqn:Hlt; simpl; [|eauto].
    destruct (demod_body' mag pa s) as [s1 pa1] eqn:Hb.
    apply demod_body_spec in Hb; [|exact Hpa]. destruct Hb as [Hle _].
    apply IH; lia.
Qed.

Lemma demodulate2400_total (mag : mag_buf) (s : dstate) :
  exists s', demodulate2400' mag s = Some s'.
Proof.
  unfold demodulate2400, demodulate2400_from. apply demod_loop_total; lia.
Qed.

Lemma demodulate2400_spec (mag : mag_buf) (s s' : dstate) :
  demodulate2400' mag s = Some s' ->
  exists new,
    used s' = used s ++ new
    /\ Forall (fun mm => exists off w, accepted_at mag off w mm) new.
Proof.
  unfold demodulate2400, demodulate2400_from. intros H.
  apply demod_loop_spec in H; [|lia].
  destruct H as (_ & _ & _ & new & U & F).
  exists new. split.
  - rewrite U. unfold demod_entry.
    destruct (valid_df_short_bitset s =? 0); reflexivity.
  - eapply Forall_impl; [exact F|]. simpl.
    intros mm (off & w & _ & Ha). eauto.
Qed.

(** ** Timestamps of the accepted messages *)

(** [mm] carries the sample-clock time of the end of bit 56 of a frame
    found at some sample position with some winning phase. *)
Definition stamped (mag : mag_buf) (mm : modesMessage) : Prop :=
  exists off w,
    accepted_at mag off w mm
    /\ 4 <= bestphase w <= 8
    /\ timestamp mm
       = wrap64 (mag_sampleTimestamp mag + off * 5 + (8 + 56) * 12 + bestphase w)
    /\ (0 <= mag_sampleTimestamp mag ->
        mag_sampleTimestamp mag + off * 5 + (8 + 56) * 12 + bestphase w < 2 ^ 64 ->
        timestamp mm
        = mag_sampleTimestamp mag + off * 5 + (8 + 56) * 12 + bestphase w).

Lemma accepted_stamped (mag : mag_buf) (off : Z) (w : dstate)
    (mm : modesMessage) :
  (forall x, timestamp (decodeModesMessage x).2 = timestamp x) ->
  accepted_at mag off w mm ->
  4 <= bestphase w <= 8
  /\ timestamp mm
     = wrap64 (mag_sampleTimestamp mag + off * 5 + (8 + 56) * 12 + bestphase w).
Proof.
  intros Hkeep (Hoff & _ & _ & Hpos & Hw & _ & ->).
  destruct (Hw Hpos) as (b & n & _ & _ & _ & _ & _ & Hph).
  split; [exact Hph|]. rewrite Hkeep. reflexivity.
Qed.

(** The run of [demodulate2400] ends, and each message it hands on is
    stamped with the position and the phase it was accepted at. *)
Lemma demodulate2400_stamps (mag : mag_buf) (s : dstate) :
  (forall x, timestamp (decodeModesMessage x).2 = timestamp x) ->
  exists s' new,
    demodulate2400' mag s = Some s'
    /\ used s' = used s ++ new
    /\ Forall (stamped mag) new.
Proof.
  intros Hkeep.
  destruct (demodulate2400_total mag s) as [s' Hrun].
  destruct (demodulate2400_spec mag s s' Hrun) as (new & U & F).
  exists s', new. repeat split; auto.
  eapply Forall_impl; [exact F|]. simpl.
  intros mm (off & w & Ha).
  destruct (accepted_stamped mag off w mm Hkeep Ha) as [Hph Hts].
  exists off, w. split; [exact Ha|]. split; [exact Hph|]. split; [exact Hts|].
  intros H0 Hlt. rewrite Hts. apply wrap64_small.
  destruct Ha as (Hoff & _). lia.
Qed.

(** C3. Every message that the demodulator accepts carries the
    timestamp [sampleTimestamp + offset * 5 + (8 + 56) * 12 + phase] (a
    [uint64_t] sum), where [offset] is the sample position at which the
    preamble was found and [phase], in 4..8, is the winning phase there.
    The decoder is taken not to touch the timestamp it is handed. *)
Theorem demodulate2400_timestamp (mag : mag_buf) (s : dstate) :
  (forall x, timestamp (decodeModesMessage x).2 = timestamp x) ->
  exists s' new,
    demodulate2400' mag s = Some s'
    /\ used s' = used s ++ new
    /\ Forall (stamped mag) new.
Proof. exact (demodulate2400_stamps mag s). Qed.

(** ** Buffers and their end *)

(** C5, as the code has it.  Every message comes from a sample position
    below the sample count, so an empty buffer gives no message and no
    call of the slicer or of the scorer, and leaves the state in which
    the loop is entered, whatever the memory holds.  A buffer that is
    not empty is
    searched from its first sample whatever its length, and the pre-check,
    the noise level and the slicer then read the samples that follow its
    end, as far as they need them. *)
Theorem demodulate2400_positions (mag : mag_buf) (s : dstate) :
  exists s' new,
    demodulate2400' mag s = Some s'
    /\ used s' = used s ++ new
    /\ Forall (fun mm => exists off w,
                 accepted_at mag off w mm /\ 0 <= off < mag_length mag) new
    /\ (mag_length mag <= 0 ->
        s' = demod_entry cfg s
        /\ new = [] /\ calls s' = calls s /\ stats_current s' = stats_current s).
Proof.
  destruct (demodulate2400_total mag s) as [s' Hrun].
  destruct (demodulate2400_spec mag s s' Hrun) as (new & U & F).
  exists s', new. split; [exact Hrun|]. split; [exact U|]. split.
  - eapply Forall_impl; [exact F|]. simpl.
    intros mm (off & w & Ha). exists off, w. split; [exact Ha|apply Ha].
  - intros Hlen.
    assert (E : s' = demod_entry cfg s).
    { revert Hrun. unfold demodulate2400, demodulate2400_from.
      destruct (Z.to_nat (mag_length mag)); simpl;
        (destruct (0 <? mag_length mag) eqn:Hlt; [apply Z.ltb_lt in Hlt; lia|]);
        simpl; intros Hrun; inversion Hrun; reflexivity. }
    split; [exact E|]. split.
    + destruct new as [|mm new]; [reflexivity|].
      apply Forall_cons in F. destruct F as [(off & w & Hoff & _) _]. lia.
    + rewrite E. unfold demod_entry.
      destruct (valid_df_short_bitset s =? 0); split; reflexivity.
Qed.

(** ** Byte boundaries *)

(** One unit of phase is a fifth of a sample, which is one tick of the
    12 MHz sample clock. *)
Definition phase_quantum : Z := 1.

(** The byte boundary that a timestamp stands for: the ticks after the
    start of the preamble at sample [off] and phase [phase], in
    microseconds (12 ticks), less the 8 microseconds of the preamble,
    in bytes (8 bits of 1 microsecond). *)
Definition implied_byte_boundary (diff off phase : Z) : Z :=
  ((diff - off * 5 - phase) / 12 - 8) / 8.

(** The reading of C8 for one accepted message: whatever the number [n]
    of bytes sliced for the winning candidate, the timestamp stands for
    the boundary after byte [n]. *)
Definition boundary_matches_sliced (mag : mag_buf) (off : Z) (w : dstate)
    (mm : modesMessage) : Prop :=
  forall n,
    frame_in_trace n (best_bytes w) (calls w) ->
    implied_byte_boundary (timestamp mm - mag_sampleTimestamp mag) off
      (bestphase w) = n.

(** What holds of an accepted message [mm]: the ticks between the start
    of the buffer and its timestamp, the byte boundary they stand for,
    and the number of bytes sliced for it. *)
Definition stamped_at_bit_56 (mag : mag_buf) (mm : modesMessage) : Prop :=
  exists off w,
    accepted_at mag off w mm
    /\ let diff := timestamp mm - mag_sampleTimestamp mag in
       (phase_quantum | diff)
       /\ diff = off * 5 + (8 + 56) * 12 + bestphase w
       /\ implied_byte_boundary diff off (bestphase w) = MODES_SHORT_MSG_BYTES
       /\ exists n,
            (n = MODES_SHORT_MSG_BYTES \/ n = MODES_LONG_MSG_BYTES)
            /\ frame_in_trace n (best_bytes w) (calls w)
            /\ (implied_byte_boundary diff off (bestphase w) = n
                <-> n = MODES_SHORT_MSG_BYTES).

(** C8, as the code has it.  For every accepted message the difference
    between its timestamp and the sample clock at the start of the
    buffer is [offset * 5 + (8 + 56) * 12 + phase] ticks, a whole number
    of phase quanta; the byte boundary it stands for is the end of byte
    7 (bit 56) whatever the length of the frame, while 7 or 14 bytes were
    sliced for it: the two agree for the 7-byte frames only. *)
Theorem accepted_byte_boundary (mag : mag_buf) (s : dstate) :
  (forall x, timestamp (decodeModesMessage x).2 = timestamp x) ->
  0 <= mag_sampleTimestamp mag ->
  mag_sampleTimestamp mag + mag_length mag * 5 + (8 + 56) * 12 + 8 < 2 ^ 64 ->
  exists s' new,
    demodulate2400' mag s = Some s'
    /\ used s' = used s ++ new
    /\ Forall (stamped_at_bit_56 mag) new.
Proof.
  intros Hkeep H0 Hmax.
  destruct (demodulate2400_stamps mag s Hkeep) as (s' & new & Hrun & U & F).
  exists s', new. repeat split; auto.
  eapply Forall_impl; [exact F|]. simpl.
  intros mm (off & w & Ha & Hph & _ & Hts).
  exists off, w. split; [exact Ha|]. cbv zeta.
  destruct Ha as (Hoff & _ & _ & Hpos & Hw & _).
  rewrite Hts by lia.
  replace (mag_sampleTimestamp mag + off * 5 + (8 + 56) * 12 + bestphase w
           - mag_sampleTimestamp mag)
    with (off * 5 + (8 + 56) * 12 + bestphase w) by lia.
  assert (Himp : implied_byte_boundary (off * 5 + (8 + 56) * 12 + bestphase w)
                   off (bestphase w) = 7).
  { unfold implied_byte_boundary.
    replace (off * 5 + (8 + 56) * 12 + bestphase w - off * 5 - bestphase w)
      with 768 by lia. reflexivity. }
  split; [exists (off * 5 + (8 + 56) * 12 + bestphase w); unfold phase_quantum; lia|].
  split; [reflexivity|]. split; [exact Himp|].
  destruct (Hw Hpos) as (b & n & Hb & _ & Hn & Hfr & _).
  exists n. unfold MODES_SHORT_MSG_BYTES, MODES_LONG_MSG_BYTES.
  split; [exact Hn|]. split.
  - unfold best_bytes. rewrite Hb. exact Hfr.
  - rewrite Himp. split; intros; lia.
Qed.

End Demodulate.

(** ** A test signal

    The 112-bit frame [8D4B9696 99155600 E87406F5 B69F] (the DF17 frame
    that the comment of [net_connection_recv] quotes), sent with ideal
    pulses of height 5 whose preamble starts one sample after the first
    sample, sampled at 2.4 MHz; 20 quiet samples follow. *)
Definition demo_frame : list Z :=
  [0x8D; 0x4B; 0x96; 0x96; 0x99; 0x15; 0x56; 0x00; 0xE8; 0x74; 0x06; 0xF5;
   0xB6; 0x9F].

Definition demo_samples : list Z :=
  [0; 5; 1; 3; 3; 0; 0; 0; 0; 3; 3; 1; 5; 0; 0; 0; 0; 0; 0; 0; 4; 2; 0;
   1; 5; 0; 4; 2; 2; 5; 5; 0; 4; 2; 0; 1; 5; 5; 1; 0; 2; 5; 5; 0; 0; 3;
   3; 1; 5; 5; 1; 0; 2; 5; 5; 0; 4; 2; 2; 4; 0; 0; 4; 2; 2; 5; 5; 0; 0;
   3; 5; 4; 0; 5; 1; 0; 2; 5; 5; 0; 0; 3; 3; 1; 5; 5; 1; 0; 2; 5; 5; 0;
   4; 2; 0; 1; 5; 5; 1; 0; 2; 4; 0; 5; 5; 2; 2; 4; 0; 0; 4; 2; 2; 5; 5;
   0; 0; 3; 3; 1; 5; 0; 4; 5; 3; 0; 0; 5; 5; 2; 0; 1; 5; 5; 1; 0; 2; 5;
   5; 0; 0; 3; 5; 4; 0; 0; 4; 5; 3; 1; 5; 0; 0; 3; 3; 1; 5; 0; 4; 2; 2;
   4; 0; 5; 1; 3; 3; 1; 5; 0; 4; 2; 2; 5; 5; 0; 4; 2; 2; 4; 0; 0; 4; 5;
   3; 0; 0; 5; 1; 3; 3; 1; 5; 0; 4; 5; 3; 1; 5; 0; 4; 2; 0; 1; 5; 5; 1;
   0; 2; 4; 0; 5; 1; 3; 3; 1; 5; 0; 4; 2; 2; 4; 0; 5; 5; 2; 2; 4; 0; 0;
   4; 5; 3; 1; 5; 0; 4; 2; 2; 4; 0; 0; 4; 5; 3; 0; 0; 5; 5; 2; 2; 4; 0;
   0; 4; 5; 3; 1; 5; 0; 0; 3; 5; 4; 0; 5; 1; 0; 2; 5; 5; 0; 0; 3; 3; 1;
   5; 5; 1; 3; 3; 1; 5; 0; 4; 2; 2; 4; 0; 0; 0; 0; 0; 0; 0; 0; 0; 0; 0;
   0].

(** A scorer in the place of the CRC check: the frame that was sent, as
    a long frame, scores 1000, anything else is a bad CRC. *)
Definition demo_score (bytes : list Z) (validbits : Z) : Z :=
  if bool_decide (take 14 bytes = demo_frame) && (validbits =? 112)
  then 1000 else -2.

(** A decoder that accepts what it is given and leaves it as it is. *)
Definition demo_decode (mm : modesMessage) : Z * modesMessage := (0, mm).

Definition demo_clock (t0 t1 : Z) : Z := 0.

Definition demo_cfg : config := cfg_of false false.

(** The statics and counters at program start. *)
Definition demo_state : dstate :=
  {| valid_df_short_bitset := 0; valid_df_long_bitset := 0;
     stats_current :=
       {| demod_preambles := 0; demod_rejected_bad := 0;
          demod_rejected_unknown_icao := 0; demod_accepted := [0; 0; 0];
          demod_preamblePhase := [0; 0; 0; 0; 0];
          demod_bestPhase := [0; 0; 0; 0; 0] |};
     msg1 := repeat 0 14%nat; msg2 := repeat 0 14%nat; msg := Msg1;
     bestmsg := None; bestscore := 0; bestphase := 0;
     calls := []; used := [] |}.

(** The whole signal as one buffer; the same memory handed over as a
    buffer of one sample; and one quiet sample with nothing behind it. *)
Definition demo_mag : mag_buf :=
  {| mag_data := demo_samples; mag_length := 300;
     mag_sampleTimestamp := 1000000; mag_sysTimestamp := 0 |}.

Definition demo_short : mag_buf :=
  {| mag_data := demo_samples; mag_length := 1;
     mag_sampleTimestamp := 1000000; mag_sysTimestamp := 0 |}.

Definition demo_silent : mag_buf :=
  {| mag_data := [0]; mag_length := 1;
     mag_sampleTimestamp := 1000000; mag_sysTimestamp := 0 |}.

Definition demo_empty : mag_buf :=
  {| mag_data := demo_samples; mag_length := 0;
     mag_sampleTimestamp := 1000000; mag_sysTimestamp := 0 |}.

Definition demo_run (mag : mag_buf) : option dstate :=
  demodulate2400 demo_score demo_decode demo_clock demo_cfg mag demo_state.

(** The message that the signal carries, as the demodulator reports it. *)
Definition demo_mm : modesMessage :=
  {| mm_msg := demo_frame; timestamp := 1000772; sysTimestamp := 0;
     score := 1000; correctedbits := 0 |}.

(** The state in which [demodulate2400] enters its loop, and the state
    after the phases tried at the first sample. *)
Definition demo_entry : dstate := demod_entry demo_cfg demo_state.

Definition demo_winner : dstate :=
  try_phases demo_score demo_cfg demo_samples 0 demo_entry.

Example demo_run_mag : option_map used (demo_run demo_mag) = Some [demo_mm].
Proof. vm_compute. reflexivity. Qed.

Example demo_winner_phase :
  bestphase demo_winner = 4 /\ bestscore demo_winner = 1000
  /\ best_bytes demo_winner = demo_frame.
Proof. vm_compute. auto. Qed.

Lemma demo_accepted :
  accepted_at demo_score demo_decode demo_clock demo_cfg demo_mag 0
    demo_winner demo_mm.
Proof.
  unfold accepted_at. split; [vm_compute; split; congruence|].
  split; [vm_compute; reflexivity|].
  split; [exists demo_entry; reflexivity|].
  split; [vm_compute; congruence|].
  split; [apply try_phases_winner|].
  split; [vm_compute; congruence|].
  vm_compute. reflexivity.
Qed.

Lemma demo_winner_sliced :
  frame_in_trace 14 (best_bytes demo_winner) (calls demo_winner).
Proof.
  exists [], (take 14 (calls demo_winner)), (drop 15 (calls demo_winner)).
  split; [vm_compute; reflexivity|].
  split; [vm_compute; reflexivity|].
  vm_compute. repeat constructor.
Qed.

Lemma score_phase_df_gate_witness :
  scored_frame 14 demo_entry
    (score_phase demo_score demo_samples 4 0 demo_entry).
Proof.
  pose proof (score_phase_df_gate demo_score demo_cfg demo_samples 4 0
                demo_entry eq_refl eq_refl eq_refl) as H.
  cbv zeta in H.
  destruct H as (_ & _ & _ & Hlong & _).
  apply Hlong. vm_compute. tauto.
Defined.

Lemma demodulate2400_timestamp_witness :
  exists s' new,
    demo_run demo_mag = Some s'
    /\ used s' = used demo_state ++ new
    /\ Forall (stamped demo_score demo_decode demo_clock demo_cfg demo_mag) new.
Proof.
  exact (demodulate2400_timestamp demo_score demo_decode demo_clock demo_cfg
           demo_mag demo_state (fun x => eq_refl)).
Defined.

Lemma demodulate2400_positions_witness :
  exists s',
    demo_run demo_empty = Some s'
    /\ s' = demo_entry
    /\ used s' = used demo_state /\ calls s' = calls demo_state.
Proof.
  destruct (demodulate2400_positions demo_score demo_decode demo_clock
              demo_cfg demo_empty demo_state) as (s' & new & Hrun & U & _ & H0).
  destruct H0 as (E & Hn & Hc & _); [simpl; lia|].
  exists s'. rewrite Hn, app_nil_r in U. auto.
Defined.

(** C5 as the specification has it fails: a buffer of one sample, far
    shorter than the 19 samples of a preamble, gives a message when the
    memory behind it holds a frame, and gives none when that memory is
    quiet, so the samples past the end of the buffer are read. *)
Lemma short_buffer_counterexample :
  mag_length demo_short = 1
  /\ option_map used (demo_run demo_short) = Some [demo_mm]
  /\ mag_at (mag_data demo_short) 0 = mag_at (mag_data demo_silent) 0
  /\ mag_length demo_silent = mag_length demo_short
  /\ option_map used (demo_run demo_silent) = Some [].
Proof. vm_compute. auto. Qed.

Lemma accepted_byte_boundary_witness :
  exists s' new,
    demo_run demo_mag = Some s' /\ used s' = used demo_state ++ new
    /\ Forall (stamped_at_bit_56 demo_score demo_decode demo_clock demo_cfg
                 demo_mag) new.
Proof.
  apply (accepted_byte_boundary demo_score demo_decode demo_clock demo_cfg
           demo_mag demo_state (fun x => eq_refl)).
  - vm_compute. congruence.
  - vm_compute. reflexivity.
Defined.

(** C8 as the specification has it fails: for the 14-byte frame of the
    test signal 14 bytes are sliced, and its timestamp stands for the
    boundary after byte 7. *)
Lemma byte_boundary_counterexample :
  option_map used (demo_run demo_mag) = Some [demo_mm]
  /\ accepted_at demo_score demo_decode demo_clock demo_cfg demo_mag 0
       demo_winner demo_mm
  /\ ~ boundary_matches_sliced demo_mag 0 demo_winner demo_mm.
Proof.
  split; [exact demo_run_mag|]. split; [exact demo_accepted|].
  intros H. specialize (H 14 demo_winner_sliced). vm_compute in H.
  discriminate.
Qed.

(** * Further properties of the demodulator *)

(** ** The correlation functions and the gain of the signal *)

Lemma mag_at_scaled (k : Z) (m : list Z) (i : Z) :
  mag_at (map (Z.mul k) m) i = k * mag_at m i.
Proof.
  unfold mag_at. rewrite <- (map_nth (Z.mul k)).
  now rewrite Z.mul_0_r.
Qed.

Lemma mag_at_shifted (d : Z) (m : list Z) (i : Z) :
  0 <= i < Z.of_nat (length m) ->
  mag_at (map (Z.add d) m) i = d + mag_at m i.
Proof.
  intros Hi. unfold mag_at. rewrite <- (map_nth (Z.add d)).
  apply nth_indep. rewrite length_map. lia.
Qed.

(** X1. The comment above the correlation functions says that they sum
    to zero, so that a constant added to all samples does not change the
    result, and later that one of them no longer is balanced.  For
    samples inside the array: [slice_phase0], [slice_phase1],
    [slice_phase3] and [slice_phase4] do not change when [d] is added to
    every sample, and [slice_phase2] changes by exactly [d]. *)
Theorem slice_phase_dc_offset (m : list Z) (p d : Z) :
  0 <= p -> p + 3 < Z.of_nat (length m) ->
  let m' := map (Z.add d) m in
  slice_phase0 m' p = slice_phase0 m p
  /\ slice_phase1 m' p = slice_phase1 m p
  /\ slice_phase2 m' p = slice_phase2 m p + d
  /\ slice_phase3 m' p = slice_phase3 m p
  /\ slice_phase4 m' p = slice_phase4 m p.
Proof.
  intros Hp Hlen m'. unfold m'.
  unfold slice_phase0, slice_phase1, slice_phase2, slice_phase3, slice_phase4.
  rewrite !mag_at_shifted by lia.
  repeat split; lia.
Qed.

Lemma slice_phase_dc_offset_witness :
  slice_phase2 (map (Z.add 100) [5; 1; 0; 2]) 0
  = slice_phase2 [5; 1; 0; 2] 0 + 100.
Proof.
  apply (slice_phase_dc_offset [5; 1; 0; 2] 0 100); simpl; lia.
Defined.

Lemma slice_bit_scaled (k c mask : Z) :
  0 < k -> slice_bit (k * c) mask = slice_bit c mask.
Proof.
  intros Hk. unfold slice_bit.
  destruct (Z.ltb_spec 0 c); destruct (Z.ltb_spec 0 (k * c)); try reflexivity; nia.
Qed.

Lemma slice_phases_scaled (k : Z) (m : list Z) (p : Z) :
  slice_phase0 (map (Z.mul k) m) p = k * slice_phase0 m p
  /\ slice_phase1 (map (Z.mul k) m) p = k * slice_phase1 m p
  /\ slice_phase2 (map (Z.mul k) m) p = k * slice_phase2 m p
  /\ slice_phase3 (map (Z.mul k) m) p = k * slice_phase3 m p
  /\ slice_phase4 (map (Z.mul k) m) p = k * slice_phase4 m p.
Proof.
  unfold slice_phase0, slice_phase1, slice_phase2, slice_phase3, slice_phase4.
  rewrite !mag_at_scaled. repeat split; lia.
Qed.

Lemma slice_byte_scaled (k : Z) (m : list Z) (pPtr phase : Z) :
  0 < k -> slice_byte (map (Z.mul k) m) pPtr phase = slice_byte m pPtr phase.
Proof.
  intros Hk.
  assert (H0 : forall p mask,
    slice_bit (slice_phase0 (map (Z.mul k) m) p) mask
    = slice_bit (slice_phase0 m p) mask).
  { intros p mask. destruct (slice_phases_scaled k m p) as (-> & _).
    now apply slice_bit_scaled. }
  assert (H1 : forall p mask,
    slice_bit (slice_phase1 (map (Z.mul k) m) p) mask
    = slice_bit (slice_phase1 m p) mask).
  { intros p mask. destruct (slice_phases_scaled k m p) as (_ & -> & _).
    now apply slice_bit_scaled. }
  assert (H2 : forall p mask,
    slice_bit (slice_phase2 (map (Z.mul k) m) p) mask
    = slice_bit (slice_phase2 m p) mask).
  { intros p mask. destruct (slice_phases_scaled k m p) as (_ & _ & -> & _).
    now apply slice_bit_scaled. }
  assert (H3 : forall p mask,
    slice_bit (slice_phase3 (map (Z.mul k) m) p) mask
    = slice_bit (slice_phase3 m p) mask).
  { intros p mask. destruct (slice_phases_scaled k m p) as (_ & _ & _ & -> & _).
    now apply slice_bit_scaled. }
  assert (H4 : forall p mask,
    slice_bit (slice_phase4 (map (Z.mul k) m) p) mask
    = slice_bit (slice_phase4 m p) mask).
  { intros p mask. destruct (slice_phases_scaled k m p) as (_ & _ & _ & _ & ->).
    now apply slice_bit_scaled. }
  unfold slice_byte.
  destruct phase as [|ph|ph]; [| |reflexivity].
  - rewrite !H0, !H1, !H2, !H3, !H4. reflexivity.
  - do 3 (try destruct ph as [ph|ph|]); try reflexivity;
      rewrite !H0, !H1, !H2, !H3, !H4; reflexivity.
Qed.

Lemma slice_rest_scaled (k : Z) (m : list Z) (n : nat) :
  0 < k ->
  forall i pPtr phase s,
    slice_rest (map (Z.mul k) m) n i pPtr phase s = slice_rest m n i pPtr phase s.
Proof.
  intros Hk. induction n as [|n IH]; intros i pPtr phase s; simpl.
  - reflexivity.
  - rewrite slice_byte_scaled by exact Hk.
    destruct (slice_byte m pPtr phase) as [[b pPtr'] phase']. apply IH.
Qed.

(** X2. The slicer looks at the sign of the correlations only: when
    every sample is multiplied by the same gain [k > 0], [slice_byte]
    returns the same byte, and [score_phase] slices and scores the same
    frame and leaves the same state. *)
Theorem slice_byte_gain (scoreModesMessage : list Z -> Z -> Z) (k : Z)
    (m : list Z) :
  0 < k ->
  (forall pPtr phase,
     slice_byte (map (Z.mul k) m) pPtr phase = slice_byte m pPtr phase)
  /\ (forall try_phase pa s,
        score_phase scoreModesMessage (map (Z.mul k) m) try_phase pa s
        = score_phase scoreModesMessage m try_phase pa s).
Proof.
  intros Hk. split.
  - intros pPtr phase. now apply slice_byte_scaled.
  - intros try_phase pa s. unfold score_phase, score_frame.
    rewrite slice_byte_scaled by exact Hk.
    destruct (slice_byte m _ _) as [[b0 pPtr'] phase'].
    rewrite !slice_rest_scaled by exact Hk. reflexivity.
Qed.

Lemma slice_byte_gain_witness :
  score_phase demo_score (map (Z.mul 3) demo_samples) 4 0 demo_entry
  = score_phase demo_score demo_samples 4 0 demo_entry.
Proof.
  apply (slice_byte_gain demo_score 3 demo_samples). lia.
Defined.

(** ** Field extraction *)

Lemma land_bit (x k : Z) :
  0 <= k -> Z.land x (Z.shiftl 1 k) = if Z.testbit x k then 2 ^ k else 0.
Proof.
  intros Hk. rewrite Z.shiftl_1_l. apply Z.bits_inj'. intros i Hi.
  rewrite Z.land_spec, Z.pow2_bits_eqb by lia.
  destruct (Z.eqb_spec k i) as [->|N].
  - destruct (Z.testbit x i) eqn:E; simpl.
    + now rewrite Z.pow2_bits_true.
    + now rewrite Z.bits_0.
  - rewrite andb_false_r. destruct (Z.testbit x k).
    + rewrite Z.pow2_bits_false by lia. reflexivity.
    + now rewrite Z.bits_0.
Qed.

Lemma land_7 (x : Z) : Z.land x 7 = x mod 8.
Proof. change 7 with (Z.ones 3). now rewrite Z.land_ones by lia. Qed.

Lemma shiftr_3 (x : Z) : Z.shiftr x 3 = x / 8.
Proof. now rewrite Z.shiftr_div_pow2 by lia. Qed.

Lemma getbit_testbit (data : list Z) (n : Z) :
  1 <= n <= 2 ^ 32 ->
  getbit data n
  = Z.b2z (Z.testbit (byte_at data ((n - 1) / 8)) (7 - (n - 1) mod 8)).
Proof.
  intros Hn. unfold getbit. rewrite wrap32_small by lia.
  rewrite shiftr_3, land_7.
  pose proof (Z.mod_pos_bound (n - 1) 8 ltac:(lia)) as Hm.
  rewrite land_bit by lia.
  destruct (Z.testbit _ _); simpl.
  - destruct (Z.eqb_spec (2 ^ (7 - (n - 1) mod 8)) 0) as [E|_]; [|reflexivity].
    pose proof (Z.pow_pos_nonneg 2 (7 - (n - 1) mod 8) ltac:(lia) ltac:(lia)). lia.
  - reflexivity.
Qed.

(** The chain of [if]s of [getbits], on the bytes [d 0], [d 1], ... that
    start at [fby]. *)
Definition getbits_of (d : Z -> Z) (nby shift a : Z) : Z :=
  let topmask := Z.shiftr 255 a in
  if nby =? 5 then
    wrap32 (Z.lor (Z.shiftl (Z.land (d 0) topmask) (32 - shift))
           (Z.lor (Z.shiftl (d 1) (24 - shift))
           (Z.lor (Z.shiftl (d 2) (16 - shift))
           (Z.lor (Z.shiftl (d 3) (8 - shift))
                  (Z.shiftr (d 4) shift)))))
  else if nby =? 4 then
    wrap32 (Z.lor (Z.shiftl (Z.land (d 0) topmask) (24 - shift))
           (Z.lor (Z.shiftl (d 1) (16 - shift))
           (Z.lor (Z.shiftl (d 2) (8 - shift))
                  (Z.shiftr (d 3) shift))))
  else if nby =? 3 then
    wrap32 (Z.lor (Z.shiftl (Z.land (d 0) topmask) (16 - shift))
           (Z.lor (Z.shiftl (d 1) (8 - shift))
                  (Z.shiftr (d 2) shift)))
  else if nby =? 2 then
    wrap32 (Z.lor (Z.shiftl (Z.land (d 0) topmask) (8 - shift))
                  (Z.shiftr (d 1) shift))
  else if nby =? 1 then
    Z.shiftr (Z.land (d 0) topmask) shift
  else 0.

Lemma getbits_getbits_of (data : list Z) (firstbit lastbit : Z) :
  getbits data firstbit lastbit
  = let fbi := wrap32 (firstbit - 1) in
    let lbi := wrap32 (lastbit - 1) in
    getbits_of (fun k => byte_at data (fbi / 8 + k))
      (wrap32 (lbi / 8 - fbi / 8 + 1)) (7 - lbi mod 8) (fbi mod 8).
Proof.
  unfold getbits, getbits_of. cbv zeta. rewrite !shiftr_3, !land_7. reflexivity.
Qed.

Lemma byte_bit_out (d i : Z) :
  0 <= d < 256 -> i < 0 \/ 8 <= i -> Z.testbit d i = false.
Proof.
  intros Hd [Hi|Hi].
  - now apply Z.testbit_neg_r.
  - destruct (Z.eq_dec d 0) as [->|N]; [apply Z.bits_0|].
    apply Z.bits_above_log2; [lia|].
    assert (Z.log2 d < 8) by (apply Z.log2_lt_pow2; lia). lia.
Qed.

Lemma testbit_255 (i : Z) : Z.testbit 255 i = (0 <=? i) && (i <? 8).
Proof.
  destruct (Z.leb_spec 0 i) as [Hi|Hi]; simpl.
  - change 255 with (Z.ones 8). apply Z.testbit_ones_nonneg; lia.
  - now apply Z.testbit_neg_r.
Qed.

Ltac drop_far d :=
  repeat match goal with
         | |- context [Z.testbit (d ?k) ?i] =>
             rewrite (byte_bit_out (d k) i) by (auto; lia)
         end.

Ltac bool_arith :=
  repeat match goal with
         | |- context [?x <? ?y] => destruct (Z.ltb_spec x y)
         | |- context [?x <=? ?y] => destruct (Z.leb_spec x y)
         end;
  simpl; rewrite ?andb_false_r, ?andb_true_r, ?orb_false_r;
  first [reflexivity | lia].

Ltac bit_case d r :=
  try match goal with
      | |- context [d (?n - 1 - ?q)] =>
          let v := eval vm_compute in (n - 1 - q) in
          replace (n - 1 - q) with v by reflexivity
      end;
  drop_far d;
  repeat match goal with
         | |- context [Z.testbit (d ?k) ?i] =>
             lazymatch i with
             | r => fail
             | _ => replace i with r by lia
             end
         end;
  rewrite ?Z.shiftr_spec, ?testbit_255 by lia;
  try match goal with
      | |- context [Z.testbit (d ?k) r] => destruct (Z.testbit (d k) r)
      end;
  bool_arith.

Lemma getbits_of_testbit (d : Z -> Z) (nby shift a j : Z) :
  (forall k, 0 <= d k < 256) ->
  1 <= nby <= 5 -> 0 <= shift <= 7 -> 0 <= a <= 7 ->
  1 <= 8 * nby - shift - a <= 32 -> 0 <= j ->
  Z.testbit (getbits_of d nby shift a) j
  = (j <? 8 * nby - shift - a)
    && Z.testbit (d (nby - 1 - (j + shift) / 8)) ((j + shift) mod 8).
Proof.
  intros Hd Hn Hs Ha Hnbi Hj.
  pose proof (Z.div_mod (j + shift) 8 ltac:(lia)) as Hqr.
  pose proof (Z.mod_pos_bound (j + shift) 8 ltac:(lia)) as Hr.
  set (q := (j + shift) / 8) in *. set (r := (j + shift) mod 8) in *.
  assert (Hq : 0 <= q) by (apply Z.div_pos; lia).
  clearbody q r.
  assert (Hcases : nby = 1 \/ nby = 2 \/ nby = 3 \/ nby = 4 \/ nby = 5) by lia.
  destruct (Z.ltb_spec j 32) as [Hlow|Hhigh].
  2: { (* at and above bit 32 *)
    assert (E : (j <? 8 * nby - shift - a) = false) by (apply Z.ltb_ge; lia).
    rewrite E. simpl.
    destruct Hcases as [-> | [-> | [-> | [-> | ->]]]]; unfold getbits_of; simpl;
      unfold wrap32; rewrite ?Z.mod_pow2_bits_high by lia; try reflexivity.
    rewrite Z.shiftr_spec, Z.land_spec, Z.shiftr_spec, testbit_255 by lia.
    rewrite (byte_bit_out (d 0)) by (auto; lia). reflexivity. }
  assert (Hw : forall x, Z.testbit (wrap32 x) j = Z.testbit x j).
  { intros x. unfold wrap32. apply Z.mod_pow2_bits_low. lia. }
  assert (Hqc : q = 0 \/ q = 1 \/ q = 2 \/ q = 3 \/ q = 4 \/ 5 <= q) by lia.
  destruct Hcases as [-> | [-> | [-> | [-> | ->]]]]; unfold getbits_of; simpl;
    rewrite ?Hw;
    rewrite ?Z.lor_spec, ?Z.shiftl_spec, ?Z.shiftr_spec, ?Z.land_spec by lia;
    destruct Hqc as [-> | [-> | [-> | [-> | [-> | Hq5]]]]];
    bit_case d r.
Qed.

Lemma byte_at_byte (data : list Z) (i : Z) :
  Forall (fun b => 0 <= b < 256) data -> 0 <= byte_at data i < 256.
Proof.
  intros F. unfold byte_at.
  destruct (lt_dec (Z.to_nat i) (length data)) as [Hlt|Hge].
  - rewrite List.Forall_forall in F. apply F. apply nth_In. exact Hlt.
  - rewrite nth_overflow by lia. lia.
Qed.

Lemma getbits_bit (data : list Z) (firstbit lastbit j : Z) :
  Forall (fun b => 0 <= b < 256) data ->
  1 <= firstbit <= lastbit -> lastbit - firstbit + 1 <= 32 ->
  lastbit <= 2 ^ 32 -> 0 <= j ->
  Z.testbit (getbits data firstbit lastbit) j
  = (j <? lastbit - firstbit + 1) && (getbit data (lastbit - j) =? 1).
Proof.
  intros F Hfl Hn Hmax Hj.
  rewrite getbits_getbits_of. cbv zeta.
  rewrite !(wrap32_small (_ - 1)) by lia.
  set (fbi := firstbit - 1). set (lbi := lastbit - 1).
  pose proof (Z.div_mod fbi 8 ltac:(lia)) as Hf.
  pose proof (Z.mod_pos_bound fbi 8 ltac:(lia)) as Hfm.
  pose proof (Z.div_mod lbi 8 ltac:(lia)) as Hl.
  pose proof (Z.mod_pos_bound lbi 8 ltac:(lia)) as Hlm.
  assert (Hby : 0 <= fbi / 8 <= lbi / 8).
  { split; [apply Z.div_pos; lia|apply Z.div_le_mono; lia]. }
  rewrite wrap32_small by lia.
  set (nby := lbi / 8 - fbi / 8 + 1) in *.
  assert (Hnbi : 8 * nby - (7 - lbi mod 8) - fbi mod 8 = lastbit - firstbit + 1)
    by lia.
  rewrite getbits_of_testbit; try lia.
  2: { intros k. now apply byte_at_byte. }
  rewrite Hnbi.
  destruct (Z.ltb_spec j (lastbit - firstbit + 1)) as [Hin|Hout];
    [|reflexivity].
  cbn [andb].
  rewrite getbit_testbit by lia.
  replace (lastbit - j - 1) with (lbi - j) by lia.
  assert (Hq : (lbi - j) / 8 = fbi / 8 + (nby - 1 - (j + (7 - lbi mod 8)) / 8)
               /\ 7 - (lbi - j) mod 8 = (j + (7 - lbi mod 8)) mod 8).
  { pose proof (Z.div_mod (lbi - j) 8 ltac:(lia)).
    pose proof (Z.mod_pos_bound (lbi - j) 8 ltac:(lia)).
    pose proof (Z.div_mod (j + (7 - lbi mod 8)) 8 ltac:(lia)).
    pose proof (Z.mod_pos_bound (j + (7 - lbi mod 8)) 8 ltac:(lia)).
    lia. }
  destruct Hq as [-> ->].
  destruct (Z.testbit _ _); reflexivity.
Qed.

Lemma getbits_range (data : list Z) (firstbit lastbit : Z) :
  Forall (fun b => 0 <= b < 256) data ->
  1 <= firstbit <= lastbit -> lastbit - firstbit + 1 <= 32 ->
  lastbit <= 2 ^ 32 ->
  0 <= getbits data firstbit lastbit < 2 ^ (lastbit - firstbit + 1).
Proof.
  intros F Hfl Hn Hmax.
  set (n := lastbit - firstbit + 1) in *.
  assert (E : getbits data firstbit lastbit
              = getbits data firstbit lastbit mod 2 ^ n).
  { apply Z.bits_inj'. intros i Hi.
    destruct (Z.ltb_spec i n) as [Hlt|Hge].
    - now rewrite Z.mod_pow2_bits_low by lia.
    - rewrite Z.mod_pow2_bits_high by lia.
      rewrite getbits_bit by (auto; lia). fold n.
      destruct (Z.ltb_spec i n); [lia|reflexivity]. }
  rewrite E. apply Z.mod_pos_bound. apply Z.pow_pos_nonneg; lia.
Qed.

(** X3. [getbits] returns the bits [firstbit] .. [lastbit] of the
    message as an unsigned number whose most significant bit is the first
    one: the result is below [2 ^ n] for a field of [n] bits, bit [j] of
    the result is the message bit [lastbit - j] as [getbit] extracts it,
    and a field of one bit is [getbit].  The bounds are those of the
    [assert]s of the function (a field of at most 32 bits). *)
Theorem getbits_field (data : list Z) (firstbit lastbit : Z) :
  Forall (fun b => 0 <= b < 256) data ->
  1 <= firstbit <= lastbit -> lastbit - firstbit + 1 <= 32 ->
  lastbit <= 2 ^ 32 ->
  let n := lastbit - firstbit + 1 in
  0 <= getbits data firstbit lastbit < 2 ^ n
  /\ (forall j, 0 <= j < n ->
        Z.testbit (getbits data firstbit lastbit) j
        = (getbit data (lastbit - j) =? 1))
  /\ (firstbit = lastbit -> getbits data firstbit lastbit = getbit data lastbit).
Proof.
  intros F Hfl Hn Hmax n. split; [now apply getbits_range|]. split.
  - intros j Hj. rewrite getbits_bit by (auto; lia). fold n.
    destruct (Z.ltb_spec j n); [reflexivity|lia].
  - intros E. subst firstbit. apply Z.bits_inj'. intros i Hi.
    rewrite getbits_bit by (auto; lia).
    replace (lastbit - lastbit + 1) with 1 by lia.
    rewrite (getbit_testbit data lastbit) by lia.
    destruct (Z.ltb_spec i 1) as [H0|H1].
    + assert (i = 0) by lia. subst i. rewrite Z.sub_0_r, Z.b2z_bit0.
      rewrite getbit_testbit by lia.
      destruct (Z.testbit _ _); reflexivity.
    + cbn [andb]. destruct (Z.testbit (byte_at _ _) _); cbn [Z.b2z].
      * change 1 with (2 ^ 0). rewrite Z.pow2_bits_false by lia. reflexivity.
      * now rewrite Z.bits_0.
Qed.

Lemma demo_frame_bytes : Forall (fun b => 0 <= b < 256) demo_frame.
Proof. unfold demo_frame. repeat (apply List.Forall_cons; [lia|]). apply List.Forall_nil. Qed.

Lemma getbits_field_witness :
  0 <= getbits demo_frame 9 32 < 2 ^ (32 - 9 + 1)
  /\ (forall j, 0 <= j < 32 - 9 + 1 ->
        Z.testbit (getbits demo_frame 9 32) j = (getbit demo_frame (32 - j) =? 1))
  /\ (9 = 32 -> getbits demo_frame 9 32 = getbit demo_frame 32).
Proof.
  apply (getbits_field demo_frame 9 32); [exact demo_frame_bytes|lia|lia|lia].
Defined.

(** ** The length of a frame, by its downlink format *)

Lemma getbits_df (bytes : list Z) :
  0 <= byte_at bytes 0 < 256 ->
  getbits bytes 1 5 = Z.shiftr (byte_at bytes 0) 3.
Proof.
  intros Hb. rewrite getbits_getbits_of. cbv zeta.
  change (wrap32 (1 - 1)) with 0. change (wrap32 (5 - 1)) with 4.
  change (wrap32 (4 / 8 - 0 / 8 + 1)) with 1.
  change (7 - 4 mod 8) with 3. change (0 mod 8) with 0. change (0 / 8 + 0) with 0.
  unfold getbits_of. cbn [Z.eqb Pos.eqb]. change (0 / 8 + 0) with 0.
  f_equal. change (Z.shiftr 255 0) with (Z.ones 8).
  rewrite Z.land_ones by lia. apply Z.mod_small. lia.
Qed.

Definition lengths_agree (df24 repair : bool) : bool :=
  let bs := init_bitsets (cfg_of df24 repair) in
  forallb (fun df =>
             implb (df_in bs.1 df)
                   (modesMessageLenByType df =? MODES_SHORT_MSG_BITS)
             && implb (df_in bs.2 df)
                      ((modesMessageLenByType df =? MODES_LONG_MSG_BITS)
                       || (repair && (df =? 1))))
          dfs_0_31.

(** X4. The DF that [demodulate2400] takes from the best candidate with
    [getbits (bestmsg, 1, 5)] is the DF that [score_phase] looked at, the
    top five bits of the first byte.  For a DF of the short bitset
    [modesMessageLenByType] gives 56 bits, and for a DF of the long
    bitset it gives 112 bits, with one exception: with DF repair enabled
    the long bitset holds DF 1 (one bit flip away from 17), for which 14
    bytes are sliced while [modesMessageLenByType] gives 56 bits. *)
Theorem frame_length_by_df (cfg : config) (bytes : list Z) :
  0 <= byte_at bytes 0 < 256 ->
  let df := getbits bytes 1 5 in
  let bs := init_bitsets cfg in
  df = Z.shiftr (byte_at bytes 0) 3 /\ 0 <= df < 32
  /\ (df_in bs.1 df = true -> modesMessageLenByType df = MODES_SHORT_MSG_BITS)
  /\ (df_in bs.2 df = true ->
      modesMessageLenByType df = MODES_LONG_MSG_BITS
      \/ (repair_enabled cfg = true /\ df = 1))
  /\ (repair_enabled cfg = true ->
      df_in bs.2 1 = true /\ modesMessageLenByType 1 = MODES_SHORT_MSG_BITS).
Proof.
  intros Hb df bs.
  assert (Edf : df = Z.shiftr (byte_at bytes 0) 3) by (now apply getbits_df).
  assert (Hdf : 0 <= df < 32).
  { rewrite Edf, Z.shiftr_div_pow2 by lia. change (2 ^ 3) with 8.
    split; [apply Z.div_pos; lia | apply Z.div_lt_upper_bound; lia]. }
  split; [exact Edf|]. split; [exact Hdf|].
  unfold bs. destruct (init_bitsets_cfg_of cfg) as [-> _].
  assert (H : lengths_agree (ENABLE_DF24 cfg) (repair_enabled cfg) = true)
    by (destruct (ENABLE_DF24 cfg), (repair_enabled cfg); vm_compute; reflexivity).
  unfold lengths_agree in H. rewrite forallb_forall in H.
  specialize (H df (in_dfs_0_31 df Hdf)).
  apply andb_prop in H. destruct H as [H1 H2].
  split; [|split].
  - intros Hin. rewrite Hin in H1. now apply Z.eqb_eq in H1.
  - intros Hin. rewrite Hin in H2. cbn [implb] in H2.
    apply orb_prop in H2. destruct H2 as [H2|H2].
    + left. now apply Z.eqb_eq.
    + right. apply andb_prop in H2. destruct H2 as [Hr H1'].
      split; [exact Hr|now apply Z.eqb_eq].
  - intros Hr. rewrite Hr.
    destruct (ENABLE_DF24 cfg); vm_compute; auto.
Qed.

Lemma frame_length_by_df_witness :
  getbits demo_frame 1 5 = Z.shiftr (byte_at demo_frame 0) 3
  /\ modesMessageLenByType (getbits demo_frame 1 5) = MODES_LONG_MSG_BITS.
Proof.
  destruct (frame_length_by_df demo_cfg demo_frame) as (E & _ & _ & Hl & _).
  - vm_compute. split; congruence.
  - split; [exact E|]. destruct Hl as [Hl|[Hr _]].
    + vm_compute. reflexivity.
    + exact Hl.
    + vm_compute in Hr. discriminate.
Defined.

(** ** The damage sets *)

(** The number of the five DF bits in which [a] and [b] differ. *)
Definition flips (a b : Z) : nat :=
  length (List.filter (fun i => xorb (Z.testbit a i) (Z.testbit b i))
            [0; 1; 2; 3; 4]).

(** The DF that the loop of [generate_damage_set] makes of [df] for
    [bit]: [df ^ (1 << bit)], passed on as a [uint8_t]. *)
Definition damaged_df (df bit : Z) : Z := Z.lxor df (Z.shiftl 1 bit) mod 2 ^ 8.

Lemma df_in_lor (a b x : Z) : df_in (Z.lor a b) x = df_in a x || df_in b x.
Proof.
  unfold df_in. rewrite Z.land_lor_distr_l.
  destruct (Z.eqb_spec (Z.land a (bit32 x)) 0) as [Ea|Na];
    destruct (Z.eqb_spec (Z.land b (bit32 x)) 0) as [Eb|Nb]; cbn [negb orb].
  - rewrite Ea, Eb. reflexivity.
  - destruct (Z.eqb_spec (Z.lor (Z.land a (bit32 x)) (Z.land b (bit32 x))) 0)
      as [E|_]; [|reflexivity].
    apply Z.lor_eq_0_iff in E. tauto.
  - destruct (Z.eqb_spec (Z.lor (Z.land a (bit32 x)) (Z.land b (bit32 x))) 0)
      as [E|_]; [|reflexivity].
    apply Z.lor_eq_0_iff in E. tauto.
  - destruct (Z.eqb_spec (Z.lor (Z.land a (bit32 x)) (Z.land b (bit32 x))) 0)
      as [E|_]; [|reflexivity].
    apply Z.lor_eq_0_iff in E. tauto.
Qed.

Definition damage_facts : bool :=
  forallb (fun df =>
    forallb (fun b => (0 <=? damaged_df df b) && (damaged_df df b <? 32))
            [0; 1; 2; 3; 4]
    && forallb (fun x =>
         Bool.eqb (df_in (bit32 df) x) (df =? x)
         && forallb (fun n =>
              Bool.eqb (flips df x <=? S n)%nat
                ((df =? x)
                 || existsb (fun b => (flips (damaged_df df b) x <=? n)%nat)
                      [0; 1; 2; 3; 4]))
              (seq 0 5))
         dfs_0_31)
    dfs_0_31.

Lemma damage_facts_hold (df x : Z) :
  0 <= df < 32 -> 0 <= x < 32 ->
  (forall b, In b [0; 1; 2; 3; 4] -> 0 <= damaged_df df b < 32)
  /\ df_in (bit32 df) x = (df =? x)
  /\ (forall n, (n < 5)%nat ->
        (flips df x <=? S n)%nat
        = ((df =? x)
           || existsb (fun b => (flips (damaged_df df b) x <=? n)%nat)
                [0; 1; 2; 3; 4])).
Proof.
  intros Hdf Hx.
  assert (H : damage_facts = true) by (vm_compute; reflexivity).
  unfold damage_facts in H. rewrite forallb_forall in H.
  specialize (H df (in_dfs_0_31 df Hdf)).
  apply andb_prop in H. destruct H as [Hr Hx'].
  rewrite forallb_forall in Hr, Hx'.
  specialize (Hx' x (in_dfs_0_31 x Hx)).
  apply andb_prop in Hx'. destruct Hx' as [Hbit Hn].
  rewrite forallb_forall in Hn.
  split; [|split].
  - intros b Hb. specialize (Hr b Hb). apply andb_prop in Hr. lia.
  - now apply Bool.eqb_prop.
  - intros n Hlt. apply Bool.eqb_prop. apply Hn. apply in_seq. lia.
Qed.

Lemma flips_le_5 (a b : Z) : (flips a b <= 5)%nat.
Proof. unfold flips. apply (filter_length_le _ [0; 1; 2; 3; 4]). Qed.

(** X5. [generate_damage_set (df, n)] is the set of the 5-bit values
    that differ from [df] in at most [n] bits: a DF [x] is in it exactly
    when at most [n] of the five bits of [df] have to be flipped to make
    [x]. *)
Theorem generate_damage_set_ball (n : nat) :
  forall df x,
    0 <= df < 32 -> 0 <= x < 32 ->
    df_in (generate_damage_set df n) x = (flips df x <=? n)%nat.
Proof.
  induction n as [|n IH]; intros df x Hdf Hx.
  - destruct (damage_facts_hold df x Hdf Hx) as (_ & Hbit & _).
    cbn [generate_damage_set]. rewrite Hbit.
    destruct (Z.eqb_spec df x) as [->|N].
    + symmetry. apply Nat.leb_le. unfold flips. simpl.
      rewrite !xorb_nilpotent. simpl. lia.
    + symmetry. apply Nat.leb_gt.
      destruct (damage_facts_hold df x Hdf Hx) as (_ & _ & H0).
      specialize (H0 0%nat ltac:(lia)).
      destruct (Z.eqb_spec df x); [contradiction|]. cbn [orb] in H0.
      destruct (flips df x) as [|k] eqn:Hk; [|lia].
      exfalso. apply N. apply Z.bits_inj'. intros i Hi.
      destruct (Z_lt_dec i 5) as [Hlt|Hge].
      * unfold flips in Hk. apply length_zero_iff_nil in Hk.
        assert (Hin : In i [0; 1; 2; 3; 4]) by (simpl; lia).
        destruct (xorb (Z.testbit df i) (Z.testbit x i)) eqn:Hxor.
        -- assert (Hf : In i (List.filter
                     (fun i => xorb (Z.testbit df i) (Z.testbit x i))
                     [0; 1; 2; 3; 4])) by (apply filter_In; auto).
           rewrite Hk in Hf. destruct Hf.
        -- now apply xorb_eq.
      * rewrite !Z.bits_above_log2; try reflexivity; try lia.
        -- destruct (Z.eq_dec x 0) as [->|Nx]; [simpl; lia|].
           assert (Z.log2 x < 5) by (apply Z.log2_lt_pow2; lia). lia.
        -- destruct (Z.eq_dec df 0) as [->|Nd]; [simpl; lia|].
           assert (Z.log2 df < 5) by (apply Z.log2_lt_pow2; lia). lia.
  - destruct (damage_facts_hold df x Hdf Hx) as (Hr & Hbit & Hstep).
    cbn [generate_damage_set]. unfold damage_loop. cbn [fold_left].
    fold (damaged_df df 0). fold (damaged_df df 1). fold (damaged_df df 2).
    fold (damaged_df df 3). fold (damaged_df df 4).
    rewrite !df_in_lor, Hbit.
    rewrite !IH by (auto; apply Hr; simpl; lia).
    destruct (le_lt_dec 5 n) as [Hbig|Hsmall].
    + pose proof (flips_le_5 df x). pose proof (flips_le_5 (damaged_df df 4) x).
      rewrite (proj2 (Nat.leb_le (flips df x) (S n))) by lia.
      rewrite (proj2 (Nat.leb_le (flips (damaged_df df 4) x) n)) by lia.
      now rewrite orb_true_r.
    + rewrite (Hstep n Hsmall). cbn [existsb].
      destruct (df =? x), (flips (damaged_df df 0) x <=? n)%nat,
        (flips (damaged_df df 1) x <=? n)%nat,
        (flips (damaged_df df 2) x <=? n)%nat,
        (flips (damaged_df df 3) x <=? n)%nat,
        (flips (damaged_df df 4) x <=? n)%nat; reflexivity.
Qed.

Lemma generate_damage_set_ball_witness :
  df_in (generate_damage_set 17 1) 25 = (flips 17 25 <=? 1)%nat.
Proof. apply (generate_damage_set_ball 1 17 25); lia. Defined.

(** ** Where the bytes of a candidate are sliced *)

(** One byte is 8 bits of 12 ticks of the 12 MHz clock, and a sample is
    5 ticks: in ticks, [5 * pPtr + phase] goes up by 96 with each byte. *)
Lemma slice_byte_ticks (m : list Z) (pPtr phase : Z) :
  0 <= phase <= 4 ->
  let '(_, pPtr', phase') := slice_byte m pPtr phase in
  5 * pPtr' + phase' = 5 * pPtr + phase + 96 /\ 0 <= phase' <= 4.
Proof.
  intros Hp.
  assert (Hc : phase = 0 \/ phase = 1 \/ phase = 2 \/ phase = 3 \/ phase = 4)
    by lia.
  destruct Hc as [-> | [-> | [-> | [-> | ->]]]]; simpl; lia.
Qed.

(** The call of the slicer for a byte that starts at tick [t]. *)
Definition slice_at (t : Z) : call := CallSlice (t / 5) (t mod 5).

Lemma slice_at_here (pPtr phase : Z) :
  0 <= phase <= 4 -> slice_at (5 * pPtr + phase) = CallSlice pPtr phase.
Proof.
  intros Hp. unfold slice_at. f_equal.
  - symmetry. apply (Z.div_unique _ 5 pPtr phase); lia.
  - symmetry. apply (Z.mod_unique _ 5 pPtr phase); lia.
Qed.

Lemma slice_rest_calls (m : list Z) (n : nat) :
  forall i pPtr phase s,
    0 <= phase <= 4 ->
    calls (slice_rest m n i pPtr phase s)
    = calls s
      ++ map (fun k => slice_at (5 * pPtr + phase + 96 * Z.of_nat k)) (seq 0 n).
Proof.
  induction n as [|n IH]; intros i pPtr phase s Hp.
  - simpl. now rewrite app_nil_r.
  - cbn [slice_rest].
    pose proof (slice_byte_ticks m pPtr phase Hp) as Ht.
    destruct (slice_byte m pPtr phase) as [[b pPtr'] phase'].
    destruct Ht as [Ht Hp'].
    rewrite IH by exact Hp'.
    destruct (store_log_control i b (CallSlice pPtr phase) s) as [_ ->].
    rewrite <- app_assoc. f_equal.
    cbn [seq map app]. rewrite Z.mul_0_r, Z.add_0_r, slice_at_here by exact Hp.
    f_equal. rewrite <- seq_shift, map_map.
    apply map_ext. intros k. f_equal. lia.
Qed.

(** X6. The slicer keeps the bit clock of 2.4 samples per bit without
    drift: when [score_phase] tries the phase [try_phase] of 4..8 at the
    sample [pa], the byte [k] of the candidate starts at the tick
    [5 * (pa + 19) + try_phase + 96 * k] of the 12 MHz clock, that is, it
    is sliced at the sample [tick / 5] in the phase [tick mod 5].  The
    calls that [score_phase] makes are these calls of the slicer for 1, 7
    or 14 bytes, followed for 7 and for 14 bytes by the one call of the
    scorer. *)
Theorem score_phase_slice_grid (scoreModesMessage : list Z -> Z -> Z)
    (m : list Z) (try_phase pa : Z) (s : dstate) :
  4 <= try_phase <= 8 ->
  exists (n : nat) tail,
    calls (score_phase scoreModesMessage m try_phase pa s)
    = calls s
      ++ map (fun k => slice_at (5 * (pa + 19) + try_phase + 96 * Z.of_nat k))
           (seq 0 n)
      ++ tail
    /\ ((n = 1%nat /\ tail = [])
        \/ ((n = 7%nat \/ n = 14%nat)
            /\ exists bytes, tail = [CallScore bytes (Z.of_nat n * 8)])).
Proof.
  intros Htp. unfold score_phase.
  set (pPtr := pa + 19 + Z.quot try_phase 5). set (phase := Z.rem try_phase 5).
  assert (Hstart : 5 * pPtr + phase = 5 * (pa + 19) + try_phase
                   /\ 0 <= phase <= 4).
  { unfold pPtr, phase.
    rewrite Z.quot_div_nonneg, Z.rem_mod_nonneg by lia.
    pose proof (Z.div_mod try_phase 5 ltac:(lia)).
    pose proof (Z.mod_pos_bound try_phase 5 ltac:(lia)). lia. }
  destruct Hstart as [Hstart Hphase].
  pose proof (slice_byte_ticks m pPtr phase Hphase) as Ht.
  destruct (slice_byte m pPtr phase) as [[b0 pPtr'] phase'].
  destruct Ht as [Ht Hp'].
  set (s0 := with_stats (bump_preamblePhase (try_phase - 4)) s).
  destruct (store_log_control 0 b0 (CallSlice pPtr phase) s0) as [_ Hc1].
  set (s1 := store_msg 0 b0 (log_call (CallSlice pPtr phase) s0)) in *.
  change (calls s0) with (calls s) in Hc1.
  assert (Hframe : forall bytelen : nat,
    (1 <= bytelen)%nat ->
    exists bytes,
      calls (score_frame scoreModesMessage m try_phase (Z.of_nat bytelen)
               pPtr' phase' s1)
      = calls s
        ++ map (fun k => slice_at (5 * (pa + 19) + try_phase + 96 * Z.of_nat k))
             (seq 0 bytelen)
        ++ [CallScore bytes (Z.of_nat bytelen * 8)]).
  { intros bytelen Hlen. unfold score_frame.
    set (s2 := slice_rest m (Z.to_nat (Z.of_nat bytelen - 1)) 1 pPtr' phase' s1).
    exists (buf s2 (msg s2)).
    assert (Hc2 : calls s2
                  = calls s
                    ++ map (fun k => slice_at (5 * (pa + 19) + try_phase
                                               + 96 * Z.of_nat k))
                         (seq 0 bytelen)).
    { unfold s2. rewrite slice_rest_calls by exact Hp'. rewrite Hc1.
      rewrite <- app_assoc. f_equal.
      destruct bytelen as [|k]; [lia|].
      replace (Z.to_nat (Z.of_nat (S k) - 1)) with k by lia.
      cbn [seq map app].
      rewrite Z.mul_0_r, Z.add_0_r, <- Hstart, slice_at_here by exact Hphase.
      f_equal. rewrite <- seq_shift, map_map.
      apply map_ext. intros j. f_equal. lia. }
    destruct (bestscore _ <? _); cbn [calls with_best log_call];
      rewrite Hc2, <- app_assoc; reflexivity. }
  cbv zeta.
  destruct (df_in (valid_df_long_bitset s1) _).
  { destruct (Hframe 14%nat ltac:(lia)) as [bytes Hb].
    exists 14%nat, [CallScore bytes (Z.of_nat 14 * 8)].
    split; [exact Hb|]. right. eauto. }
  destruct (df_in (valid_df_short_bitset s1) _).
  { destruct (Hframe 7%nat ltac:(lia)) as [bytes Hb].
    exists 7%nat, [CallScore bytes (Z.of_nat 7 * 8)].
    split; [exact Hb|]. right. eauto. }
  exists 1%nat, []. split; [|left; auto].
  rewrite app_nil_r. cbn [seq map].
  rewrite Z.mul_0_r, Z.add_0_r, <- Hstart, slice_at_here by exact Hphase.
  destruct (bestscore s1 <? -2); cbn [calls with_bestscore with_best];
    exact Hc1.
Qed.

Lemma score_phase_slice_grid_witness :
  exists (n : nat) tail,
    calls (score_phase demo_score demo_samples 4 0 demo_entry)
    = calls demo_entry
      ++ map (fun k => slice_at (5 * (0 + 19) + 4 + 96 * Z.of_nat k)) (seq 0 n)
      ++ tail
    /\ ((n = 1%nat /\ tail = [])
        \/ ((n = 7%nat \/ n = 14%nat)
            /\ exists bytes, tail = [CallScore bytes (Z.of_nat n * 8)])).
Proof. apply (score_phase_slice_grid demo_score demo_samples 4 0 demo_entry). lia. Defined.

(** ** The samples that the demodulator reads *)

(** The two arrays hold the same samples below the index [n]. *)
Definition same_samples (n : Z) (m1 m2 : list Z) : Prop :=
  forall i, 0 <= i < n -> mag_at m1 i = mag_at m2 i.

(** The loop of [demodulate2400] that measures the signal power of an
    accepted message: [uint32_t mag = pa[19 + k]; scaled_signal_power +=
    mag * mag;], on a [uint64_t] sum, for [k] below [signal_len]; [n]
    is the number of turns left. *)
Fixpoint signal_power_loop (m : list Z) (pa : Z) (n : nat) (k : Z) (acc : Z)
    : Z :=
  match n with
  | O => acc
  | S n' =>
      let mag := wrap32 (mag_at m (pa + 19 + k)) in
      signal_power_loop m pa n' (k + 1) (wrap64 (acc + wrap32 (mag * mag)))
  end.

(** [scaled_signal_power] at the end of that loop, for a message of
    [msglen] bits at the sample [pa]: [signal_len = msglen * 12 / 5]. *)
Definition scaled_signal_power (m : list Z) (pa msglen : Z) : Z :=
  signal_power_loop m pa (Z.to_nat (Z.quot (msglen * 12) 5)) 0 0.

Section SamplesRead.

Variable scoreModesMessage : list Z -> Z -> Z.
Variable decodeModesMessage : modesMessage -> Z * modesMessage.
Variable receiveclock_ms_elapsed : Z -> Z -> Z.
Variable cfg : config.

Variables (lim : Z) (m1 m2 : list Z).
Hypothesis Hsame : same_samples lim m1 m2.

Lemma slice_phases_same (p : Z) :
  0 <= p ->
  (p + 2 < lim ->
   slice_phase0 m1 p = slice_phase0 m2 p /\ slice_phase1 m1 p = slice_phase1 m2 p
   /\ slice_phase2 m1 p = slice_phase2 m2 p
   /\ slice_phase3 m1 p = slice_phase3 m2 p)
  /\ (p + 3 < lim -> slice_phase4 m1 p = slice_phase4 m2 p).
Proof.
  intros Hp.
  unfold slice_phase0, slice_phase1, slice_phase2, slice_phase3, slice_phase4.
  split; intros Hl; rewrite !Hsame by lia; repeat split; reflexivity.
Qed.

Lemma slice_byte_same (pPtr phase : Z) :
  0 <= pPtr -> pPtr + 19 < lim ->
  slice_byte m1 pPtr phase = slice_byte m2 pPtr phase.
Proof.
  intros Hp Hl.
  assert (E0 : forall p, 0 <= p -> p + 2 < lim ->
                 slice_phase0 m1 p = slice_phase0 m2 p)
    by (intros p H0 H2; now apply slice_phases_same).
  assert (E1 : forall p, 0 <= p -> p + 2 < lim ->
                 slice_phase1 m1 p = slice_phase1 m2 p)
    by (intros p H0 H2; now apply slice_phases_same).
  assert (E2 : forall p, 0 <= p -> p + 2 < lim ->
                 slice_phase2 m1 p = slice_phase2 m2 p)
    by (intros p H0 H2; now apply slice_phases_same).
  assert (E3 : forall p, 0 <= p -> p + 2 < lim ->
                 slice_phase3 m1 p = slice_phase3 m2 p)
    by (intros p H0 H2; now apply slice_phases_same).
  assert (E4 : forall p, 0 <= p -> p + 3 < lim ->
                 slice_phase4 m1 p = slice_phase4 m2 p)
    by (intros p H0 H3; now apply slice_phases_same).
  unfold slice_byte.
  destruct phase as [|ph|ph]; [| |reflexivity].
  - rewrite !E0, !E1, !E2, !E3, !E4 by lia. reflexivity.
  - do 3 (try destruct ph as [ph|ph|]); try reflexivity;
      rewrite !E0, !E1, !E2, !E3, !E4 by lia; reflexivity.
Qed.

(** The last of [n] bytes sliced from [pPtr] in [phase] starts
    [96 * (n - 1)] ticks later, and is read up to 19 samples further. *)
Lemma slice_rest_same (n : nat) :
  forall i pPtr phase s,
    0 <= pPtr -> 0 <= phase <= 4 ->
    5 * pPtr + phase + 96 * Z.of_nat n - 96 < 5 * (lim - 19) ->
    slice_rest m1 n i pPtr phase s = slice_rest m2 n i pPtr phase s.
Proof.
  induction n as [|n IH]; intros i pPtr phase s Hp Hph Hl; [reflexivity|].
  cbn [slice_rest]. rewrite slice_byte_same by lia.
  pose proof (slice_byte_ticks m2 pPtr phase Hph) as Ht.
  destruct (slice_byte m2 pPtr phase) as [[b pPtr'] phase'].
  destruct Ht as [Ht Hph']. apply IH; lia.
Qed.

Lemma score_phase_same (try_phase pa : Z) (s : dstate) :
  0 <= pa -> 4 <= try_phase <= 8 -> pa + 289 < lim ->
  score_phase scoreModesMessage m1 try_phase pa s
  = score_phase scoreModesMessage m2 try_phase pa s.
Proof.
  intros Hpa Htp Hl. unfold score_phase, score_frame.
  set (pPtr := pa + 19 + Z.quot try_phase 5). set (phase := Z.rem try_phase 5).
  assert (Hstart : 5 * pPtr + phase = 5 * (pa + 19) + try_phase
                   /\ 0 <= phase <= 4).
  { unfold pPtr, phase.
    rewrite Z.quot_div_nonneg, Z.rem_mod_nonneg by lia.
    pose proof (Z.div_mod try_phase 5 ltac:(lia)).
    pose proof (Z.mod_pos_bound try_phase 5 ltac:(lia)). lia. }
  destruct Hstart as [Hstart Hphase].
  rewrite slice_byte_same by lia.
  pose proof (slice_byte_ticks m2 pPtr phase Hphase) as Ht.
  destruct (slice_byte m2 pPtr phase) as [[b0 pPtr'] phase'].
  destruct Ht as [Ht Hph'].
  rewrite !(slice_rest_same (Z.to_nat (_ - 1)) 1 pPtr' phase')
    by (unfold MODES_LONG_MSG_BYTES, MODES_SHORT_MSG_BYTES; lia).
  reflexivity.
Qed.

Lemma pre_check_same (pa : Z) :
  0 <= pa -> pa + 15 < lim -> pre_check m1 pa = pre_check m2 pa.
Proof. intros Hpa Hl. unfold pre_check. now rewrite !Hsame by lia. Qed.

Lemma pre_scan_same (n : nat) :
  forall pa,
    0 <= pa -> pa + Z.of_nat n + 14 < lim ->
    pre_scan m1 n pa = pre_scan m2 n pa.
Proof.
  induction n as [|n IH]; intros pa Hpa Hl; [reflexivity|].
  cbn [pre_scan]. rewrite pre_check_same by lia.
  destruct (pre_check m2 pa); [reflexivity|].
  destruct n as [|n']; [reflexivity|]. apply IH; lia.
Qed.

Lemma try_phases_same (pa : Z) (s : dstate) :
  0 <= pa -> pa + 289 < lim ->
  try_phases scoreModesMessage cfg m1 pa s
  = try_phases scoreModesMessage cfg m2 pa s.
Proof.
  intros Hpa Hl. unfold try_phases. rewrite !Hsame by lia.
  cbv zeta.
  repeat match goal with
         | |- context [score_phase scoreModesMessage m1 ?tp pa ?x] =>
             rewrite (score_phase_same tp pa x) by lia
         end.
  reflexivity.
Qed.

Lemma signal_power_loop_same (pa : Z) (n : nat) :
  forall k acc,
    0 <= pa -> 0 <= k -> pa + 19 + k + Z.of_nat n <= lim ->
    signal_power_loop m1 pa n k acc = signal_power_loop m2 pa n k acc.
Proof.
  induction n as [|n IH]; intros k acc Hpa Hk Hl; [reflexivity|].
  cbn [signal_power_loop]. rewrite Hsame by lia. apply IH; lia.
Qed.

End SamplesRead.

Section SamplesReadLoop.

Variable scoreModesMessage : list Z -> Z -> Z.
Variable decodeModesMessage : modesMessage -> Z * modesMessage.
Variable receiveclock_ms_elapsed : Z -> Z -> Z.
Variable cfg : config.

(** The same buffer, but for the samples it points to. *)
Definition same_buffer (mag1 mag2 : mag_buf) : Prop :=
  mag_length mag2 = mag_length mag1
  /\ mag_sampleTimestamp mag2 = mag_sampleTimestamp mag1
  /\ mag_sysTimestamp mag2 = mag_sysTimestamp mag1.

Lemma demod_body_same (mag1 mag2 : mag_buf) (pa : Z) (s : dstate) :
  same_buffer mag1 mag2 ->
  same_samples (mag_length mag1 + 289) (mag_data mag1) (mag_data mag2) ->
  0 <= pa < mag_length mag1 ->
  demod_body scoreModesMessage decodeModesMessage receiveclock_ms_elapsed cfg
    mag1 pa s
  = demod_body scoreModesMessage decodeModesMessage receiveclock_ms_elapsed cfg
      mag2 pa s.
Proof.
  intros (El & Ets & Esys) Hsame Hpa. unfold demod_body. rewrite El.
  rewrite (pre_scan_same _ _ _ Hsame) by lia.
  destruct (pre_scan (mag_data mag2) 10 pa) as [off found] eqn:Hscan.
  apply pre_scan_spec in Hscan. destruct Hscan as [Hoff _].
  destruct found; cbn [negb]; [|reflexivity].
  destruct (Z.ltb_spec off (mag_length mag1)) as [Hlt|Hge]; cbn [negb];
    [|reflexivity].
  rewrite (try_phases_same scoreModesMessage cfg _ _ _ Hsame) by lia.
  set (w := try_phases scoreModesMessage cfg (mag_data mag2) off s).
  destruct (bestscore w =? -42); [reflexivity|].
  destruct (bestscore (with_stats bump_preambles w) <? 0); [reflexivity|].
  unfold accept_frame, make_mm, message_timestamp. rewrite Ets, Esys.
  reflexivity.
Qed.

Lemma demod_loop_same (mag1 mag2 : mag_buf) (fuel : nat) :
  same_buffer mag1 mag2 ->
  same_samples (mag_length mag1 + 289) (mag_data mag1) (mag_data mag2) ->
  forall pa s,
    0 <= pa ->
    demod_loop scoreModesMessage decodeModesMessage receiveclock_ms_elapsed cfg
      fuel mag1 pa s
    = demod_loop scoreModesMessage decodeModesMessage receiveclock_ms_elapsed
        cfg fuel mag2 pa s.
Proof.
  intros Hbuf Hsame.
  induction fuel as [|fuel IH]; intros pa s Hpa; cbn [demod_loop];
    destruct Hbuf as (El & Hrest); rewrite El.
  - reflexivity.
  - destruct (Z.ltb_spec pa (mag_length mag1)) as [Hlt|Hge]; cbn [negb];
      [|reflexivity].
    rewrite <- (demod_body_same mag1 mag2 pa s (conj El Hrest) Hsame)
      by lia.
    destruct (demod_body _ _ _ _ mag1 pa s) as [s1 pa1] eqn:Hb.
    apply demod_body_spec in Hb; [|exact Hpa].
    apply IH. lia.
Qed.

(** X7. [demodulate2400] reads the samples behind the end of the buffer
    (its comment counts on the room there), and no further than 289
    samples behind: two buffers that hold the same samples below the
    index [mag->length + 289] give the same messages, the same calls and
    the same counters.  (The furthest sample is read for phase 8 at the
    last position: byte 14 ends at [pa + 289].)  The power of an accepted
    message is measured on samples below [pa + 19 + 268], inside the same
    range. *)
Theorem demodulate2400_reads (mag1 mag2 : mag_buf) (s : dstate) :
  same_buffer mag1 mag2 ->
  same_samples (mag_length mag1 + 289) (mag_data mag1) (mag_data mag2) ->
  demodulate2400 scoreModesMessage decodeModesMessage receiveclock_ms_elapsed
    cfg mag1 s
  = demodulate2400 scoreModesMessage decodeModesMessage
      receiveclock_ms_elapsed cfg mag2 s
  /\ forall pa msglen,
       0 <= pa < mag_length mag1 ->
       msglen = MODES_SHORT_MSG_BITS \/ msglen = MODES_LONG_MSG_BITS ->
       scaled_signal_power (mag_data mag1) pa msglen
       = scaled_signal_power (mag_data mag2) pa msglen.
Proof.
  intros Hbuf Hsame. split.
  - unfold demodulate2400, demodulate2400_from.
    destruct Hbuf as (El & Hrest). rewrite El at 1. rewrite <- El.
    apply demod_loop_same; [exact (conj El Hrest)|exact Hsame|lia].
  - intros pa msglen Hpa Hlen. unfold scaled_signal_power.
    apply (signal_power_loop_same _ _ _ Hsame); try lia.
    destruct Hlen as [-> | ->]; vm_compute Z.of_nat; lia.
Qed.

End SamplesReadLoop.

(** The test signal with other samples from the index 300 on. *)
Definition demo_mag_tail : mag_buf :=
  {| mag_data := demo_samples ++ [7; 7; 7]; mag_length := 10;
     mag_sampleTimestamp := 1000000; mag_sysTimestamp := 0 |}.

Definition demo_mag_head : mag_buf :=
  {| mag_data := demo_samples; mag_length := 10;
     mag_sampleTimestamp := 1000000; mag_sysTimestamp := 0 |}.

Lemma demo_tail_same :
  same_samples (mag_length demo_mag_head + 289) (mag_data demo_mag_head)
    (mag_data demo_mag_tail).
Proof.
  intros i Hi. unfold mag_at, demo_mag_head, demo_mag_tail, mag_data.
  rewrite app_nth1; [reflexivity|].
  change (length demo_samples) with 300%nat. simpl in Hi. lia.
Qed.

Lemma demodulate2400_reads_witness :
  demo_run demo_mag_head = demo_run demo_mag_tail.
Proof.
  apply (demodulate2400_reads demo_score demo_decode demo_clock demo_cfg
           demo_mag_head demo_mag_tail demo_state).
  - repeat split.
  - exact demo_tail_same.
Defined.

(** ** The counters of the demodulator *)

Section Counters.

Variable scoreModesMessage : list Z -> Z -> Z.
Variable decodeModesMessage : modesMessage -> Z * modesMessage.
Variable receiveclock_ms_elapsed : Z -> Z -> Z.
Variable cfg : config.

Lemma slice_rest_stats (m : list Z) (n : nat) :
  forall i pPtr phase s,
    stats_current (slice_rest m n i pPtr phase s) = stats_current s.
Proof.
  induction n as [|n IH]; intros i pPtr phase s; [reflexivity|].
  cbn [slice_rest]. destruct (slice_byte m pPtr phase) as [[b pPtr'] phase'].
  rewrite IH. unfold store_msg. destruct (msg _); reflexivity.
Qed.

(** What the search for a candidate does to the counters: it counts the
    phase it tries and nothing else. *)
Lemma score_phase_stats (m : list Z) (try_phase pa : Z) (s : dstate) :
  stats_current (score_phase scoreModesMessage m try_phase pa s)
  = bump_preamblePhase (try_phase - 4) (stats_current s).
Proof.
  unfold score_phase, score_frame.
  destruct (slice_byte m _ _) as [[b0 pPtr'] phase'].
  assert (H1 : forall c, stats_current
            (store_msg 0 b0 (log_call c
               (with_stats (bump_preamblePhase (try_phase - 4)) s)))
          = bump_preamblePhase (try_phase - 4) (stats_current s)).
  { intros c. unfold store_msg. destruct (msg _); reflexivity. }
  repeat match goal with
         | |- context [if ?c then _ else _] => destruct c
         end;
    cbn [stats_current with_best with_bestscore log_call];
    rewrite ?slice_rest_stats; apply H1.
Qed.

(** The counters other than [demod_preamblePhase]. *)
Definition same_counts (t t' : stats) : Prop :=
  demod_preambles t' = demod_preambles t
  /\ demod_rejected_bad t' = demod_rejected_bad t
  /\ demod_rejected_unknown_icao t' = demod_rejected_unknown_icao t
  /\ demod_accepted t' = demod_accepted t
  /\ demod_bestPhase t' = demod_bestPhase t.

Lemma try_phases_counts (m : list Z) (pa : Z) (s : dstate) :
  same_counts (stats_current s)
    (stats_current (try_phases scoreModesMessage cfg m pa s)).
Proof.
  unfold try_phases. cbv zeta.
  repeat match goal with
         | |- context [if ?c then _ else _] => destruct c
         end;
    rewrite ?score_phase_stats; unfold same_counts; cbn; tauto.
Qed.

Definition accepted_total (t : stats) : Z := fold_right Z.add 0 (demod_accepted t).

(** The preambles that are not yet counted as rejected or accepted. *)
Definition unsettled (t : stats) : Z :=
  demod_preambles t - demod_rejected_bad t - demod_rejected_unknown_icao t
  - accepted_total t.

(** From [s] to [s']: every preamble counted was counted once more as
    rejected or as accepted, and every message accepted was handed on.
    The counters are [uint32_t], so the sums agree modulo [2 ^ 32]. *)
Definition accounted (s s' : dstate) : Prop :=
  length (demod_accepted (stats_current s'))
  = length (demod_accepted (stats_current s))
  /\ (2 ^ 32 | unsettled (stats_current s') - unsettled (stats_current s))
  /\ (2 ^ 32 | (accepted_total (stats_current s')
                - accepted_total (stats_current s))
               - (Z.of_nat (length (used s')) - Z.of_nat (length (used s)))).

Lemma accounted_same (s s' : dstate) :
  stats_current s' = stats_current s -> used s' = used s -> accounted s s'.
Proof.
  intros Es Eu. unfold accounted. rewrite Es, Eu. split; [reflexivity|].
  split; replace (_ - _) with 0 by lia; apply Z.divide_0_r.
Qed.

Lemma accounted_refl (s : dstate) : accounted s s.
Proof. now apply accounted_same. Qed.

Lemma accounted_trans (s1 s2 s3 : dstate) :
  accounted s1 s2 -> accounted s2 s3 -> accounted s1 s3.
Proof.
  intros (L1 & [a Ha] & [b Hb]) (L2 & [c Hc] & [d Hd]).
  unfold accounted. split; [congruence|]. split.
  - exists (a + c). lia.
  - exists (b + d). lia.
Qed.

Lemma incr32_step (x : Z) : exists q, incr32 x = x + 1 + 2 ^ 32 * q.
Proof.
  unfold incr32, wrap32. exists (- ((x + 1) / 2 ^ 32)).
  pose proof (Z.div_mod (x + 1) (2 ^ 32) ltac:(lia)). lia.
Qed.

Lemma sum_alter (f : Z -> Z) (l : list Z) :
  forall (i : nat) x,
    l !! i = Some x ->
    fold_right Z.add 0 (alter f i l) = fold_right Z.add 0 l - x + f x.
Proof.
  induction l as [|y l IH]; intros [|i] x H; try discriminate.
  - inversion H; subst. simpl. lia.
  - simpl in H. cbn [alter list_alter fold_right].
    change (list_alter f i l) with (alter f i l). rewrite (IH i x H). lia.
Qed.

Lemma demod_body_accounted (mag : mag_buf) (pa : Z) (s s' : dstate) (pa' : Z) :
  (forall x, 0 <= (decodeModesMessage x).1 ->
             0 <= correctedbits (decodeModesMessage x).2
             < Z.of_nat (length (demod_accepted (stats_current s)))) ->
  demod_body scoreModesMessage decodeModesMessage receiveclock_ms_elapsed cfg
    mag pa s = (s', pa') ->
  accounted s s'.
Proof.
  intros Hdec H. unfold demod_body in H.
  destruct (pre_scan (mag_data mag) 10 pa) as [off found].
  destruct found; cbn [negb] in H.
  2: { inversion H; subst. apply accounted_refl. }
  destruct (off <? mag_length mag); cbn [negb] in H.
  2: { inversion H; subst. apply accounted_refl. }
  destruct (try_phases_winner scoreModesMessage cfg (mag_data mag) off s)
    as [(Hused & _) _].
  pose proof (try_phases_counts (mag_data mag) off s) as Hcnt.
  set (w := try_phases scoreModesMessage cfg (mag_data mag) off s) in *.
  destruct Hcnt as (Hp & Hb & Hu & Ha & _).
  destruct (incr32_step (demod_preambles (stats_current w))) as [qp Hqp].
  destruct (bestscore w =? -42).
  { inversion H; subst. unfold accounted, unsettled, accepted_total.
    rewrite Hp, Hb, Hu, Ha, Hused. split; [reflexivity|].
    split; replace (_ - _) with 0 by lia; apply Z.divide_0_r. }
  change (bestscore (with_stats bump_preambles w)) with (bestscore w) in H.
  assert (Hrej : forall r : Z,
    accounted s
      (with_stats (if r =? -1 then bump_rejected_unknown_icao
                   else bump_rejected_bad) (with_stats bump_preambles w))).
  { intros r.
    destruct (incr32_step (demod_rejected_bad (stats_current w))) as [qb Hqb].
    destruct (incr32_step (demod_rejected_unknown_icao (stats_current w)))
      as [qu Hqu].
    unfold accounted, unsettled, accepted_total.
    destruct (r =? -1); cbn; rewrite ?Hqp, ?Hqb, ?Hqu, Hp, Hb, Hu, Ha, Hused;
      (split; [reflexivity|]); split.
    - exists (qp - qu). lia.
    - exists 0. lia.
    - exists (qp - qb). lia.
    - exists 0. lia. }
  destruct (bestscore w <? 0).
  { inversion H; subst. apply Hrej. }
  unfold accept_frame in H.
  destruct (decodeModesMessage _) as [result mm] eqn:Hd.
  destruct (Z.ltb_spec result 0) as [Hneg|Hpos].
  { inversion H; subst. apply Hrej. }
  inversion H; subst. clear H.
  pose proof (Hdec _ ltac:(rewrite Hd; exact Hpos)) as Hcb.
  rewrite Hd in Hcb. cbn [snd] in Hcb.
  assert (Hlook : exists x,
            demod_accepted (stats_current w) !! Z.to_nat (correctedbits mm)
            = Some x).
  { apply lookup_lt_is_Some_2. rewrite Ha. lia. }
  destruct Hlook as [x Hx].
  destruct (incr32_step x) as [qx Hqx].
  unfold accounted, unsettled, accepted_total. cbn.
  rewrite (sum_alter incr32 _ _ x Hx), length_alter, length_app.
  rewrite Hqp, Hqx, Hp, Hb, Hu, Ha, Hused. cbn [length].
  split; [reflexivity|]. split.
  - exists (qp - qx). lia.
  - exists qx. lia.
Qed.

Lemma demod_loop_accounted (mag : mag_buf) (fuel : nat) :
  forall pa s s',
    (forall x, 0 <= (decodeModesMessage x).1 ->
               0 <= correctedbits (decodeModesMessage x).2
               < Z.of_nat (length (demod_accepted (stats_current s)))) ->
    demod_loop scoreModesMessage decodeModesMessage receiveclock_ms_elapsed cfg
      fuel mag pa s = Some s' ->
    accounted s s'.
Proof.
  induction fuel as [|fuel IH]; intros pa s s' Hdec H; cbn [demod_loop] in H.
  - destruct (pa <? mag_length mag); cbn [negb] in H; [discriminate|].
    inversion H; subst. apply accounted_refl.
  - destruct (pa <? mag_length mag); cbn [negb] in H.
    + destruct (demod_body _ _ _ _ mag pa s) as [s1 pa1] eqn:Hb.
      pose proof (demod_body_accounted mag pa s s1 pa1 Hdec Hb) as H1.
      apply accounted_trans with (s2 := s1); [exact H1|].
      apply (IH (pa1 + 1) s1 s'); [|exact H].
      destruct H1 as (-> & _). exact Hdec.
    + inversion H; subst. apply accounted_refl.
Qed.

(** X8. Over a run of [demodulate2400] every preamble that is counted
    in [demod_preambles] is counted exactly once more, as
    [demod_rejected_bad], as [demod_rejected_unknown_icao] or in
    [demod_accepted], and every message counted in [demod_accepted] is
    handed to [netUseMessage]: the increase of [demod_preambles] is the
    sum of the increases of the three others, and the increase of the
    sum of [demod_accepted] is the number of messages handed on, both
    modulo [2 ^ 32] as the counters are [uint32_t].  The decoder is
    taken to report a number of corrected bits that is an index of
    [demod_accepted]. *)
Theorem demodulate2400_counts (mag : mag_buf) (s : dstate) :
  (forall x, 0 <= (decodeModesMessage x).1 ->
             0 <= correctedbits (decodeModesMessage x).2
             < Z.of_nat (length (demod_accepted (stats_current s)))) ->
  exists s',
    demodulate2400 scoreModesMessage decodeModesMessage
      receiveclock_ms_elapsed cfg mag s = Some s'
    /\ accounted s s'.
Proof.
  intros Hdec.
  destruct (demodulate2400_total scoreModesMessage decodeModesMessage
              receiveclock_ms_elapsed cfg mag s) as [s' Hrun].
  exists s'. split; [exact Hrun|].
  unfold demodulate2400, demodulate2400_from in Hrun.
  apply accounted_trans with (s2 := demod_entry cfg s).
  - unfold demod_entry. destruct (valid_df_short_bitset s =? 0);
      now apply accounted_same.
  - eapply demod_loop_accounted; [|exact Hrun].
    unfold demod_entry. destruct (valid_df_short_bitset s =? 0); exact Hdec.
Qed.

End Counters.

(** A decoder that accepts what it is given and reports no corrected
    bit. *)
Definition demo_decode_clean (mm : modesMessage) : Z * modesMessage :=
  (0, {| mm_msg := mm_msg mm; timestamp := timestamp mm;
         sysTimestamp := sysTimestamp mm; score := score mm;
         correctedbits := 0 |}).

Lemma demodulate2400_counts_witness :
  exists s',
    demodulate2400 demo_score demo_decode_clean demo_clock demo_cfg demo_mag
      demo_state = Some s'
    /\ accounted demo_state s'.
Proof.
  apply (demodulate2400_counts demo_score demo_decode_clean demo_clock demo_cfg
           demo_mag demo_state).
  intros x _. simpl. lia.
Defined.

(** ** The distance between two messages *)

Section Spacing.

Variable scoreModesMessage : list Z -> Z -> Z.
Variable decodeModesMessage : modesMessage -> Z * modesMessage.
Variable receiveclock_ms_elapsed : Z -> Z -> Z.
Variable cfg : config.

Abbreviation accepted_at' :=
  (accepted_at scoreModesMessage decodeModesMessage receiveclock_ms_elapsed cfg).

(** The samples that [demodulate2400] skips after a message it has
    accepted: [pa += msglen * 8 / 4], for the best candidate of [w]. *)
Definition frame_skip (w : dstate) : Z :=
  Z.quot (modesMessageLenByType (getbits (best_bytes w) 1 5) * 8) 4.

Lemma frame_skip_cases (w : dstate) : frame_skip w = 112 \/ frame_skip w = 224.
Proof.
  unfold frame_skip, modesMessageLenByType.
  destruct (Z.land _ 16 =? 0); [left|right]; reflexivity.
Qed.

(** The messages of [l] were accepted one after the other at sample
    positions from [lo] on, each behind the samples skipped after the one
    before it. *)
Inductive spaced (mag : mag_buf) : Z -> list modesMessage -> Prop :=
| spaced_nil (lo : Z) : spaced mag lo []
| spaced_cons (lo off : Z) (w : dstate) (mm : modesMessage)
    (rest : list modesMessage) :
    lo <= off -> accepted_at' mag off w mm ->
    spaced mag (off + frame_skip w + 1) rest ->
    spaced mag lo (mm :: rest).

Lemma spaced_mono (mag : mag_buf) (lo lo' : Z) (l : list modesMessage) :
  lo' <= lo -> spaced mag lo l -> spaced mag lo' l.
Proof.
  intros Hle H. destruct H as [lo|lo off w mm rest Hoff Ha Hrest].
  - constructor.
  - econstructor; [|exact Ha|exact Hrest]. lia.
Qed.

Lemma spaced_count (mag : mag_buf) (lo : Z) (l : list modesMessage) :
  spaced mag lo l ->
  l = [] \/ Z.of_nat (length l) * 113 <= mag_length mag - lo + 112.
Proof.
  induction 1 as [lo|lo off w mm rest Hoff Ha Hrest IH]; [now left|].
  right. destruct Ha as (Hin & _).
  pose proof (frame_skip_cases w) as Hskip.
  destruct IH as [->|IH]; cbn [length]; lia.
Qed.

(** One turn of the loop: no message, or one message at a position
    [off], after which the loop goes on behind the samples skipped. *)
Lemma demod_body_step (mag : mag_buf) (pa : Z) (s s' : dstate) (pa' : Z) :
  0 <= pa ->
  demod_body scoreModesMessage decodeModesMessage receiveclock_ms_elapsed cfg
    mag pa s = (s', pa') ->
  (used s' = used s /\ pa <= pa')
  \/ exists off w mm,
       used s' = used s ++ [mm] /\ pa <= off /\ accepted_at' mag off w mm
       /\ pa' = off + frame_skip w.
Proof.
  intros Hpa H. unfold demod_body in H.
  destruct (pre_scan (mag_data mag) 10 pa) as [off found] eqn:Hscan.
  apply pre_scan_spec in Hscan. destruct Hscan as [Hoff Hfound].
  destruct found; cbn [negb] in H.
  2: { inversion H; subst. left. split; [reflexivity|lia]. }
  destruct (Z.ltb_spec off (mag_length mag)) as [Hstop|Hstop]; cbn [negb] in H.
  2: { inversion H; subst. left. split; [reflexivity|lia]. }
  destruct (try_phases_winner scoreModesMessage cfg (mag_data mag) off s)
    as [(Hused & _) Hw].
  set (w := try_phases scoreModesMessage cfg (mag_data mag) off s) in *.
  destruct (bestscore w =? -42).
  { inversion H; subst. left. split; [exact Hused|lia]. }
  change (bestscore (with_stats bump_preambles w)) with (bestscore w) in H.
  destruct (Z.ltb_spec (bestscore w) 0) as [Hneg|Hpos].
  { inversion H; subst. left. split; [exact Hused|lia]. }
  unfold accept_frame in H.
  change (make_mm receiveclock_ms_elapsed mag off (with_stats bump_preambles w))
    with (make_mm receiveclock_ms_elapsed mag off w) in H.
  change (best_bytes (with_stats bump_preambles w)) with (best_bytes w) in H.
  fold (frame_skip w) in H.
  destruct (decodeModesMessage (make_mm receiveclock_ms_elapsed mag off w))
    as [result mm] eqn:Hdec.
  destruct (Z.ltb_spec result 0) as [Hres|Hres].
  { inversion H; subst. left. split; [exact Hused|lia]. }
  inversion H; subst. right. exists off, w, mm.
  split; [cbn [used netUseMessage with_stats]; now rewrite Hused|].
  split; [lia|]. split; [|reflexivity].
  unfold accepted_at. rewrite Hdec. cbn [fst snd].
  repeat split; auto; try lia. exists s. reflexivity.
Qed.

Lemma demod_loop_spaced (mag : mag_buf) (fuel : nat) :
  forall pa s s',
    0 <= pa ->
    demod_loop scoreModesMessage decodeModesMessage receiveclock_ms_elapsed cfg
      fuel mag pa s = Some s' ->
    exists new, used s' = used s ++ new /\ spaced mag pa new.
Proof.
  induction fuel as [|fuel IH]; intros pa s s' Hpa H; cbn [demod_loop] in H.
  - destruct (pa <? mag_length mag); cbn [negb] in H; [discriminate|].
    inversion H; subst. exists []. rewrite app_nil_r. split; [auto|constructor].
  - destruct (pa <? mag_length mag); cbn [negb] in H.
    2: { inversion H; subst. exists []. rewrite app_nil_r.
         split; [auto|constructor]. }
    destruct (demod_body _ _ _ _ mag pa s) as [s1 pa1] eqn:Hb.
    pose proof (frame_skip_cases) as Hskip.
    destruct (demod_body_step mag pa s s1 pa1 Hpa Hb)
      as [[Hu Hle] | (off & w & mm & Hu & Hoff & Ha & Hpa1)].
    + destruct (IH (pa1 + 1) s1 s' ltac:(lia) H) as (new & U & Hsp).
      exists new. split; [congruence|].
      apply spaced_mono with (lo := pa1 + 1); [lia|exact Hsp].
    + specialize (Hskip w).
      destruct (IH (pa1 + 1) s1 s' ltac:(lia) H) as (new & U & Hsp).
      exists (mm :: new). split.
      * rewrite U, Hu, <- app_assoc. reflexivity.
      * apply spaced_cons with (off := off) (w := w); [exact Hoff|exact Ha|].
        now rewrite <- Hpa1.
Qed.

(** X9. The messages of one buffer are accepted at rising sample
    positions: after a message accepted at the position [off] the search
    goes on at [off + msglen * 8 / 4 + 1], which is 113 samples further
    for a DF below 16 and 225 samples further for the others, so the
    next message lies at least that far behind it, and a buffer of [n]
    samples gives at most [(n + 112) / 113] messages. *)
Theorem demodulate2400_spacing (mag : mag_buf) (s : dstate) :
  exists s' new,
    demodulate2400 scoreModesMessage decodeModesMessage
      receiveclock_ms_elapsed cfg mag s = Some s'
    /\ used s' = used s ++ new
    /\ spaced mag 0 new
    /\ (forall w, frame_skip w = 112 \/ frame_skip w = 224)
    /\ (new = [] \/ Z.of_nat (length new) * 113 <= mag_length mag + 112).
Proof.
  destruct (demodulate2400_total scoreModesMessage decodeModesMessage
              receiveclock_ms_elapsed cfg mag s) as [s' Hrun].
  pose proof Hrun as Hloop. unfold demodulate2400, demodulate2400_from in Hloop.
  apply demod_loop_spaced in Hloop; [|lia].
  destruct Hloop as (new & U & Hsp).
  exists s', new. split; [exact Hrun|]. split.
  { rewrite U. unfold demod_entry.
    destruct (valid_df_short_bitset s =? 0); reflexivity. }
  split; [exact Hsp|]. split; [exact frame_skip_cases|].
  destruct (spaced_count mag 0 new Hsp) as [E|Hc]; [now left|right; lia].
Qed.

End Spacing.

(** ** A signal without a falling edge *)

Section NoEdge.

Variable scoreModesMessage : list Z -> Z -> Z.
Variable decodeModesMessage : modesMessage -> Z * modesMessage.
Variable receiveclock_ms_elapsed : Z -> Z -> Z.
Variable cfg : config.

Lemma pre_scan_none (m : list Z) (n : nat) :
  forall pa,
    (forall i, pa <= i <= pa + Z.of_nat n -> pre_check m i = false) ->
    pre_scan m (S n) pa = (pa + Z.of_nat n, false).
Proof.
  induction n as [|n IH]; intros pa Hno.
  - cbn [pre_scan]. rewrite Hno by lia. f_equal. cbn [Z.of_nat]. lia.
  - change (pre_scan m (S (S n)) pa)
      with (if pre_check m pa then (pa, true) else pre_scan m (S n) (pa + 1)).
    rewrite Hno by lia. rewrite IH by (intros i Hi; apply Hno; lia).
    f_equal. lia.
Qed.

Lemma demod_loop_no_edge (mag : mag_buf) (fuel : nat) :
  (forall i, 0 <= i < mag_length mag + 9 ->
             pre_check (mag_data mag) i = false) ->
  forall pa s s',
    0 <= pa ->
    demod_loop scoreModesMessage decodeModesMessage receiveclock_ms_elapsed cfg
      fuel mag pa s = Some s' ->
    s' = s.
Proof.
  intros Hno. induction fuel as [|fuel IH]; intros pa s s' Hpa H;
    cbn [demod_loop] in H.
  - destruct (pa <? mag_length mag); cbn [negb] in H; [discriminate|].
    now inversion H.
  - destruct (Z.ltb_spec pa (mag_length mag)) as [Hlt|Hge]; cbn [negb] in H.
    2: { now inversion H. }
    unfold demod_body in H.
    rewrite (pre_scan_none (mag_data mag) 9 pa) in H
      by (intros i Hi; apply Hno; lia).
    cbn [negb] in H. apply IH in H; [exact H|lia].
Qed.

(** X10. The search passes every sample position at which the pre-check
    [pa[1] > pa[7] && pa[12] > pa[14] && pa[12] > pa[15]] fails.  For a
    buffer in which it fails everywhere, such as silence or a constant
    carrier, the loop of [demodulate2400] ends without a message given
    to [netUseMessage], without a call of the slicer or of the scorer,
    and with the demodulator's counters [demod_preambles],
    [demod_rejected_bad], [demod_rejected_unknown_icao],
    [demod_accepted], [demod_preamblePhase] and [demod_bestPhase] as
    they were.  (What the function does after its loop, the update of
    the noise power and [netDrainMessageBuffers], is not part of this
    statement.) *)
Theorem demodulate2400_no_edge (mag : mag_buf) (s : dstate) :
  (forall i, 0 <= i < mag_length mag + 9 ->
             pre_check (mag_data mag) i = false) ->
  exists s',
    demodulate2400 scoreModesMessage decodeModesMessage
      receiveclock_ms_elapsed cfg mag s = Some s'
    /\ used s' = used s /\ calls s' = calls s
    /\ demod_preambles (stats_current s') = demod_preambles (stats_current s)
    /\ demod_rejected_bad (stats_current s')
       = demod_rejected_bad (stats_current s)
    /\ demod_rejected_unknown_icao (stats_current s')
       = demod_rejected_unknown_icao (stats_current s)
    /\ demod_accepted (stats_current s') = demod_accepted (stats_current s)
    /\ demod_preamblePhase (stats_current s')
       = demod_preamblePhase (stats_current s)
    /\ demod_bestPhase (stats_current s') = demod_bestPhase (stats_current s).
Proof.
  intros Hno.
  destruct (demodulate2400_total scoreModesMessage decodeModesMessage
              receiveclock_ms_elapsed cfg mag s) as [s' Hrun].
  exists s'. split; [exact Hrun|].
  unfold demodulate2400, demodulate2400_from in Hrun.
  apply (demod_loop_no_edge mag _ Hno) in Hrun; [|lia]. subst s'.
  unfold demod_entry.
  destruct (valid_df_short_bitset s =? 0); cbn; repeat split; reflexivity.
Qed.

End NoEdge.

(** A constant carrier of 40 samples. *)
Definition demo_carrier : mag_buf :=
  {| mag_data := repeat 9 60%nat; mag_length := 40;
     mag_sampleTimestamp := 1000000; mag_sysTimestamp := 0 |}.

Lemma demo_carrier_no_edge (i : Z) :
  0 <= i < mag_length demo_carrier + 9 ->
  pre_check (mag_data demo_carrier) i = false.
Proof.
  intros Hi. unfold pre_check, mag_at, demo_carrier, mag_data.
  assert (E1 : nth (Z.to_nat (i + 1)) (repeat 9 60%nat) 0 = 9).
  { apply nth_repeat_lt. cbn [mag_length demo_carrier] in Hi. lia. }
  assert (E7 : nth (Z.to_nat (i + 7)) (repeat 9 60%nat) 0 = 9).
  { apply nth_repeat_lt. cbn [mag_length demo_carrier] in Hi. lia. }
  rewrite E1, E7. reflexivity.
Qed.

Lemma demodulate2400_no_edge_witness :
  exists s',
    demo_run demo_carrier = Some s'
    /\ used s' = used demo_state /\ calls s' = calls demo_state
    /\ demod_preambles (stats_current s')
       = demod_preambles (stats_current demo_state)
    /\ demod_rejected_bad (stats_current s')
       = demod_rejected_bad (stats_current demo_state)
    /\ demod_rejected_unknown_icao (stats_current s')
       = demod_rejected_unknown_icao (stats_current demo_state)
    /\ demod_accepted (stats_current s')
       = demod_accepted (stats_current demo_state)
    /\ demod_preamblePhase (stats_current s')
       = demod_preamblePhase (stats_current demo_state)
    /\ demod_bestPhase (stats_current s')
       = demod_bestPhase (stats_current demo_state).
Proof.
  exact (demodulate2400_no_edge demo_score demo_decode demo_clock demo_cfg
           demo_carrier demo_state demo_carrier_no_edge).
Defined.

(** ** The best candidate of a sample position *)

Section BestCandidate.

Variable scoreModesMessage : list Z -> Z -> Z.
Variable cfg : config.

(** The call is no call of the scorer with a score above [b]. *)
Definition scores_below (b : Z) (c : call) : Prop :=
  match c with
  | CallScore bytes validbits => scoreModesMessage bytes validbits <= b
  | CallSlice _ _ => True
  end.

Lemma scores_below_mono (b b' : Z) (l : list call) :
  b <= b' -> Forall (scores_below b) l -> Forall (scores_below b') l.
Proof.
  intros Hle F. eapply Forall_impl; [exact F|].
  intros [p ph|bytes v]; simpl; [auto|lia].
Qed.

Lemma slices_score_below (b : Z) (l : list call) :
  Forall is_slice l -> Forall (scores_below b) l.
Proof.
  intros F. eapply Forall_impl; [exact F|].
  intros [p ph|bytes v]; simpl; tauto.
Qed.

Lemma frame_scores_below (b : Z) (c : call) (sl : list call) (bytes : list Z)
    (v : Z) :
  is_slice c -> Forall is_slice sl -> scoreModesMessage bytes v <= b ->
  Forall (scores_below b) ([c] ++ sl ++ [CallScore bytes v]).
Proof.
  intros Hc Hsl Hb. apply List.Forall_cons; [destruct c; simpl in *; tauto|].
  apply Forall_app. split; [now apply slices_score_below|].
  apply List.Forall_cons; [exact Hb|apply List.Forall_nil].
Qed.

(** The state during the search at one sample position, where [tr0] is
    the trace at its start: no frame scored since then has a score above
    the best score, and a best score other than the two marks -42 and -2
    is the score of a frame scored since then, which [bestmsg] points
    to. *)
Definition best_of (tr0 : list call) (s : dstate) : Prop :=
  exists more,
    calls s = tr0 ++ more
    /\ -42 <= bestscore s
    /\ Forall (scores_below (bestscore s)) more
    /\ (bestscore s = -42 \/ bestscore s = -2
        \/ (bestmsg s = Some (other_buf (msg s))
            /\ exists v,
                 In (CallScore (best_bytes s) v) more
                 /\ scoreModesMessage (best_bytes s) v = bestscore s)).

Lemma best_of_kept (tr0 : list call) (s s' : dstate) (new : list call) :
  best_of tr0 s ->
  same_control s s' -> calls s' = calls s ++ new ->
  Forall (scores_below (bestscore s)) new ->
  best_of tr0 s'.
Proof.
  intros (more & Hc & Hlow & Hall & Hbest) Hctl Hnew Hsc.
  destruct Hctl as (Hm & Hbm & Hbs & Hbp & _ & _ & _ & _ & _ & Hother).
  exists (more ++ new). rewrite Hnew, Hc, <- app_assoc, Hbs.
  split; [reflexivity|]. split; [exact Hlow|].
  split; [apply Forall_app; auto|].
  destruct Hbest as [H|[H|(Hptr & v & Hin & Hv)]]; [now left|now right; left|].
  right; right.
  assert (Hbytes : best_bytes s' = best_bytes s).
  { unfold best_bytes. rewrite Hbm, Hptr. exact Hother. }
  rewrite Hbytes, Hbm, Hm. split; [exact Hptr|].
  exists v. split; [apply in_or_app; now left|exact Hv].
Qed.

Lemma score_frame_best (tr0 : list call) (m : list Z)
    (try_phase n pPtr phase : Z) (s s1 : dstate) (c : call) :
  best_of tr0 s -> is_slice c ->
  same_control s s1 -> calls s1 = calls s ++ [c] ->
  best_of tr0 (score_frame scoreModesMessage m try_phase n pPtr phase s1).
Proof.
  intros Hbest Hc Hctl Hcalls. unfold score_frame.
  destruct (slice_rest_spec m (Z.to_nat (n - 1)) 1 pPtr phase s1)
    as (sl & E & _ & Hsl & Hctl1).
  set (s2 := slice_rest m (Z.to_nat (n - 1)) 1 pPtr phase s1) in *.
  pose proof (same_control_trans _ _ _ Hctl Hctl1) as Hc2.
  set (sc := scoreModesMessage (buf s2 (msg s2)) (n * 8)).
  set (s3 := log_call (CallScore (buf s2 (msg s2)) (n * 8)) s2).
  assert (Hc3 : same_control s s3).
  { destruct Hc2 as (A & B & C & D & E' & F & G & H & I & J).
    unfold same_control, s3. cbn. tauto. }
  assert (Hcalls3 : calls s3
                    = calls s ++ ([c] ++ sl ++ [CallScore (buf s2 (msg s2)) (n * 8)])).
  { unfold s3. cbn [calls log_call]. rewrite E, Hcalls, <- !app_assoc.
    reflexivity. }
  assert (Hbs3 : bestscore s3 = bestscore s) by apply Hc3.
  change (bestscore (log_call (CallScore (buf s2 (msg s2)) (n * 8)) s2))
    with (bestscore s3).
  destruct (Z.ltb_spec (bestscore s3) sc) as [Hlt|Hge].
  - (* a new best candidate *)
    destruct Hbest as (more & Hcm & Hlow & Hall & _).
    exists (more ++ [c] ++ sl ++ [CallScore (buf s2 (msg s2)) (n * 8)]).
    cbn [calls bestscore bestmsg msg with_best]. fold s3.
    rewrite Hcalls3, Hcm, <- !app_assoc.
    split; [reflexivity|]. split; [lia|]. split.
    + apply Forall_app. split;
        [apply scores_below_mono with (b := bestscore s); [lia|exact Hall]|].
      apply frame_scores_below; auto. fold sc. lia.
    + right; right. rewrite other_buf_involutive.
      split; [reflexivity|]. exists (n * 8).
      assert (Hb : best_bytes
                (with_best (other_buf (msg s3)) (Some (msg s3)) sc try_phase s3)
              = buf s2 (msg s2)).
      { unfold best_bytes. cbn [bestmsg with_best]. unfold s3.
        cbn [msg log_call]. destruct (msg s2); reflexivity. }
      rewrite Hb. split; [|reflexivity].
      apply in_or_app. right. apply in_or_app. right. apply in_or_app. right.
      now left.
  - apply best_of_kept
      with (s := s) (new := [c] ++ sl ++ [CallScore (buf s2 (msg s2)) (n * 8)]);
      auto.
    apply frame_scores_below; auto. fold sc. lia.
Qed.

Lemma score_phase_best (tr0 : list call) (m : list Z) (try_phase pa : Z)
    (s : dstate) :
  best_of tr0 s -> best_of tr0 (score_phase scoreModesMessage m try_phase pa s).
Proof.
  intros Hbest. unfold score_phase.
  set (pPtr := pa + 19 + Z.quot try_phase 5). set (phase := Z.rem try_phase 5).
  destruct (slice_byte m pPtr phase) as [[b0 pPtr'] phase'].
  set (s0 := with_stats (bump_preamblePhase (try_phase - 4)) s).
  destruct (with_stats_control (bump_preamblePhase (try_phase - 4)) s)
    as [Hc0 Hcalls0]. fold s0 in Hc0, Hcalls0.
  destruct (store_log_control 0 b0 (CallSlice pPtr phase) s0) as [Hc1 Hcalls1].
  set (s1 := store_msg 0 b0 (log_call (CallSlice pPtr phase) s0)) in *.
  pose proof (same_control_trans _ _ _ Hc0 Hc1) as Hctl.
  assert (Hcalls : calls s1 = calls s ++ [CallSlice pPtr phase]) by congruence.
  cbv zeta.
  destruct (df_in (valid_df_long_bitset s1) _).
  { apply score_frame_best with (s := s) (c := CallSlice pPtr phase); auto.
    exact I. }
  destruct (df_in (valid_df_short_bitset s1) _).
  { apply score_frame_best with (s := s) (c := CallSlice pPtr phase); auto.
    exact I. }
  assert (Hkept : best_of tr0 s1).
  { apply best_of_kept with (s := s) (new := [CallSlice pPtr phase]); auto.
    apply List.Forall_cons; [exact I|apply List.Forall_nil]. }
  destruct (Z.ltb_spec (bestscore s1) (-2)) as [Hlt|Hge]; [|exact Hkept].
  destruct Hkept as (more & Hcm & Hlow & Hall & _).
  exists more. cbn [calls bestscore with_bestscore with_best].
  split; [exact Hcm|]. split; [lia|]. split; [|now right; left].
  apply scores_below_mono with (b := bestscore s1); [lia|exact Hall].
Qed.

(** X11. The candidate that the search at one sample position ends
    with is the best of those it scored there.  After [try_phases] no
    frame scored at this position has a score above the best score, and
    a best score other than the marks -42 (no phase tried) and -2 (a
    phase given up at its first byte) is the score that the scorer gave
    for the bytes [bestmsg] points to, in a call made at this position.
    A later phase replaces the best candidate only with a score that is
    higher, so of two equal scores the phase tried first wins. *)
Theorem try_phases_best (m : list Z) (pa : Z) (s : dstate) :
  let w := try_phases scoreModesMessage cfg m pa s in
  exists more,
    calls w = calls s ++ more
    /\ -42 <= bestscore w
    /\ Forall (scores_below (bestscore w)) more
    /\ (bestscore w = -42 \/ bestscore w = -2
        \/ exists v,
             In (CallScore (best_bytes w) v) more
             /\ scoreModesMessage (best_bytes w) v = bestscore w)
    /\ forall try_phase s1,
         let s2 := score_phase scoreModesMessage m try_phase pa s1 in
         bestscore s1 <= bestscore s2
         /\ (bestscore s2 = bestscore s1 ->
             bestmsg s2 = bestmsg s1 /\ bestphase s2 = bestphase s1).
Proof.
  intros w.
  assert (Hw : best_of (calls s) w).
  { unfold w, try_phases.
    set (s0 := with_bestscore (-42) s).
    assert (H0 : best_of (calls s) s0).
    { exists []. unfold s0. cbn. rewrite app_nil_r.
      split; [reflexivity|]. split; [lia|]. split; [constructor|now left]. }
    cbv zeta.
    repeat match goal with
           | |- context [if ?c then _ else _] => destruct c
           end;
      repeat apply score_phase_best; exact H0. }
  destruct Hw as (more & Hc & Hlow & Hall & Hbest).
  exists more. split; [exact Hc|]. split; [exact Hlow|]. split; [exact Hall|].
  split.
  - destruct Hbest as [H|[H|(_ & v & Hin & Hv)]]; [now left|now right; left|].
    right; right. eauto.
  - intros try_phase s1 s2.
    destruct (score_phase_effect scoreModesMessage m try_phase pa s1) as [_ Hr].
    fold s2 in Hr.
    destruct Hr as [Hm Hbm Hbp Hbs _ | n Hn Hbm Hm Hbp Hlt Hsc Hfr].
    + split; [lia|]. intros _. auto.
    + split; [lia|]. intros E. lia.
Qed.

End BestCandidate.

(** ** The power of an accepted message *)

(** The sum of the squares of [n] samples from [pa[19 + k]] on. *)
Fixpoint squares (m : list Z) (pa : Z) (n : nat) (k : Z) : Z :=
  match n with
  | O => 0
  | S n' => mag_at m (pa + 19 + k) ^ 2 + squares m pa n' (k + 1)
  end.

Lemma mag_at_uint16 (m : list Z) (i : Z) :
  Forall (fun x => 0 <= x < 2 ^ 16) m -> 0 <= mag_at m i < 2 ^ 16.
Proof.
  intros F. unfold mag_at.
  destruct (lt_dec (Z.to_nat i) (length m)) as [Hlt|Hge].
  - rewrite List.Forall_forall in F. apply F. apply nth_In. exact Hlt.
  - rewrite nth_overflow by lia. lia.
Qed.

Lemma squares_bound (m : list Z) (pa : Z) (n : nat) :
  Forall (fun x => 0 <= x < 2 ^ 16) m ->
  forall k, 0 <= squares m pa n k <= Z.of_nat n * 65535 ^ 2.
Proof.
  intros F. induction n as [|n IH]; intros k; cbn [squares]; [lia|].
  pose proof (mag_at_uint16 m (pa + 19 + k) F) as Hm.
  specialize (IH (k + 1)). nia.
Qed.

Lemma signal_power_loop_exact (m : list Z) (pa : Z) (n : nat) :
  Forall (fun x => 0 <= x < 2 ^ 16) m ->
  forall k acc,
    0 <= acc -> acc + Z.of_nat n * 65535 ^ 2 < 2 ^ 64 ->
    signal_power_loop m pa n k acc = acc + squares m pa n k.
Proof.
  intros F. induction n as [|n IH]; intros k acc Hacc Hmax;
    cbn [signal_power_loop squares]; [lia|].
  pose proof (mag_at_uint16 m (pa + 19 + k) F) as Hm.
  rewrite (wrap32_small (mag_at m (pa + 19 + k))) by lia.
  rewrite wrap32_small by nia.
  rewrite wrap64_small by nia.
  rewrite IH by nia. lia.
Qed.

(** X12. The power of an accepted message is summed without any loss:
    for samples of 16 bits each square fits the [uint32_t] product and
    the sum over the [msglen * 12 / 5] samples of a message, 134 for a
    short and 268 for a long one, fits the [uint64_t] accumulator, so
    [scaled_signal_power] is the sum of the squares of the samples
    [pa[19]] .. [pa[19 + signal_len - 1]]. *)
Theorem scaled_signal_power_exact (m : list Z) (pa msglen : Z) :
  Forall (fun x => 0 <= x < 2 ^ 16) m ->
  msglen = MODES_SHORT_MSG_BITS \/ msglen = MODES_LONG_MSG_BITS ->
  let signal_len := Z.quot (msglen * 12) 5 in
  (signal_len = 134 \/ signal_len = 268)
  /\ scaled_signal_power m pa msglen = squares m pa (Z.to_nat signal_len) 0
  /\ 0 <= scaled_signal_power m pa msglen <= signal_len * 65535 ^ 2.
Proof.
  intros F Hlen signal_len.
  assert (Hsl : signal_len = 134 \/ signal_len = 268)
    by (unfold signal_len; destruct Hlen as [-> | ->]; [left|right]; reflexivity).
  assert (E : scaled_signal_power m pa msglen
              = squares m pa (Z.to_nat signal_len) 0).
  { unfold scaled_signal_power. fold signal_len.
    rewrite signal_power_loop_exact; [lia|exact F|lia|].
    destruct Hsl as [-> | ->]; vm_compute; reflexivity. }
  split; [exact Hsl|]. split; [exact E|].
  rewrite E. pose proof (squares_bound m pa (Z.to_nat signal_len) F 0). lia.
Qed.

Lemma demo_samples_uint16 : Forall (fun x => 0 <= x < 2 ^ 16) demo_samples.
Proof.
  apply List.Forall_forall. intros x Hx.
  assert (H : forallb (fun x => (0 <=? x) && (x <? 2 ^ 16)) demo_samples = true)
    by (vm_compute; reflexivity).
  rewrite forallb_forall in H. specialize (H x Hx).
  apply andb_prop in H. lia.
Qed.

Lemma scaled_signal_power_exact_witness :
  scaled_signal_power demo_samples 0 MODES_LONG_MSG_BITS
  = squares demo_samples 0 268 0.
Proof.
  apply (scaled_signal_power_exact demo_samples 0 MODES_LONG_MSG_BITS
           demo_samples_uint16).
  right. reflexivity.
Defined.

End Demod.

(** * The network services, [net_io.c] *)

Module Net.

(** The five services, in the order of [modeS_net_services]. *)
Definition MODES_NET_SERVICE_RAW_OUT : Z := 0.
Definition MODES_NET_SERVICE_RAW_IN : Z := 1.
Definition MODES_NET_SERVICE_SBS_OUT : Z := 2.
Definition MODES_NET_SERVICE_SBS_IN : Z := 3.
Definition MODES_NET_SERVICE_HTTP : Z := 4.
Definition MODES_NET_SERVICE_FIRST : Z := 0.
Definition MODES_NET_SERVICE_LAST : Z := 4.
Definition MODES_NET_SERVICES_NUM : Z := 5.

Definition UNIQUE_IP_INCR : Z := 200.

(** ** Mongoose's data *)

(** [struct mg_addr]: the 16 address bytes, the port, the IPv6 flag. *)
Record mg_addr := {
  ip : list Z;
  port : Z;
  is_ip6 : bool
}.

#[global] Instance mg_addr_eq_dec : EqDecision mg_addr.
Proof. solve_decision. Defined.

(** The fields of [struct mg_connection] that the handlers use.  A
    pointer to such a connection is its key in the store [mgr]. *)
Record mg_connection := {
  c_id : Z;
  c_rem : mg_addr;
  is_accepted : bool;
  is_closing : bool;
  is_websocket : bool;
  recv : list Z               (* the bytes of the receive buffer *)
}.

Definition no_addr : mg_addr := {| ip := []; port := 0; is_ip6 := false |}.

(** What a dangling pointer reads. *)
Definition no_connection : mg_connection :=
  {| c_id := 0; c_rem := no_addr; is_accepted := false; is_closing := false;
     is_websocket := false; recv := [] |}.

Definition set_is_closing (c : mg_connection) : mg_connection :=
  {| c_id := c_id c; c_rem := c_rem c; is_accepted := is_accepted c;
     is_closing := true; is_websocket := is_websocket c; recv := recv c |}.

Definition set_recv (buf : list Z) (c : mg_connection) : mg_connection :=
  {| c_id := c_id c; c_rem := c_rem c; is_accepted := is_accepted c;
     is_closing := is_closing c; is_websocket := is_websocket c; recv := buf |}.

(** [struct mg_http_message], as far as [net_handler_http] reads it. *)
Record mg_http_message := {
  method : string;
  uri : string;
  hdrs : list (string * string)
}.

(** ** The data of [net_io.c] *)

(** The connection record of one client or server. *)
Record connection := {
  conn_c : Z;                 (* the pointer [c] *)
  conn_id : Z;
  conn_rem : mg_addr;
  conn_service : Z;
  keep_alive : bool;
  encoding_gzip : bool;
  rem_buf : string
}.

Definition with_keep_alive (conn : connection) : connection :=
  {| conn_c := conn_c conn; conn_id := conn_id conn; conn_rem := conn_rem conn;
     conn_service := conn_service conn; keep_alive := true;
     encoding_gzip := encoding_gzip conn; rem_buf := rem_buf conn |}.

Definition with_encoding_gzip (conn : connection) : connection :=
  {| conn_c := conn_c conn; conn_id := conn_id conn; conn_rem := conn_rem conn;
     conn_service := conn_service conn; keep_alive := keep_alive conn;
     encoding_gzip := true; rem_buf := rem_buf conn |}.

Record unique_IP := {
  addr : mg_addr;
  service_seen : Z;           (* the field [service] *)
  seen : Z
}.

(** [ips] is the block that the pointer [ips] points to, as the entries
    that it has room for; [size] is the length of the array as the code
    counts it, and [idx] the number of entries in use.  [overflow] is
    no member of the struct: it lists the writes that went behind the
    end of the block, each with its index.  C gives such a write no
    meaning; the model notes it and goes on with the block as it is. *)
Record unique_IPS := {
  ips : list unique_IP;
  idx : Z;
  size : Z;
  overflow : list (Z * unique_IP)
}.

Definition no_unique_IP : unique_IP :=
  {| addr := no_addr; service_seen := 0; seen := 0 |}.

(** The per-service members of [Modes.stat] and its HTTP counters. *)
Inductive stat_field :=
| cli_accepted | cli_removed | cli_unknown
| srv_connected | srv_removed | srv_unknown
| bytes_recv | bytes_sent | unique_clients.

Inductive http_field :=
| HTTP_get_requests | HTTP_keep_alive_recv | HTTP_keep_alive_sent
| HTTP_websockets | HTTP_400_responses | HTTP_404_responses
| HTTP_500_responses.

#[global] Instance stat_field_eq_dec : EqDecision stat_field.
Proof. solve_decision. Defined.

#[global] Instance http_field_eq_dec : EqDecision http_field.
Proof. solve_decision. Defined.

(** The members of [net_service] that change while the services run. *)
Record net_service := {
  num_connections : Z;        (* uint16_t *)
  mem_allocated : Z;
  last_err : option string;
  host : string               (* a [char] array *)
}.

Inductive frame_handler := decode_RAW_message | decode_SBS_message.

(** What the handlers ask of Mongoose, of the system and of the frame
    handlers, in the order of the calls. *)
Inductive effect :=
| Shutdown (c : Z)
| TimerFree (service : Z)
| SignalHandler
| FrameHandler (h : frame_handler) (c : Z) (is_server : bool) (loops : Z)
| MgPrintf (c : Z) (text : string)
| MgSend (c : Z) (len : Z)
| MgHttpReply (c : Z) (status : Z) (headers body : string)
| MgWsUpgrade (c : Z)
| MgHttpServeFile (c : Z) (file extra_headers : string).

Record modes := {
  exit : bool;
  Modes_keep_alive : bool;
  web_page : string;
  web_root : string;
  connections : list (list connection);
  stat : stat_field -> list Z;
  stat_http : http_field -> Z;
  services : list net_service;
  mgr : gmap Z mg_connection;
  g_unique_ips : unique_IPS;
  headers : list ascii;       (* the static buffer of [set_headers] *)
  effects : list effect
}.

Definition set_exit (v : bool) (s : modes) : modes :=
  {| exit := v; Modes_keep_alive := Modes_keep_alive s; web_page := web_page s;
     web_root := web_root s; connections := connections s; stat := stat s;
     stat_http := stat_http s; services := services s; mgr := mgr s;
     g_unique_ips := g_unique_ips s; headers := headers s;
     effects := effects s |}.

Definition set_connections (v : list (list connection)) (s : modes) : modes :=
  {| exit := exit s; Modes_keep_alive := Modes_keep_alive s;
     web_page := web_page s; web_root := web_root s; connections := v;
     stat := stat s; stat_http := stat_http s; services := services s;
     mgr := mgr s; g_unique_ips := g_unique_ips s; headers := headers s;
     effects := effects s |}.

Definition set_stat (v : stat_field -> list Z) (s : modes) : modes :=
  {| exit := exit s; Modes_keep_alive := Modes_keep_alive s;
     web_page := web_page s; web_root := web_root s;
     connections := connections s; stat := v; stat_http := stat_http s;
     services := services s; mgr := mgr s; g_unique_ips := g_unique_ips s;
     headers := headers s; effects := effects s |}.

Definition set_stat_http (v : http_field -> Z) (s : modes) : modes :=
  {| exit := exit s; Modes_keep_alive := Modes_keep_alive s;
     web_page := web_page s; web_root := web_root s;
     connections := connections s; stat := stat s; stat_http := v;
     services := services s; mgr := mgr s; g_unique_ips := g_unique_ips s;
     headers := headers s; effects := effects s |}.

Definition set_services (v : list net_service) (s : modes) : modes :=
  {| exit := exit s; Modes_keep_alive := Modes_keep_alive s;
     web_page := web_page s; web_root := web_root s;
     connections := connections s; stat := stat s; stat_http := stat_http s;
     services := v; mgr := mgr s; g_unique_ips := g_unique_ips s;
     headers := headers s; effects := effects s |}.

Definition set_mgr (v : gmap Z mg_connection) (s : modes) : modes :=
  {| exit := exit s; Modes_keep_alive := Modes_keep_alive s;
     web_page := web_page s; web_root := web_root s;
     connections := connections s; stat := stat s; stat_http := stat_http s;
     services := services s; mgr := v; g_unique_ips := g_unique_ips s;
     headers := headers s; effects := effects s |}.

Definition set_g_unique_ips (v : unique_IPS) (s : modes) : modes :=
  {| exit := exit s; Modes_keep_alive := Modes_keep_alive s;
     web_page := web_page s; web_root := web_root s;
     connections := connections s; stat := stat s; stat_http := stat_http s;
     services := services s; mgr := mgr s; g_unique_ips := v;
     headers := headers s; effects := effects s |}.

Definition set_headers_buf (v : list ascii) (s : modes) : modes :=
  {| exit := exit s; Modes_keep_alive := Modes_keep_alive s;
     web_page := web_page s; web_root := web_root s;
     connections := connections s; stat := stat s; stat_http := stat_http s;
     services := services s; mgr := mgr s; g_unique_ips := g_unique_ips s;
     headers := v; effects := effects s |}.

Definition do_effect (e : effect) (s : modes) : modes :=
  {| exit := exit s; Modes_keep_alive := Modes_keep_alive s;
     web_page := web_page s; web_root := web_root s;
     connections := connections s; stat := stat s; stat_http := stat_http s;
     services := services s; mgr := mgr s; g_unique_ips := g_unique_ips s;
     headers := headers s; effects := effects s ++ [e] |}.

(** [*c] for the pointer [c]. *)
Definition deref (s : modes) (c : Z) : mg_connection :=
  default no_connection (mgr s !! c).

(** [Modes.stat.f [service] += n], on 64-bit counters. *)
Definition add_stat (f : stat_field) (service n : Z) (s : modes) : modes :=
  set_stat
    (fun g =>
       if decide (g = f)
       then alter (fun x => wrap64 (x + n)) (Z.to_nat service) (stat s g)
       else stat s g) s.

Definition bump_http (f : http_field) (s : modes) : modes :=
  set_stat_http
    (fun g => if decide (g = f) then wrap64 (stat_http s g + 1) else stat_http s g)
    s.

(** [Modes.stat.f [service]]. *)
Definition stat_of (s : modes) (f : stat_field) (service : Z) : Z :=
  nth (Z.to_nat service) (stat s f) 0.

Definition blank_service : net_service :=
  {| num_connections := 0; mem_allocated := 0; last_err := None; host := "" |}.

Definition service_of (s : modes) (service : Z) : net_service :=
  nth (Z.to_nat service) (services s) blank_service.

(** [Modes.connections [service]]. *)
Definition connections_of (s : modes) (service : Z) : list connection :=
  nth (Z.to_nat service) (connections s) [].

(** [*net_num_connections (service) += d], a [uint16_t]. *)
Definition add_num_connections (service d : Z) (s : modes) : modes :=
  set_services
    (alter (fun sv =>
              {| num_connections := wrap16 (num_connections sv + d);
                 mem_allocated := mem_allocated sv; last_err := last_err sv;
                 host := host sv |})
           (Z.to_nat service) (services s)) s.

(** [net_mem_allocated]; its [assert]s are taken to hold. *)
Definition net_mem_allocated (service sz : Z) (s : modes) : modes :=
  set_services
    (alter (fun sv =>
              {| num_connections := num_connections sv;
                 mem_allocated := wrap64 (mem_allocated sv + sz);
                 last_err := last_err sv; host := host sv |})
           (Z.to_nat service) (services s)) s.

Definition net_store_error (service : Z) (err : string) (s : modes) : modes :=
  set_services
    (alter (fun sv =>
              {| num_connections := num_connections sv;
                 mem_allocated := mem_allocated sv;
                 last_err := Some err; host := host sv |})
           (Z.to_nat service) (services s)) s.

(** [modeS_signal_handler (0)], defined elsewhere: it raises the exit
    flag that [net_handler] tests. *)
Definition modeS_signal_handler (s : modes) : modes :=
  set_exit true (do_effect SignalHandler s).

(** ** The list of unique client addresses *)

(** The entries in use: the first [idx] elements of the array, as far
    as the block holds them. *)
Definition recorded (u : unique_IPS) : list unique_IP :=
  take (Z.to_nat (idx u)) (ips u).

(** [realloc (ips, bytes)] when it succeeds: a block of [bytes] bytes,
    which has room for [bytes / sizeof (unique_IP)] entries.  The
    entries that fit are kept; what [realloc] leaves in new room is not
    read before it is written. *)
Definition realloc_ips (sizeof_unique_IP bytes : Z) (l : list unique_IP)
    : list unique_IP :=
  resize (Z.to_nat (bytes / sizeof_unique_IP)) no_unique_IP l.

(** [client_is_unique].  [sizeof_unique_IP] is [sizeof (unique_IP)],
    [realloc_ok] tells whether [realloc] succeeds when it is called,
    [now] is what [get_FILETIME_now] stores.  The code asks [realloc]
    for [size + UNIQUE_IP_INCR] bytes and then counts [UNIQUE_IP_INCR]
    more entries in [size].  The new entry goes to the index [idx]: into
    the block when the block reaches that far, else behind its end,
    which [overflow] notes.  (After such a write the loop of a later
    call would read behind the block as well; the model compares the
    entries of the block.) *)
Definition client_is_unique (sizeof_unique_IP : Z) (a : mg_addr) (service : Z)
    (realloc_ok : bool) (now : Z) (u : unique_IPS) : bool * unique_IPS :=
  if existsb (fun e => bool_decide (ip (addr e) = ip a)) (recorded u)
  then (false, u)
  else
    let full := size u <=? idx u in
    if full && negb realloc_ok then (true, u)
    else
      let u1 :=
        if full
        then {| ips := realloc_ips sizeof_unique_IP (size u + UNIQUE_IP_INCR)
                         (ips u);
                idx := idx u; size := size u + UNIQUE_IP_INCR;
                overflow := overflow u |}
        else u in
      let e := {| addr := a; service_seen := service; seen := now |} in
      (true,
       if idx u1 <? Z.of_nat (length (ips u1))
       then {| ips := <[Z.to_nat (idx u1) := e]> (ips u1);
               idx := idx u1 + 1; size := size u1; overflow := overflow u1 |}
       else {| ips := ips u1; idx := idx u1 + 1; size := size u1;
               overflow := overflow u1 ++ [(idx u1, e)] |}).

Definition client_is_extern (a : mg_addr) : bool :=
  if is_ip6 a then false
  else negb (bool_decide (take 4 (ip a) = [127; 0; 0; 1])).

Definition client_deny (a : mg_addr) (service : Z) : bool := false.

(** The two events that [client_handler] is called with. *)
Inductive client_event := ClientAccept | ClientClose.

(** [client_handler]; the beep and the log file are left out. *)
Definition client_handler (sizeof_unique_IP : Z) (c : Z) (service : Z)
    (ev : client_event) (realloc_ok : bool) (now : Z) (s : modes)
    : bool * modes :=
  let a := c_rem (deref s c) in
  match ev with
  | ClientAccept =>
      let '(unique, u) :=
        client_is_unique sizeof_unique_IP a service realloc_ok now
          (g_unique_ips s) in
      let s := set_g_unique_ips u s in
      let s := if unique then add_stat unique_clients service 1 s else s in
      let deny :=
        if client_is_extern a then
          (if client_deny a service then true else false)
        else false in
      (negb deny, s)
  | ClientClose => (true, s)
  end.

(** ** Connection records *)

(** The loop of [connection_get]: the first record in the list of the
    service that carries the service and the remote address of [c], with
    its position in the list. *)
Definition first_record (s : modes) (c service : Z) : option (nat * connection) :=
  list_find
    (fun conn => conn_service conn = service
                 /\ conn_rem conn = c_rem (deref s c))
    (connections_of s service).

(** [connection_get]: the first record of the service with the address
    of [c], as its position in the list, or [NULL] and one more unknown. *)
Definition connection_get (c : Z) (service : Z) (is_server : bool)
    (s : modes) : option nat * modes :=
  match first_record s c service with
  | Some (i, _) => (Some i, s)
  | None =>
      (None, add_stat (if is_server then srv_unknown else cli_unknown) service 1 s)
  end.

(** ** C strings *)

Definition CR : ascii := ascii_of_nat 13.
Definition LF : ascii := ascii_of_nat 10.
Definition NUL : ascii := ascii_of_nat 0.
Definition CRLF : string := String CR (String LF EmptyString).

(** The string that starts at the head of a [char] array. *)
Fixpoint c_str (l : list ascii) : string :=
  match l with
  | [] => EmptyString
  | ch :: rest => if decide (ch = NUL) then EmptyString else String ch (c_str rest)
  end.

(** [strcpy (buf + off, str)]: the characters and the final NUL.  (What
    would land past the end of the array is dropped; in C it is an
    overflow.) *)
Definition strcpy_at (off : nat) (str : string) (buf : list ascii) : list ascii :=
  list_inserts off (list_ascii_of_string str ++ [NUL]) buf.

Definition tolower (ch : ascii) : ascii :=
  let n := nat_of_ascii ch in
  if (65 <=? n)%nat && (n <=? 90)%nat then ascii_of_nat (n + 32) else ch.

(** Comparison of two strings without regard to case, as [stricmp]
    does it: 0 when they are equal, else the difference of the first
    characters that differ (the end counts as 0). *)
Fixpoint stricmp (a b : string) : Z :=
  match a, b with
  | EmptyString, EmptyString => 0
  | EmptyString, String y _ => - Z.of_nat (nat_of_ascii (tolower y))
  | String x _, EmptyString => Z.of_nat (nat_of_ascii (tolower x))
  | String x a', String y b' =>
      if decide (tolower x = tolower y) then stricmp a' b'
      else Z.of_nat (nat_of_ascii (tolower x)) - Z.of_nat (nat_of_ascii (tolower y))
  end.

(** Modelled from the spec: Mongoose's [mg_vcasecmp], which is not part
    of [net_io.c], compares a counted string with a C string without
    regard to case: the difference of the first characters that differ,
    and the difference of the lengths when one is the start of the
    other, so 0 exactly when the two are equal up to case. *)
Fixpoint mg_vcasecmp (str1 str2 : string) : Z :=
  match str1, str2 with
  | EmptyString, _ => - Z.of_nat (String.length str2)
  | String _ _, EmptyString => Z.of_nat (String.length str1)
  | String x a', String y b' =>
      if decide (tolower x = tolower y) then mg_vcasecmp a' b'
      else Z.of_nat (nat_of_ascii (tolower x)) - Z.of_nat (nat_of_ascii (tolower y))
  end.

(** A string in lower case. *)
Fixpoint lower (str : string) : string :=
  match str with
  | EmptyString => EmptyString
  | String ch rest => String (tolower ch) (lower rest)
  end.

(** Modelled from the spec: Mongoose's [mg_http_get_header], the value
    of the first header with the given name, names compared without
    regard to case. *)
Definition mg_http_get_header (hm : mg_http_message) (name : string)
    : option string :=
  match list_find (fun h => mg_vcasecmp h.1 name = 0) (hdrs hm) with
  | Some (_, h) => Some h.2
  | None => None
  end.

(** [strrchr (uri, '.') != NULL]. *)
Fixpoint has_dot (str : string) : bool :=
  match str with
  | EmptyString => false
  | String ch rest => bool_decide (ch = "."%char) || has_dot rest
  end.

(** [uri + 1]. *)
Definition string_tail (str : string) : string :=
  match str with EmptyString => EmptyString | String _ rest => rest end.

Section Handlers.

(** What [net_io.c] takes from its headers and from other files. *)
Variable sizeof_connection : Z.
Variable sizeof_unique_IP : Z.
Variable sizeof_mg_http_uri : nat.
Variable MODES_CONTENT_TYPE_JSON : string.
Variable MODES_CONTENT_TYPE_PNG : string.
Variable MODES_CONTENT_TYPE_ICON : string.
Variable favicon_png_len : Z.
Variable favicon_ico_len : Z.
Variable net_str_addr : mg_addr -> string.
Variable net_error_details : Z -> string -> string -> string.
(** What a frame handler leaves of the receive buffer it is given. *)
Variable frame_handle : frame_handler -> list Z -> Z -> list Z.

(** What the surroundings decide during one call of [net_handler]:
    whether [calloc] and [realloc] succeed, the time, the JSON texts
    and whether the requested file exists. *)
Record env := {
  calloc_ok : bool;
  realloc_ok : bool;
  now : Z;
  receiver_json : string;
  aircraft_json : option string;
  file_found : bool
}.

(** [net_conn_free].  The record [this_conn] is given as its position
    in the list of the service. *)
Definition net_conn_free (this_conn : option nat) (service : Z) (s : modes)
    : modes :=
  match this_conn with
  | None => s
  | Some i =>
      match connections_of s service !! i with
      | None => s
      | Some conn =>
          let s :=
            set_connections
              (alter (delete i) (Z.to_nat service) (connections s)) s in
          let s :=
            if is_accepted (deref s (conn_c conn))
            then add_stat cli_removed service 1 s
            else add_stat srv_removed service 1 s in
          net_mem_allocated service (- sizeof_connection) s
      end
  end.

(** The loop of [net_connection_recv]: the handler is called while the
    receive buffer of [c] holds bytes.  [fuel] bounds the number of
    calls. *)
Fixpoint recv_loop (fuel : nat) (h : frame_handler) (c : Z) (is_server : bool)
    (loops : Z) (s : modes) : modes :=
  match fuel with
  | O => s
  | S fuel' =>
      let msg := recv (deref s c) in
      if bool_decide (msg = []) then s
      else
        let s := do_effect (FrameHandler h c is_server loops) s in
        let s :=
          set_mgr (<[c := set_recv (frame_handle h msg loops) (deref s c)]>
                     (mgr s)) s in
        recv_loop fuel' h c is_server (loops + 1) s
  end.

(** [net_connection_recv].  A handler takes at least one byte from a
    buffer that is not empty, so one call for each byte is enough; with
    a handler that takes nothing the C loop does not end. *)
Definition net_connection_recv (conn : option nat) (service : Z)
    (h : frame_handler) (is_server : bool) (s : modes) : modes :=
  match conn with
  | None => s
  | Some i =>
      match connections_of s service !! i with
      | None => s
      | Some rec =>
          let c := conn_c rec in
          recv_loop (length (recv (deref s c))) h c is_server 0 s
      end
  end.

(** [set_headers]: the text that the returned pointer [headers] shows,
    and the state. *)
Definition set_headers (cli : connection) (content_type : option string)
    (s : modes) : string * modes :=
  let buf := <[0%nat := NUL]> (headers s) in
  let '(buf, p) :=
    match content_type with
    | Some ct =>
        let buf := strcpy_at 0 "Content-Type: " buf in
        let p := String.length "Content-Type: " in
        let buf := strcpy_at 0 ct buf in
        let p := (p + String.length ct)%nat in
        let buf := strcpy_at p CRLF buf in
        (buf, (p + 2)%nat)
    | None => (buf, 0%nat)
    end in
  let s := set_headers_buf buf s in
  if Modes_keep_alive s && keep_alive cli then
    let s :=
      set_headers_buf
        (strcpy_at p ("Connection: keep-alive" ++ CRLF) (headers s)) s in
    let s := bump_http HTTP_keep_alive_sent s in
    (c_str (headers s), s)
  else (c_str (headers s), s).

(** [send_favicon]; the image is stood for by its length. *)
Definition send_favicon (c : Z) (cli : connection) (data_len : Z)
    (content_type : string) (s : modes) : modes :=
  let '(hd, s) := set_headers cli (Some content_type) s in
  let s :=
    do_effect
      (MgPrintf c ("HTTP/1.1 200 OK" ++ CRLF ++ "Content-Length: "
                   ++ pretty data_len ++ CRLF ++ hd ++ CRLF)) s in
  do_effect (MgSend c data_len) s.

(** [cli->keep_alive = true] and its like: the record at position [i]
    of the HTTP service is replaced. *)
Definition update_cli (i : nat) (f : connection -> connection) (s : modes)
    : modes :=
  set_connections
    (alter (alter f i) (Z.to_nat MODES_NET_SERVICE_HTTP) (connections s)) s.

Definition CORS_HEADER : string :=
  ("Access-Control-Allow-Origin: *" ++ CRLF)%string.

(** [net_handler_http] from [Modes.stat.HTTP_get_requests++] on: the
    request goes to the endpoint that its path names.  [i] is the
    position of the record [cli]. *)
Definition http_dispatch (e : env) (c : Z) (hm : mg_http_message)
    (uri : string) (i : nat) (s : modes) : Z * modes :=
  let s := bump_http HTTP_get_requests s in
  let s :=
    match mg_http_get_header hm "Connection" with
    | Some v =>
        if mg_vcasecmp v "keep-alive" =? 0
        then update_cli i with_keep_alive (bump_http HTTP_keep_alive_recv s)
        else s
    | None => s
    end in
  let s :=
    match mg_http_get_header hm "Accept-Encoding" with
    | Some v =>
        if mg_vcasecmp v "gzip" =? 0 then update_cli i with_encoding_gzip s
        else s
    | None => s
    end in
  let cli :=
    nth i (connections_of s MODES_NET_SERVICE_HTTP)
      {| conn_c := c; conn_id := 0; conn_rem := no_addr; conn_service := 0;
         keep_alive := false; encoding_gzip := false; rem_buf := "" |} in
  if bool_decide (uri = "/") then
    (301, do_effect
            (MgPrintf c ("HTTP/1.1 301 Moved" ++ CRLF ++ "Location: "
                         ++ web_page s ++ CRLF ++ "Content-Length: 0"
                         ++ CRLF ++ CRLF)) s)
  else if stricmp uri "/echo" =? 0 then
    (200, do_effect (MgWsUpgrade c) s)
  else if stricmp uri "/data/receiver.json" =? 0 then
    (200, do_effect
            (MgHttpReply c 200 (MODES_CONTENT_TYPE_JSON ++ CRLF)
               (receiver_json e)) s)
  else
    let is_dump1090 := stricmp uri "/data.json" =? 0 in
    let is_extended :=
      (stricmp uri "/data/aircraft.json" =? 0)
      || (stricmp uri "/chunks/chunks.json" =? 0) in
    if is_dump1090 || is_extended then
      match aircraft_json e with
      | None =>
          (500, bump_http HTTP_500_responses
                  (set_mgr (<[c := set_is_closing (deref s c)]> (mgr s)) s))
      | Some data =>
          if is_extended
          then (200, do_effect (MgHttpReply c 200 CORS_HEADER data) s)
          else (200, do_effect
                       (MgHttpReply c 200
                          (CORS_HEADER ++ MODES_CONTENT_TYPE_JSON ++ CRLF)
                          data) s)
      end
    else if has_dot uri then
      if stricmp uri "/favicon.png" =? 0 then
        (200, send_favicon c cli favicon_png_len MODES_CONTENT_TYPE_PNG s)
      else if stricmp uri "/favicon.ico" =? 0 then
        (200, send_favicon c cli favicon_ico_len MODES_CONTENT_TYPE_ICON s)
      else
        let '(hd, s) := set_headers cli None s in
        let file := (web_root s ++ "/" ++ string_tail uri)%string in
        let s := do_effect (MgHttpServeFile c file hd) s in
        if file_found e then (200, s)
        else (404, bump_http HTTP_404_responses s)
    else
      let '(hd, s) := set_headers cli None s in
      (404, do_effect (MgHttpReply c 404 hd ("Not found" ++ String LF "")) s).

(** [net_handler_http]: the status it returns, and the state. *)
Definition net_handler_http (e : env) (c : Z) (hm : mg_http_message)
    (s : modes) : Z * modes :=
  let uri := substring 0 (Nat.min (sizeof_mg_http_uri - 1)
                            (String.length (uri hm))) (uri hm) in
  let is_GET := mg_vcasecmp (method hm) "GET" =? 0 in
  let is_HEAD := mg_vcasecmp (method hm) "HEAD" =? 0 in
  if negb is_GET && negb is_HEAD then
    (400, bump_http HTTP_400_responses s)
  else
    match connection_get c MODES_NET_SERVICE_HTTP false s with
    | (None, s) => (505, s)
    | (Some i, s) => http_dispatch e c hm uri i s
    end.

(** ** The event handler *)

(** The events of Mongoose with the data that comes with them. *)
Inductive mg_event :=
| MG_EV_ERROR (err : string)
| MG_EV_OPEN
| MG_EV_POLL
| MG_EV_RESOLVE
| MG_EV_CONNECT
| MG_EV_ACCEPT
| MG_EV_READ (bytes : Z)
| MG_EV_WRITE (bytes : Z)
| MG_EV_CLOSE
| MG_EV_HTTP_MSG (hm : mg_http_message)
| MG_EV_HTTP_CHUNK (hm : mg_http_message)
| MG_EV_WS_OPEN
| MG_EV_WS_MSG
| MG_EV_WS_CTL
| MG_EV_OTHER.

(** The record that [net_handler] fills in after [calloc]. *)
Definition new_connection (s : modes) (c service : Z) : connection :=
  {| conn_c := c; conn_id := c_id (deref s c); conn_rem := c_rem (deref s c);
     conn_service := service; keep_alive := false; encoding_gzip := false;
     rem_buf := net_str_addr (c_rem (deref s c)) |}.

(** [LIST_ADD_TAIL (connection, &Modes.connections [service], conn)]. *)
Definition list_add_tail (service : Z) (conn : connection) (s : modes) : modes :=
  set_connections
    (alter (fun l => l ++ [conn]) (Z.to_nat service) (connections s)) s.

Definition close_connection (c : Z) (s : modes) : modes :=
  set_mgr (<[c := set_is_closing (deref s c)]> (mgr s)) s.

Definition connection_failed_active (c service : Z) (err : string) (s : modes)
    : modes :=
  net_store_error service (net_error_details c "Connection out " err) s.

Definition connection_failed_accepted (c service : Z) (err : string)
    (s : modes) : modes :=
  let '(conn, s) := connection_get c service true s in
  let s := net_store_error service (net_error_details c "Connection in " err) s in
  net_conn_free conn service s.

Definition net_handler_websocket (c : Z) (ev : mg_event) (s : modes) : modes :=
  if is_websocket (deref s c) then
    match ev with
    | MG_EV_WS_CTL => bump_http HTTP_websockets s
    | _ => s
    end
  else s.

(** [net_handler (c, ev, ev_data, fn_data)]; [service] is [fn_data], a
    service in the range of [ASSERT_SERVICE]. *)
Definition net_handler (e : env) (c : Z) (ev : mg_event) (service : Z)
    (s : modes) : modes :=
  if exit s then s
  else
    match ev with
    | MG_EV_POLL | MG_EV_OPEN => s
    | MG_EV_ERROR err =>
        if (MODES_NET_SERVICE_FIRST <=? service)
           && (service <=? MODES_NET_SERVICE_LAST) then
          if is_accepted (deref s c) then
            connection_failed_accepted c service err s
          else
            (* [remote] is the array [host] of the service, which is no
               null pointer: [else if (remote)] is always taken *)
            let s := connection_failed_active c service err s in
            let s := do_effect (TimerFree service) s in
            modeS_signal_handler s
        else s
    | MG_EV_RESOLVE => s
    | MG_EV_CONNECT =>
        let s := do_effect (TimerFree service) s in
        if negb (calloc_ok e) then close_connection c s
        else
          let s := list_add_tail service (new_connection s c service) s in
          let s := add_num_connections service 1 s in
          let s := net_mem_allocated service sizeof_connection s in
          add_stat srv_connected service 1 s
    | MG_EV_ACCEPT =>
        let '(ok, s) :=
          client_handler sizeof_unique_IP c service ClientAccept (realloc_ok e)
            (now e) s in
        if negb ok then close_connection c (do_effect (Shutdown c) s)
        else if negb (calloc_ok e) then close_connection c s
        else
          let s := list_add_tail service (new_connection s c service) s in
          let s := add_num_connections service 1 s in
          let s := net_mem_allocated service sizeof_connection s in
          add_stat cli_accepted service 1 s
    | MG_EV_READ bytes =>
        let s := add_stat bytes_recv service bytes s in
        if service =? MODES_NET_SERVICE_RAW_IN then
          let '(conn, s) := connection_get c service false s in
          let s := net_connection_recv conn service decode_RAW_message false s in
          let '(conn, s) := connection_get c service true s in
          net_connection_recv conn service decode_RAW_message true s
        else if service =? MODES_NET_SERVICE_SBS_IN then
          let '(conn, s) := connection_get c service true s in
          net_connection_recv conn service decode_SBS_message true s
        else s
    | MG_EV_WRITE bytes => add_stat bytes_sent service bytes s
    | MG_EV_CLOSE =>
        let '(_, s) :=
          client_handler sizeof_unique_IP c service ClientClose (realloc_ok e)
            (now e) s in
        let '(conn, s) := connection_get c service false s in
        let s := net_conn_free conn service s in
        let '(conn, s) := connection_get c service true s in
        let s := net_conn_free conn service s in
        add_num_connections service (-1) s
    | _ =>
        if service =? MODES_NET_SERVICE_HTTP then
          match ev with
          | MG_EV_WS_OPEN | MG_EV_WS_MSG | MG_EV_WS_CTL =>
              net_handler_websocket c ev s
          | MG_EV_HTTP_MSG hm => (net_handler_http e c hm s).2
          | _ => s
          end
        else s
    end.

(** The reactor hands the events to the handler one after the other. *)
Definition net_handler_all
    (evs : list (env * Z * mg_event * Z)) (s : modes) : modes :=
  fold_left (fun s '(e, c, ev, service) => net_handler e c ev service s) evs s.

End Handlers.

(** ** The unique client addresses *)

Section UniqueClients.

(** The array has [size] entries, of which the first [idx] are in use,
    as [net_init] leaves it and as it stays until it is full. *)
Definition wf_unique (u : unique_IPS) : Prop :=
  0 <= idx u <= size u /\ Z.of_nat (length (ips u)) = size u.

(** The address bytes of [a] are those of an entry in use. *)
Definition known (a : mg_addr) (u : unique_IPS) : Prop :=
  exists e, In e (recorded u) /\ ip (addr e) = ip a.

Definition new_entry (a : mg_addr) (service now : Z) : unique_IP :=
  {| addr := a; service_seen := service; seen := now |}.

(** What [net_init] sets up when its [calloc] succeeds:
    [UNIQUE_IP_INCR] entries, none in use. *)
Definition init_unique_ips : unique_IPS :=
  {| ips := repeat no_unique_IP (Z.to_nat UNIQUE_IP_INCR); idx := 0;
     size := UNIQUE_IP_INCR; overflow := [] |}.

Lemma known_existsb (a : mg_addr) (u : unique_IPS) :
  existsb (fun e => bool_decide (ip (addr e) = ip a)) (recorded u) = true
  <-> known a u.
Proof.
  unfold known. rewrite existsb_exists. split.
  - intros (e & Hin & Hb). apply bool_decide_eq_true in Hb. eauto.
  - intros (e & Hin & Hb). exists e. split; [exact Hin|].
    now apply bool_decide_eq_true.
Qed.

Lemma classic_known (a : mg_addr) (u : unique_IPS) : known a u \/ ~ known a u.
Proof.
  destruct (existsb (fun e => bool_decide (ip (addr e) = ip a)) (recorded u))
    eqn:Hex.
  - left. now apply known_existsb.
  - right. intros Hk. apply known_existsb in Hk. congruence.
Qed.

Lemma In_take {A} (x : A) (n : nat) (l : list A) : In x (take n l) -> In x l.
Proof.
  intros H. rewrite <- (take_drop n l). apply in_or_app. now left.
Qed.

Lemma take_insert_here {A} (l : list A) (n : nat) (x : A) :
  (n < length l)%nat -> take (S n) (<[n := x]> l) = take n l ++ [x].
Proof.
  intros Hn. rewrite (take_S_r _ n x).
  - rewrite take_insert_ge by lia. reflexivity.
  - now apply list_lookup_insert_eq.
Qed.

Variable sizeof_unique_IP : Z.

(** One call of [client_is_unique] that does not grow the array, by
    cases: the address is known, there is room, or the array is full
    and [realloc] fails. *)
Lemma client_is_unique_cases (a : mg_addr) (service : Z) (ok : bool)
    (now : Z) (u : unique_IPS) :
  wf_unique u ->
  let r := (client_is_unique sizeof_unique_IP a service ok now u).1 in
  let u' := (client_is_unique sizeof_unique_IP a service ok now u).2 in
  (known a u -> r = false /\ u' = u)
  /\ (~ known a u -> idx u < size u ->
      r = true /\ recorded u' = recorded u ++ [new_entry a service now]
      /\ idx u' = idx u + 1 /\ size u' = size u
      /\ overflow u' = overflow u /\ wf_unique u')
  /\ (~ known a u -> size u <= idx u -> ok = false -> r = true /\ u' = u).
Proof.
  intros [Hidx Hlen]. unfold client_is_unique.
  destruct (existsb _ (recorded u)) eqn:Hex.
  { apply known_existsb in Hex. cbn [fst snd].
    repeat split; auto; try tauto. }
  assert (Hnk : ~ known a u).
  { intros Hk. apply known_existsb in Hk. congruence. }
  split; [tauto|].
  destruct (size u <=? idx u) eqn:Hfull.
  - apply Z.leb_le in Hfull. split; [intros _ Hlt; lia|].
    intros _ _ ->. cbn [negb andb fst snd]. auto.
  - apply Z.leb_gt in Hfull. cbn [negb andb fst snd].
    assert (Hn : (Z.to_nat (idx u) < length (ips u))%nat) by lia.
    replace (idx u <? Z.of_nat (length (ips u))) with true
      by (symmetry; apply Z.ltb_lt; lia).
    split; [|intros _ Hle; lia].
    intros _ _. split; [reflexivity|]. cbn [idx size overflow ips].
    split.
    { unfold recorded. cbn [ips idx].
      replace (Z.to_nat (idx u + 1)) with (S (Z.to_nat (idx u))) by lia.
      now apply take_insert_here. }
    repeat split; try reflexivity; cbn [idx size ips]; try lia.
    rewrite length_insert. exact Hlen.
Qed.

(** What [client_handler] does on an accept: the list is the one that
    [client_is_unique] leaves, the counter of the service goes up by one
    exactly when [client_is_unique] answers [true], and nobody is
    denied. *)
Lemma client_handler_accept (c service : Z) (ok : bool) (now : Z) (s : modes) :
  let res :=
    client_is_unique sizeof_unique_IP (c_rem (deref s c)) service ok now
      (g_unique_ips s) in
  let out := client_handler sizeof_unique_IP c service ClientAccept ok now s in
  out.1 = true
  /\ g_unique_ips out.2 = res.2
  /\ stat out.2 unique_clients
     = (if res.1
        then alter (fun x => wrap64 (x + 1)) (Z.to_nat service)
               (stat s unique_clients)
        else stat s unique_clients).
Proof.
  unfold client_handler.
  destruct (client_is_unique _ _ service ok now (g_unique_ips s)) as [r u].
  cbn [fst snd]. split.
  - unfold client_deny. destruct (client_is_extern _); reflexivity.
  - destruct r; split; reflexivity.
Qed.

(** C10 fails on the code where the array has to grow.  The claim is
    that a call with an address that is not in the list appends exactly
    one entry to it.  When the array that [net_init] allocated is full
    ([idx = size], at least [UNIQUE_IP_INCR] entries) and [realloc]
    succeeds, the code has asked for [size + UNIQUE_IP_INCR] bytes, not
    entries: with entries of two bytes or more the block shrinks to
    [(size + UNIQUE_IP_INCR) / sizeof (unique_IP)] entries, fewer than
    are in use, while [size] is counted up by [UNIQUE_IP_INCR]; the new
    entry is then written at the index [idx], behind the end of the
    block (a heap overflow), and the address is in no entry of the
    block. *)
Theorem client_is_unique_overflows (a : mg_addr) (service now : Z)
    (u : unique_IPS) :
  2 <= sizeof_unique_IP ->
  wf_unique u -> UNIQUE_IP_INCR <= size u -> idx u = size u ->
  ~ known a u ->
  let r := client_is_unique sizeof_unique_IP a service true now u in
  let room := (size u + UNIQUE_IP_INCR) / sizeof_unique_IP in
  r.1 = true
  /\ size r.2 = size u + UNIQUE_IP_INCR /\ idx r.2 = idx u + 1
  /\ ips r.2 = take (Z.to_nat room) (ips u)
  /\ Z.of_nat (length (ips r.2)) = room
  /\ room <= idx u
  /\ overflow r.2 = overflow u ++ [(idx u, new_entry a service now)]
  /\ ~ known a r.2.
Proof.
  intros HS [Hidx Hlen] Hmin Hfull Hnk.
  assert (Hroom : 0 <= (size u + UNIQUE_IP_INCR) / sizeof_unique_IP <= size u).
  { split; [apply Z.div_pos; unfold UNIQUE_IP_INCR in *; lia|].
    apply Z.div_le_upper_bound; [lia|]. unfold UNIQUE_IP_INCR in *. nia. }
  unfold client_is_unique.
  destruct (existsb _ (recorded u)) eqn:Hex.
  { exfalso. apply Hnk. now apply known_existsb. }
  replace (size u <=? idx u) with true by (symmetry; apply Z.leb_le; lia).
  cbn [negb andb idx size ips overflow].
  assert (Hre : realloc_ips sizeof_unique_IP (size u + UNIQUE_IP_INCR) (ips u)
                = take (Z.to_nat ((size u + UNIQUE_IP_INCR) / sizeof_unique_IP))
                    (ips u)).
  { unfold realloc_ips. apply resize_le. lia. }
  rewrite Hre.
  assert (Hlt : length (take (Z.to_nat ((size u + UNIQUE_IP_INCR)
                                         / sizeof_unique_IP)) (ips u))
                = Z.to_nat ((size u + UNIQUE_IP_INCR) / sizeof_unique_IP)).
  { rewrite length_take. lia. }
  replace (idx u <? Z.of_nat (length (take _ (ips u)))) with false
    by (symmetry; apply Z.ltb_ge; rewrite Hlt; lia).
  cbn [fst snd idx size ips overflow].
  split; [reflexivity|]. split; [reflexivity|]. split; [reflexivity|].
  split; [reflexivity|]. split; [rewrite Hlt; lia|]. split; [lia|].
  split; [reflexivity|].
  intros (e & Hin & He). apply Hnk. exists e. split; [|exact He].
  unfold recorded in *. cbn [idx ips] in Hin.
  rewrite (take_ge (ips u)) by lia.
  now apply In_take, In_take in Hin.
Qed.

End UniqueClients.

(** ** The header block *)

Section Headers.

Lemma c_str_lookup (chars : list ascii) :
  forall b : list ascii,
    (forall (j : nat) ch, chars !! j = Some ch -> b !! j = Some ch) ->
    b !! length chars = Some NUL ->
    ~ In NUL chars ->
    c_str b = string_of_list_ascii chars.
Proof.
  induction chars as [|ch chars IH]; intros b Hpre Hend Hnul.
  - destruct b as [|x b]; [discriminate|]. simpl in Hend.
    inversion Hend; subst. simpl. destruct (decide (NUL = NUL)); congruence.
  - pose proof (Hpre 0%nat ch eq_refl) as H0.
    destruct b as [|x b]; [discriminate|]. simpl in H0. inversion H0; subst.
    simpl. destruct (decide (ch = NUL)) as [E|_].
    + exfalso. apply Hnul. left. now symmetry.
    + f_equal. apply IH.
      * intros j c Hj. exact (Hpre (S j) c Hj).
      * exact Hend.
      * intros Hin. apply Hnul. now right.
Qed.

Lemma length_list_ascii_of_string (str : string) :
  length (list_ascii_of_string str) = String.length str.
Proof. induction str as [|ch str IH]; simpl; congruence. Qed.

(** After [strcpy (headers, str)] the array shows [str], whatever is
    copied later to places behind its final NUL. *)
Lemma strcpy_front (str : string) (buf : list ascii) (j : nat) :
  (String.length str < length buf)%nat -> (j <= String.length str)%nat ->
  strcpy_at 0 str buf !! j = (list_ascii_of_string str ++ [NUL]) !! j.
Proof.
  intros Hlen Hj. unfold strcpy_at.
  replace ((list_ascii_of_string str ++ [NUL]) !! j)
    with ((list_ascii_of_string str ++ [NUL]) !! (j - 0)%nat)
    by (f_equal; lia).
  apply list_lookup_inserts;
    rewrite ?length_app, ?length_list_ascii_of_string; simpl; lia.
Qed.

Lemma strcpy_behind (off : nat) (str : string) (buf : list ascii) (j : nat) :
  (j < off)%nat -> strcpy_at off str buf !! j = buf !! j.
Proof. intros Hj. unfold strcpy_at. now apply list_lookup_inserts_lt. Qed.

Lemma length_strcpy_at (off : nat) (str : string) (buf : list ascii) :
  length (strcpy_at off str buf) = length buf.
Proof. unfold strcpy_at. apply length_inserts. Qed.

(** The array holds [str] and its final NUL at its head. *)
Definition shows (str : string) (b : list ascii) : Prop :=
  forall j : nat,
    (j <= String.length str)%nat ->
    b !! j = (list_ascii_of_string str ++ [NUL]) !! j.

Lemma shows_c_str (str : string) (b : list ascii) :
  ~ In NUL (list_ascii_of_string str) -> shows str b -> c_str b = str.
Proof.
  intros Hnul Hshow.
  transitivity (string_of_list_ascii (list_ascii_of_string str));
    [|apply string_of_list_ascii_of_string].
  apply c_str_lookup; [| |exact Hnul].
  - intros j ch Hj.
    assert (Hlt : (j < length (list_ascii_of_string str))%nat)
      by (eapply lookup_lt_Some; eassumption).
    rewrite length_list_ascii_of_string in Hlt.
    rewrite Hshow by lia. rewrite lookup_app_l; [exact Hj|].
    rewrite length_list_ascii_of_string. lia.
  - rewrite length_list_ascii_of_string, Hshow by lia.
    rewrite lookup_app_r by (rewrite length_list_ascii_of_string; lia).
    rewrite length_list_ascii_of_string, Nat.sub_diag. reflexivity.
Qed.

Lemma shows_strcpy (str : string) (b : list ascii) :
  (String.length str < length b)%nat -> shows str (strcpy_at 0 str b).
Proof. intros Hlen j Hj. now apply strcpy_front. Qed.

Lemma shows_behind (str later : string) (off : nat) (b : list ascii) :
  (String.length str < off)%nat -> shows str b ->
  shows str (strcpy_at off later b).
Proof.
  intros Hoff Hshow j Hj. rewrite strcpy_behind by lia. now apply Hshow.
Qed.

(** What [set_headers] returns for a content type: the content type
    itself.  The second [strcpy] goes to the head of the array, over the
    text ["Content-Type: "] and not behind it, and ends the string there;
    the line end and the keep-alive line land behind that NUL. *)
Lemma set_headers_text (cli : connection) (ct : string) (s : modes) :
  (String.length ct < length (headers s))%nat ->
  ~ In NUL (list_ascii_of_string ct) ->
  (set_headers cli (Some ct) s).1 = ct.
Proof.
  intros Hlen Hnul. unfold set_headers.
  set (b0 := <[0%nat := NUL]> (headers s)).
  set (b1 := strcpy_at 0 "Content-Type: " b0).
  set (b2 := strcpy_at 0 ct b1).
  set (p := (String.length "Content-Type: " + String.length ct)%nat).
  set (b3 := strcpy_at p CRLF b2).
  assert (Hl1 : length b1 = length (headers s)).
  { unfold b1, b0. now rewrite length_strcpy_at, length_insert. }
  assert (H2 : shows ct b2) by (apply shows_strcpy; lia).
  assert (H3 : shows ct b3).
  { apply shows_behind; [|exact H2]. unfold p. simpl. lia. }
  cbn [headers set_headers_buf Modes_keep_alive].
  destruct (Modes_keep_alive s && keep_alive cli); cbn [fst headers bump_http
    set_stat_http set_headers_buf].
  - apply shows_c_str; [exact Hnul|].
    apply shows_behind; [|exact H3]. unfold p. simpl. lia.
  - apply shows_c_str; assumption.
Qed.

End Headers.

(** ** The method of an HTTP request *)

Lemma mg_vcasecmp_zero (a : string) :
  forall b, mg_vcasecmp a b = 0 <-> lower a = lower b.
Proof.
  induction a as [|x a IH]; intros [|y b]; simpl.
  - tauto.
  - split; [lia|discriminate].
  - split; [lia|discriminate].
  - destruct (decide (tolower x = tolower y)) as [E|N].
    + rewrite IH, E. split; [congruence|]. intros H. now inversion H.
    + split; [|intros H; inversion H; contradiction].
      intros H. exfalso. apply N.
      assert (Hn : nat_of_ascii (tolower x) = nat_of_ascii (tolower y)) by lia.
      rewrite <- (ascii_nat_embedding (tolower x)),
              <- (ascii_nat_embedding (tolower y)), Hn.
      reflexivity.
Qed.

Section HttpMethod.

Variable sizeof_mg_http_uri : nat.
Variable MODES_CONTENT_TYPE_JSON : string.
Variable MODES_CONTENT_TYPE_PNG : string.
Variable MODES_CONTENT_TYPE_ICON : string.
Variable favicon_png_len : Z.
Variable favicon_ico_len : Z.

Abbreviation net_handler_http' :=
  (net_handler_http sizeof_mg_http_uri MODES_CONTENT_TYPE_JSON
     MODES_CONTENT_TYPE_PNG MODES_CONTENT_TYPE_ICON favicon_png_len
     favicon_ico_len).
Abbreviation http_dispatch' :=
  (http_dispatch MODES_CONTENT_TYPE_JSON MODES_CONTENT_TYPE_PNG
     MODES_CONTENT_TYPE_ICON favicon_png_len favicon_ico_len).

(** The URI as [net_handler_http] copies it for its caller. *)
Definition request_uri (hm : mg_http_message) : string :=
  substring 0 (Nat.min (sizeof_mg_http_uri - 1) (String.length (uri hm)))
    (uri hm).

(** The request is answered without any endpoint being asked: the
    status, the one HTTP counter that goes up, and nothing else
    changes. *)
Definition refused (status : Z) (f : http_field) (s : modes)
    (out : Z * modes) : Prop :=
  out = (status, bump_http f s).

(** C9, as the code has it.  A request whose method is neither GET nor
    HEAD, compared without regard to case, is answered 400 and reaches no
    endpoint.  A GET or HEAD request goes to the dispatch on its path
    when the connection has a record in the list of the HTTP service;
    when it has none the answer is 505 and no endpoint is reached. *)
Theorem net_handler_http_method (e : env) (c : Z) (hm : mg_http_message)
    (s : modes) :
  (lower (method hm) <> "get" -> lower (method hm) <> "head" ->
   refused 400 HTTP_400_responses s (net_handler_http' e c hm s))
  /\ (lower (method hm) = "get" \/ lower (method hm) = "head" ->
      forall i rec,
        first_record s c MODES_NET_SERVICE_HTTP = Some (i, rec) ->
        net_handler_http' e c hm s = http_dispatch' e c hm (request_uri hm) i s)
  /\ (lower (method hm) = "get" \/ lower (method hm) = "head" ->
      first_record s c MODES_NET_SERVICE_HTTP = None ->
      net_handler_http' e c hm s
      = (505, add_stat cli_unknown MODES_NET_SERVICE_HTTP 1 s)).
Proof.
  assert (HG : mg_vcasecmp (method hm) "GET" = 0 <-> lower (method hm) = "get")
    by apply mg_vcasecmp_zero.
  assert (HH : mg_vcasecmp (method hm) "HEAD" = 0 <-> lower (method hm) = "head")
    by apply mg_vcasecmp_zero.
  unfold net_handler_http, refused, connection_get. fold (request_uri hm).
  destruct (Z.eqb_spec (mg_vcasecmp (method hm) "GET") 0) as [EG|EG];
    destruct (Z.eqb_spec (mg_vcasecmp (method hm) "HEAD") 0) as [EH|EH];
    cbn [negb andb].
  all: split; [|split].
  all: try (intros N1 N2; exfalso; tauto).
  all: try (intros _ i rec ->; reflexivity).
  all: try (intros _ ->; reflexivity).
  all: try (intros _ _; reflexivity).
  all: try (intros [H|H]; tauto).
Qed.

End HttpMethod.

(** ** Read events *)

Lemma nth_alter_here {A} (f : A -> A) (l : list A) (i : nat) (d : A) :
  (i < length l)%nat -> nth i (alter f i l) d = f (nth i l d).
Proof.
  intros Hi. rewrite !nth_lookup, list_lookup_alter_eq.
  destruct (lookup_lt_is_Some_2 l i Hi) as [x ->]. reflexivity.
Qed.

Section ReadEvent.

Variable sizeof_connection : Z.
Variable sizeof_unique_IP : Z.
Variable sizeof_mg_http_uri : nat.
Variable MODES_CONTENT_TYPE_JSON : string.
Variable MODES_CONTENT_TYPE_PNG : string.
Variable MODES_CONTENT_TYPE_ICON : string.
Variable favicon_png_len : Z.
Variable favicon_ico_len : Z.
Variable net_str_addr : mg_addr -> string.
Variable net_error_details : Z -> string -> string -> string.
Variable frame_handle : frame_handler -> list Z -> Z -> list Z.

Abbreviation net_handler' :=
  (net_handler sizeof_connection sizeof_unique_IP sizeof_mg_http_uri
     MODES_CONTENT_TYPE_JSON MODES_CONTENT_TYPE_PNG MODES_CONTENT_TYPE_ICON
     favicon_png_len favicon_ico_len net_str_addr net_error_details frame_handle).

(** A frame handler takes at least one byte from a buffer that holds
    some. *)
Definition consumes : Prop :=
  forall h msg loops,
    msg <> [] -> (length (frame_handle h msg loops) < length msg)%nat.

(** What the frame handlers leave alone. *)
Definition same_records (s s' : modes) : Prop :=
  connections s' = connections s /\ stat s' = stat s
  /\ forall c, c_rem (deref s' c) = c_rem (deref s c).

Lemma deref_set_recv (s s0 : modes) (c c' : Z) (x : mg_connection) :
  deref (set_mgr (<[c := x]> (mgr s)) s0) c'
  = if decide (c = c') then x else deref s c'.
Proof.
  unfold deref. cbn [mgr set_mgr]. destruct (decide (c = c')) as [->|N].
  - now rewrite lookup_insert_eq.
  - now rewrite lookup_insert_ne.
Qed.

Lemma recv_loop_spec (h : frame_handler) (c : Z) (is_server : bool)
    (fuel : nat) :
  consumes ->
  forall loops s,
    (length (recv (deref s c)) <= fuel)%nat ->
    let s' := recv_loop frame_handle fuel h c is_server loops s in
    recv (deref s' c) = []
    /\ same_records s s'
    /\ exists calls,
         effects s' = effects s ++ calls
         /\ Forall (fun ef => exists k, ef = FrameHandler h c is_server k) calls
         /\ (recv (deref s c) <> [] -> calls <> []).
Proof.
  intros Hcons. induction fuel as [|fuel IH]; intros loops s Hlen; simpl.
  - assert (E : recv (deref s c) = []).
    { destruct (recv (deref s c)); [reflexivity|simpl in Hlen; lia]. }
    split; [exact E|]. split; [unfold same_records; auto|].
    exists []. rewrite app_nil_r. split; [reflexivity|]. split; [constructor|].
    congruence.
  - destruct (decide (recv (deref s c) = [])) as [E|N].
    + rewrite bool_decide_eq_true_2 by exact E.
      split; [exact E|]. split; [unfold same_records; auto|].
      exists []. rewrite app_nil_r. split; [reflexivity|].
      split; [constructor|]. congruence.
    + rewrite bool_decide_eq_false_2 by exact N.
      set (s0 := do_effect (FrameHandler h c is_server loops) s).
      set (s1 := set_mgr _ s0).
      assert (Hd : forall c', deref s1 c'
                = if decide (c = c')
                  then set_recv (frame_handle h (recv (deref s c)) loops)
                         (deref s0 c)
                  else deref s c').
      { intros c'. unfold s1. rewrite deref_set_recv.
        destruct (decide (c = c')); reflexivity. }
      assert (Hlen1 : (length (recv (deref s1 c)) <= fuel)%nat).
      { rewrite Hd. destruct (decide (c = c)); [|congruence].
        cbn [recv set_recv]. pose proof (Hcons h _ loops N). lia. }
      destruct (IH (loops + 1) s1 Hlen1) as (E & (Hc & Hs & Hr) & calls & He & Hall & _).
      split; [exact E|]. split.
      * unfold same_records. rewrite Hc, Hs. split; [reflexivity|].
        split; [reflexivity|]. intros c'. rewrite Hr, Hd.
        destruct (decide (c = c')) as [->|]; reflexivity.
      * exists (FrameHandler h c is_server loops :: calls).
        rewrite He. split.
        { unfold s1, s0. cbn [effects set_mgr do_effect].
          now rewrite <- app_assoc. }
        split; [constructor; eauto|]. intros _. discriminate.
Qed.

Lemma first_record_same (s s' : modes) (c service : Z) :
  same_records s s' -> first_record s' c service = first_record s c service.
Proof.
  intros (Hc & _ & Hr). unfold first_record, connections_of.
  rewrite Hc, Hr. reflexivity.
Qed.

Lemma first_record_lookup (s : modes) (c service : Z) (i : nat)
    (rec : connection) :
  first_record s c service = Some (i, rec) ->
  connections_of s service !! i = Some rec.
Proof. unfold first_record. intros H. now apply list_find_Some in H. Qed.

(** One call of [net_connection_recv] on the record that
    [connection_get] finds. *)
Lemma net_connection_recv_found (h : frame_handler) (is_server : bool)
    (c service : Z) (i : nat) (rec : connection) (s : modes) :
  consumes ->
  first_record s c service = Some (i, rec) ->
  let s' :=
    net_connection_recv frame_handle (connection_get c service is_server s).1
      service h is_server (connection_get c service is_server s).2 in
  recv (deref s' (conn_c rec)) = []
  /\ same_records s s'
  /\ exists calls,
       effects s' = effects s ++ calls
       /\ Forall (fun ef => exists k,
                    ef = FrameHandler h (conn_c rec) is_server k) calls
       /\ (recv (deref s (conn_c rec)) <> [] -> calls <> []).
Proof.
  intros Hcons Hfind. unfold connection_get. rewrite Hfind. cbn [fst snd].
  unfold net_connection_recv. rewrite (first_record_lookup _ _ _ _ _ Hfind).
  apply recv_loop_spec; [exact Hcons|lia].
Qed.

Lemma net_connection_recv_none (h : frame_handler) (is_server : bool)
    (c service : Z) (s : modes) :
  first_record s c service = None ->
  let s' :=
    net_connection_recv frame_handle (connection_get c service is_server s).1
      service h is_server (connection_get c service is_server s).2 in
  s' = add_stat (if is_server then srv_unknown else cli_unknown) service 1 s.
Proof. intros Hfind. unfold connection_get. rewrite Hfind. reflexivity. Qed.

Lemma net_connection_recv_empty (h : frame_handler) (is_server : bool)
    (c service : Z) (i : nat) (rec : connection) (s : modes) :
  first_record s c service = Some (i, rec) ->
  recv (deref s (conn_c rec)) = [] ->
  net_connection_recv frame_handle (connection_get c service is_server s).1
    service h is_server (connection_get c service is_server s).2 = s.
Proof.
  intros Hfind Hempty. unfold connection_get. rewrite Hfind. cbn [fst snd].
  unfold net_connection_recv. rewrite (first_record_lookup _ _ _ _ _ Hfind).
  rewrite Hempty. reflexivity.
Qed.

Lemma first_record_add_stat (f : stat_field) (service' n : Z) (s : modes)
    (c service : Z) :
  first_record (add_stat f service' n s) c service = first_record s c service.
Proof. reflexivity. Qed.

Lemma stat_add_stat_other (f g : stat_field) (service n : Z) (s : modes) :
  g <> f -> stat (add_stat f service n s) g = stat s g.
Proof.
  intros N. unfold add_stat. cbn [stat set_stat].
  destruct (decide (g = f)); [contradiction|reflexivity].
Qed.

Lemma stat_add_stat_same (f : stat_field) (service n : Z) (s : modes) :
  stat (add_stat f service n s) f
  = alter (fun x => wrap64 (x + n)) (Z.to_nat service) (stat s f).
Proof.
  unfold add_stat. cbn [stat set_stat].
  destruct (decide (f = f)); [reflexivity|contradiction].
Qed.

(** The frame handler [h] has been run on the receive buffer of the
    record [rec], through a lookup as client or as server, until the
    buffer was empty, and no other call was made. *)
Definition handled (h : frame_handler) (is_server : bool) (rec : connection)
    (s s' : modes) : Prop :=
  recv (deref s' (conn_c rec)) = []
  /\ exists calls,
       effects s' = effects s ++ calls
       /\ Forall (fun ef => exists k,
                    ef = FrameHandler h (conn_c rec) is_server k) calls
       /\ (recv (deref s (conn_c rec)) <> [] -> calls <> []).

(** A Read event that arrives while the exit flag is clear. *)
Lemma read_event_running (e : env) (c bytes service : Z) (s : modes) :
  consumes -> exit s = false ->
  let s' := net_handler' e c (MG_EV_READ bytes) service s in
  stat s' bytes_recv
  = alter (fun x => wrap64 (x + bytes)) (Z.to_nat service) (stat s bytes_recv)
  /\ ((Z.to_nat service < length (stat s bytes_recv))%nat ->
      stat_of s' bytes_recv service
      = wrap64 (stat_of s bytes_recv service + bytes))
  /\ (forall i rec,
        first_record s c service = Some (i, rec) ->
        (service = MODES_NET_SERVICE_RAW_IN ->
         handled decode_RAW_message false rec s s')
        /\ (service = MODES_NET_SERVICE_SBS_IN ->
            handled decode_SBS_message true rec s s'))
  /\ (first_record s c service = None -> effects s' = effects s)
  /\ (service <> MODES_NET_SERVICE_RAW_IN ->
      service <> MODES_NET_SERVICE_SBS_IN -> effects s' = effects s).
Proof.
  intros Hcons Hexit.
  cut (let s' := net_handler' e c (MG_EV_READ bytes) service s in
       stat s' bytes_recv
       = alter (fun x => wrap64 (x + bytes)) (Z.to_nat service)
           (stat s bytes_recv)
       /\ (forall i rec,
             first_record s c service = Some (i, rec) ->
             (service = MODES_NET_SERVICE_RAW_IN ->
              handled decode_RAW_message false rec s s')
             /\ (service = MODES_NET_SERVICE_SBS_IN ->
                 handled decode_SBS_message true rec s s'))
       /\ (first_record s c service = None -> effects s' = effects s)
       /\ (service <> MODES_NET_SERVICE_RAW_IN ->
           service <> MODES_NET_SERVICE_SBS_IN -> effects s' = effects s)).
  { cbv zeta. intros (H1 & H2). split; [exact H1|]. split; [|exact H2].
    intros Hi. unfold stat_of. rewrite H1.
    now apply (nth_alter_here (fun x => wrap64 (x + bytes))). }
  unfold net_handler. rewrite Hexit.
  set (s1 := add_stat bytes_recv service bytes s).
  assert (Hs1 : stat s1 bytes_recv
                = alter (fun x => wrap64 (x + bytes)) (Z.to_nat service)
                    (stat s bytes_recv)) by apply stat_add_stat_same.
  assert (He1 : effects s1 = effects s) by reflexivity.
  assert (Hd1 : forall c', deref s1 c' = deref s c') by reflexivity.
  destruct (Z.eqb_spec service MODES_NET_SERVICE_RAW_IN) as [ER|NR].
  - (* RAW_IN: two lookups *)
    destruct (first_record s c service) as [[i rec]|] eqn:Hfind.
    + change (first_record s c service) with (first_record s1 c service) in Hfind.
      pose proof (net_connection_recv_found decode_RAW_message false c service
                    i rec s1 Hcons Hfind) as H2.
      cbv zeta in H2.
      destruct (connection_get c service false s1) as [conn sA].
      cbn [fst snd] in H2.
      set (s2 := net_connection_recv frame_handle conn service
                   decode_RAW_message false sA) in *.
      destruct H2 as (Hempty & Hsame & calls & Hcalls & Hall & Hne).
      assert (Hfind2 : first_record s2 c service = Some (i, rec))
        by (rewrite (first_record_same s1 s2); assumption).
      pose proof (net_connection_recv_empty decode_RAW_message true c service
                    i rec s2 Hfind2 Hempty) as H3.
      destruct (connection_get c service true s2) as [conn' sB].
      cbn [fst snd] in H3. rewrite H3.
      split; [|split; [|split]].
      * destruct Hsame as (_ & -> & _). exact Hs1.
      * intros i' rec' Heq. inversion Heq; subst i' rec'. split.
        -- intros _. split; [exact Hempty|]. exists calls.
           rewrite Hcalls, He1, Hd1 in *. auto.
        -- intros ES. rewrite ES in ER. discriminate.
      * discriminate.
      * intros N. contradiction.
    + change (first_record s c service) with (first_record s1 c service) in Hfind.
      pose proof (net_connection_recv_none decode_RAW_message false c service
                    s1 Hfind) as H2. cbv zeta in H2.
      destruct (connection_get c service false s1) as [conn sA].
      cbn [fst snd] in H2. rewrite H2.
      set (s2 := add_stat cli_unknown service 1 s1).
      assert (Hfind2 : first_record s2 c service = None) by exact Hfind.
      pose proof (net_connection_recv_none decode_RAW_message true c service
                    s2 Hfind2) as H3. cbv zeta in H3.
      destruct (connection_get c service true s2) as [conn' sB].
      cbn [fst snd] in H3. rewrite H3.
      split; [|split; [|split]].
      * rewrite !stat_add_stat_other by discriminate. exact Hs1.
      * discriminate.
      * reflexivity.
      * intros N. contradiction.
  - destruct (Z.eqb_spec service MODES_NET_SERVICE_SBS_IN) as [ES|NS].
    + (* SBS_IN: one lookup *)
      destruct (first_record s c service) as [[i rec]|] eqn:Hfind.
      * change (first_record s c service) with (first_record s1 c service) in Hfind.
        pose proof (net_connection_recv_found decode_SBS_message true c service
                      i rec s1 Hcons Hfind) as H2.
        cbv zeta in H2.
        destruct (connection_get c service true s1) as [conn sA].
        cbn [fst snd] in H2.
        destruct H2 as (Hempty & Hsame & calls & Hcalls & Hall & Hne).
        split; [|split; [|split]].
        -- destruct Hsame as (_ & -> & _). exact Hs1.
        -- intros i' rec' Heq. inversion Heq; subst i' rec'. split.
           ++ intros ER. contradiction.
           ++ intros _. split; [exact Hempty|]. exists calls.
              rewrite Hcalls, He1, Hd1 in *. auto.
        -- discriminate.
        -- intros _ N. contradiction.
      * change (first_record s c service) with (first_record s1 c service) in Hfind.
        pose proof (net_connection_recv_none decode_SBS_message true c service
                      s1 Hfind) as H2. cbv zeta in H2.
        destruct (connection_get c service true s1) as [conn sA].
        cbn [fst snd] in H2. rewrite H2.
        split; [|split; [|split]].
        -- rewrite stat_add_stat_other by discriminate. exact Hs1.
        -- discriminate.
        -- reflexivity.
        -- intros _ N. contradiction.
    + split; [exact Hs1|]. split; [|split].
      * intros i rec _. split; intros; contradiction.
      * reflexivity.
      * reflexivity.
Qed.

(** C6, as the code has it.  While [Modes.exit] is set the handler
    returns at once: a Read event counts nothing and runs nothing.
    While it is clear, a Read event adds the byte count to the byte
    counter of its service.  For RAW_IN the frame handler
    [decode_RAW_message] runs on the first record of the service that
    carries the address of the socket, through the lookup as client; the
    second lookup, as server, finds the same record with an empty buffer
    and runs nothing.  For SBS_IN there is one lookup, as server, and
    [decode_SBS_message] runs through it.  Without a record, and for the
    other services, no handler runs. *)
Theorem read_event (e : env) (c bytes service : Z) (s : modes) :
  consumes ->
  let s' := net_handler' e c (MG_EV_READ bytes) service s in
  (exit s = true -> s' = s)
  /\ (exit s = false ->
      stat s' bytes_recv
      = alter (fun x => wrap64 (x + bytes)) (Z.to_nat service)
          (stat s bytes_recv)
      /\ ((Z.to_nat service < length (stat s bytes_recv))%nat ->
          stat_of s' bytes_recv service
          = wrap64 (stat_of s bytes_recv service + bytes))
      /\ (forall i rec,
            first_record s c service = Some (i, rec) ->
            (service = MODES_NET_SERVICE_RAW_IN ->
             handled decode_RAW_message false rec s s')
            /\ (service = MODES_NET_SERVICE_SBS_IN ->
                handled decode_SBS_message true rec s s'))
      /\ (first_record s c service = None -> effects s' = effects s)
      /\ (service <> MODES_NET_SERVICE_RAW_IN ->
          service <> MODES_NET_SERVICE_SBS_IN -> effects s' = effects s)).
Proof.
  intros Hcons. split.
  - intros Hexit. unfold net_handler. now rewrite Hexit.
  - intros Hexit. now apply read_event_running.
Qed.

End ReadEvent.

(** ** A small network

    One client, connection 7 of the reactor, at 192.168.1.10:50123. *)

(** Modelled from the spec: the macros [MODES_CONTENT_TYPE_JSON],
    [MODES_CONTENT_TYPE_PNG] and [MODES_CONTENT_TYPE_ICON] of [net_io.h],
    the content types for JSON, PNG and x-icon. *)
Definition demo_type_json : string := "Content-Type: application/json".
Definition demo_type_png : string := "image/png".
Definition demo_type_icon : string := "image/x-icon".

Definition demo_addr : mg_addr :=
  {| ip := [192; 168; 1; 10; 0; 0; 0; 0; 0; 0; 0; 0; 0; 0; 0; 0];
     port := 50123; is_ip6 := false |}.

(** A frame handler that takes one line, or all there is. *)
Fixpoint after_newline (msg : list Z) : list Z :=
  match msg with
  | [] => []
  | b :: rest => if b =? 10 then rest else after_newline rest
  end.

Definition demo_frame_handle (h : frame_handler) (msg : list Z) (loops : Z)
    : list Z :=
  after_newline msg.

Definition demo_str_addr (a : mg_addr) : string := "192.168.1.10:50123".

Definition demo_error_details (c : Z) (in_out err : string) : string :=
  (in_out ++ err)%string.

Definition demo_net_handler :=
  net_handler 64 40 256 demo_type_json demo_type_png demo_type_icon 1150 1150
    demo_str_addr demo_error_details demo_frame_handle.

Definition demo_net_handler_http :=
  net_handler_http 256 demo_type_json demo_type_png demo_type_icon 1150 1150.

Definition demo_env (calloc : bool) : env :=
  {| calloc_ok := calloc; realloc_ok := true; now := 0;
     receiver_json := "{}"; aircraft_json := Some "{}"; file_found := false |}.

Definition demo_client (msg : list Z) : mg_connection :=
  {| c_id := 7; c_rem := demo_addr; is_accepted := true; is_closing := false;
     is_websocket := false; recv := msg |}.

Definition demo_record (service : Z) : connection :=
  {| conn_c := 7; conn_id := 7; conn_rem := demo_addr; conn_service := service;
     keep_alive := false; encoding_gzip := false;
     rem_buf := "192.168.1.10:50123" |}.

(** The services at start, with the client's socket open and its
    receive buffer holding [msg], and the given connection records. *)
Definition demo_modes (msg : list Z) (records : list (list connection)) : modes :=
  {| exit := false; Modes_keep_alive := true; web_page := "index.html";
     web_root := "web_root"; connections := records;
     stat := fun _ => [0; 0; 0; 0; 0]; stat_http := fun _ => 0;
     services := repeat blank_service 5;
     mgr := {[ 7 := demo_client msg ]};
     g_unique_ips := init_unique_ips;
     headers := repeat NUL 200; effects := [] |}.

Definition no_records : list (list connection) := [[]; []; []; []; []].

Definition demo_line : list Z := [77; 83; 71; 10].          (* MSG and a line feed *)

Definition demo_sbs : modes :=
  demo_modes demo_line
    [[]; []; []; [demo_record MODES_NET_SERVICE_SBS_IN]; []].

Definition demo_raw : modes :=
  demo_modes demo_line
    [[]; [demo_record MODES_NET_SERVICE_RAW_IN]; []; []; []].

Definition demo_http : modes :=
  demo_modes [] [[]; []; []; []; [demo_record MODES_NET_SERVICE_HTTP]].

Definition demo_request (m u : string) : mg_http_message :=
  {| method := m; uri := u; hdrs := [] |}.

Lemma after_newline_le (msg : list Z) :
  (length (after_newline msg) <= length msg)%nat.
Proof.
  induction msg as [|b msg IH]; simpl; [lia|].
  destruct (b =? 10); lia.
Qed.

Lemma demo_consumes : consumes demo_frame_handle.
Proof.
  intros h [|b msg] loops Hne; [congruence|].
  unfold demo_frame_handle. simpl.
  pose proof (after_newline_le msg). destruct (b =? 10); lia.
Qed.

(** ** Connection counts *)

(** C4 fails on the code.  An accept whose record cannot be allocated,
    followed by the close of that socket, leaves the RAW_OUT service with
    no connection accepted, none removed, no record, and a connection
    count of 65535: the close takes one from [num_connections] whether or
    not a record was found.  And between the error on an accepted
    connection and its close, one connection is accepted and one removed
    while the count still is 1. *)
Theorem close_without_record_breaks_count :
  (let s :=
     net_handler_all 64 40 256 demo_type_json demo_type_png demo_type_icon
       1150 1150 demo_str_addr demo_error_details demo_frame_handle
       [(demo_env false, 7, MG_EV_ACCEPT, MODES_NET_SERVICE_RAW_OUT);
        (demo_env true, 7, MG_EV_CLOSE, MODES_NET_SERVICE_RAW_OUT)]
       (demo_modes [] no_records) in
   stat_of s cli_accepted MODES_NET_SERVICE_RAW_OUT = 0
   /\ stat_of s cli_removed MODES_NET_SERVICE_RAW_OUT = 0
   /\ connections_of s MODES_NET_SERVICE_RAW_OUT = []
   /\ num_connections (service_of s MODES_NET_SERVICE_RAW_OUT) = 65535)
  /\ (let s :=
        net_handler_all 64 40 256 demo_type_json demo_type_png demo_type_icon
          1150 1150 demo_str_addr demo_error_details demo_frame_handle
          [(demo_env true, 7, MG_EV_ACCEPT, MODES_NET_SERVICE_RAW_OUT);
           (demo_env true, 7, MG_EV_ERROR "socket error",
            MODES_NET_SERVICE_RAW_OUT)]
          (demo_modes [] no_records) in
      stat_of s cli_accepted MODES_NET_SERVICE_RAW_OUT = 1
      /\ stat_of s cli_removed MODES_NET_SERVICE_RAW_OUT = 1
      /\ connections_of s MODES_NET_SERVICE_RAW_OUT = []
      /\ num_connections (service_of s MODES_NET_SERVICE_RAW_OUT) = 1).
Proof. vm_compute. repeat split; reflexivity. Qed.

(** The same two events with the allocation succeeding keep the count. *)
Example accept_then_close :
  let s :=
    net_handler_all 64 40 256 demo_type_json demo_type_png demo_type_icon
      1150 1150 demo_str_addr demo_error_details demo_frame_handle
      [(demo_env true, 7, MG_EV_ACCEPT, MODES_NET_SERVICE_RAW_OUT);
       (demo_env true, 7, MG_EV_CLOSE, MODES_NET_SERVICE_RAW_OUT)]
      (demo_modes [] no_records) in
  stat_of s cli_accepted MODES_NET_SERVICE_RAW_OUT = 1
  /\ stat_of s cli_removed MODES_NET_SERVICE_RAW_OUT = 1
  /\ connections_of s MODES_NET_SERVICE_RAW_OUT = []
  /\ num_connections (service_of s MODES_NET_SERVICE_RAW_OUT) = 0.
Proof. vm_compute. repeat split; reflexivity. Qed.

(** ** Read events on the small network *)

(** The reading of C6: during the event the frame handler [h] is run for
    the connection [c] through the lookup as client and through the
    lookup as server. *)
Definition handled_on_both (h : frame_handler) (c : Z) (s s' : modes) : Prop :=
  exists calls,
    effects s' = effects s ++ calls
    /\ (exists k, In (FrameHandler h c false k) calls)
    /\ (exists k, In (FrameHandler h c true k) calls).

Lemma read_event_witness :
  handled decode_SBS_message true
    (demo_record MODES_NET_SERVICE_SBS_IN) demo_sbs
    (demo_net_handler (demo_env true) 7 (MG_EV_READ 4)
       MODES_NET_SERVICE_SBS_IN demo_sbs).
Proof.
  destruct (read_event 64 40 256 demo_type_json demo_type_png demo_type_icon
              1150 1150 demo_str_addr demo_error_details demo_frame_handle
              (demo_env true) 7 4 MODES_NET_SERVICE_SBS_IN demo_sbs
              demo_consumes) as (_ & Hrun).
  destruct (Hrun eq_refl) as (_ & _ & H & _).
  apply (H 0%nat); reflexivity.
Defined.

(** C6 as the specification has it fails: a Read event of SBS_IN runs
    the frame handler through the lookup as server only, and a Read event
    of RAW_IN, whose handler empties the buffer at the first lookup, runs
    it through the lookup as client only. *)
Lemma read_event_counterexample :
  effects (demo_net_handler (demo_env true) 7 (MG_EV_READ 4)
             MODES_NET_SERVICE_SBS_IN demo_sbs)
  = [FrameHandler decode_SBS_message 7 true 0]
  /\ ~ handled_on_both decode_SBS_message 7 demo_sbs
         (demo_net_handler (demo_env true) 7 (MG_EV_READ 4)
            MODES_NET_SERVICE_SBS_IN demo_sbs)
  /\ effects (demo_net_handler (demo_env true) 7 (MG_EV_READ 4)
                MODES_NET_SERVICE_RAW_IN demo_raw)
     = [FrameHandler decode_RAW_message 7 false 0]
  /\ ~ handled_on_both decode_RAW_message 7 demo_raw
         (demo_net_handler (demo_env true) 7 (MG_EV_READ 4)
            MODES_NET_SERVICE_RAW_IN demo_raw).
Proof.
  assert (E1 : effects (demo_net_handler (demo_env true) 7 (MG_EV_READ 4)
                          MODES_NET_SERVICE_SBS_IN demo_sbs)
               = [FrameHandler decode_SBS_message 7 true 0])
    by (vm_compute; reflexivity).
  assert (E2 : effects (demo_net_handler (demo_env true) 7 (MG_EV_READ 4)
                          MODES_NET_SERVICE_RAW_IN demo_raw)
               = [FrameHandler decode_RAW_message 7 false 0])
    by (vm_compute; reflexivity).
  split; [exact E1|]. split; [|split; [exact E2|]].
  - intros (calls & Hc & (k & Hk) & _). rewrite E1 in Hc. simpl in Hc.
    subst calls. destruct Hk as [Hk|[]]. discriminate.
  - intros (calls & Hc & _ & (k & Hk)). rewrite E2 in Hc. simpl in Hc.
    subst calls. destruct Hk as [Hk|[]]. discriminate.
Qed.

(** ** The favicon responses *)

(** C7 fails on the code.  For the PNG and for the x-icon content type
    the text that [set_headers] returns is the bare content type: it
    holds no ["Content-Type: "] and no line end, and the response that
    [send_favicon] prints carries it as a line of its own after the
    Content-Length header. *)
Theorem favicon_headers_lack_content_type :
  (set_headers (demo_record MODES_NET_SERVICE_HTTP) (Some demo_type_png)
     demo_http).1 = demo_type_png
  /\ (set_headers (demo_record MODES_NET_SERVICE_HTTP) (Some demo_type_icon)
        demo_http).1 = demo_type_icon
  /\ effects (send_favicon 7 (demo_record MODES_NET_SERVICE_HTTP) 1150
                demo_type_png demo_http)
     = [MgPrintf 7 ("HTTP/1.1 200 OK" ++ CRLF ++ "Content-Length: 1150" ++ CRLF
                    ++ "image/png" ++ CRLF);
        MgSend 7 1150]
  /\ (demo_net_handler_http (demo_env true) 7
        (demo_request "GET" "/favicon.png") demo_http).1 = 200
  /\ effects (demo_net_handler_http (demo_env true) 7
                (demo_request "GET" "/favicon.png") demo_http).2
     = [MgPrintf 7 ("HTTP/1.1 200 OK" ++ CRLF ++ "Content-Length: 1150" ++ CRLF
                    ++ "image/png" ++ CRLF);
        MgSend 7 1150].
Proof.
  split; [|split].
  - apply set_headers_text; [vm_compute; lia|].
    vm_compute. intuition discriminate.
  - apply set_headers_text; [vm_compute; lia|].
    vm_compute. intuition discriminate.
  - vm_compute. auto.
Qed.

(** ** Requests on the small network *)

Lemma net_handler_http_method_witness :
  refused 400 HTTP_400_responses demo_http
    (demo_net_handler_http (demo_env true) 7 (demo_request "DELETE" "/")
       demo_http).
Proof.
  apply (net_handler_http_method 256 demo_type_json demo_type_png
           demo_type_icon 1150 1150 (demo_env true) 7
           (demo_request "DELETE" "/") demo_http);
    vm_compute; discriminate.
Defined.

(** C9 as the specification has it fails in its second half: a GET
    request on a connection that has no record in the list of the HTTP
    service is answered 505 and nothing is sent, where the same request
    on a connection with a record gets the reply of its endpoint. *)
Lemma get_without_record_counterexample :
  lower (method (demo_request "GET" "/data/receiver.json")) = "get"
  /\ (demo_net_handler_http (demo_env true) 7
        (demo_request "GET" "/data/receiver.json")
        (demo_modes [] no_records)).1 = 505
  /\ effects (demo_net_handler_http (demo_env true) 7
                (demo_request "GET" "/data/receiver.json")
                (demo_modes [] no_records)).2 = []
  /\ (demo_net_handler_http (demo_env true) 7
        (demo_request "GET" "/data/receiver.json") demo_http).1 = 200
  /\ effects (demo_net_handler_http (demo_env true) 7
                (demo_request "GET" "/data/receiver.json") demo_http).2
     = [MgHttpReply 7 200 (demo_type_json ++ CRLF) "{}"].
Proof. vm_compute. auto. Qed.

(** The requests of the seed scenario: DELETE is refused, a file that
    does not exist is not found. *)
Example delete_and_missing_file :
  (demo_net_handler_http (demo_env true) 7 (demo_request "DELETE" "/")
     demo_http).1 = 400
  /\ (demo_net_handler_http (demo_env true) 7
        (demo_request "GET" "/nonexistent.html") demo_http).1 = 404.
Proof. vm_compute. auto. Qed.

(** ** Unique clients on the small network *)

(** The address of the client number [k]. *)
Definition demo_client_addr (k : nat) : mg_addr :=
  {| ip := [10; 0; 0; Z.of_nat k; 0; 0; 0; 0; 0; 0; 0; 0; 0; 0; 0; 0];
     port := 50000; is_ip6 := false |}.

(** The list after [net_init] and 200 clients with addresses of their
    own, for entries of 40 bytes: the array is full. *)
Definition demo_full_unique_ips : unique_IPS :=
  fold_left
    (fun u k =>
       (client_is_unique 40 (demo_client_addr k) MODES_NET_SERVICE_RAW_OUT
          true 0 u).2)
    (seq 0 200) init_unique_ips.

Lemma demo_full_wf :
  wf_unique demo_full_unique_ips
  /\ idx demo_full_unique_ips = size demo_full_unique_ips
  /\ size demo_full_unique_ips = 200
  /\ overflow demo_full_unique_ips = [].
Proof. vm_compute. repeat split; discriminate. Qed.

Lemma demo_addr_unknown : ~ known demo_addr demo_full_unique_ips.
Proof.
  intros Hk. apply known_existsb in Hk. vm_compute in Hk. discriminate Hk.
Qed.

Lemma client_is_unique_overflows_witness :
  let u := demo_full_unique_ips in
  let r := client_is_unique 40 demo_addr MODES_NET_SERVICE_HTTP true 5 u in
  let room := (size u + UNIQUE_IP_INCR) / 40 in
  r.1 = true
  /\ size r.2 = size u + UNIQUE_IP_INCR /\ idx r.2 = idx u + 1
  /\ ips r.2 = take (Z.to_nat room) (ips u)
  /\ Z.of_nat (length (ips r.2)) = room
  /\ room <= idx u
  /\ overflow r.2
     = overflow u ++ [(idx u, new_entry demo_addr MODES_NET_SERVICE_HTTP 5)]
  /\ ~ known demo_addr r.2.
Proof.
  destruct demo_full_wf as (Hwf & Hfull & Hsize & _).
  apply (client_is_unique_overflows 40 demo_addr MODES_NET_SERVICE_HTTP 5
           demo_full_unique_ips).
  - lia.
  - exact Hwf.
  - rewrite Hsize. unfold UNIQUE_IP_INCR. lia.
  - exact Hfull.
  - exact demo_addr_unknown.
Defined.

(** Two accepts from one address count one unique client, in the service
    of the first. *)
Example two_accepts_one_client :
  let s :=
    net_handler_all 64 40 256 demo_type_json demo_type_png demo_type_icon
      1150 1150 demo_str_addr demo_error_details demo_frame_handle
      [(demo_env true, 7, MG_EV_ACCEPT, MODES_NET_SERVICE_RAW_OUT);
       (demo_env true, 7, MG_EV_ACCEPT, MODES_NET_SERVICE_HTTP)]
      (demo_modes [] no_records) in
  stat_of s unique_clients MODES_NET_SERVICE_RAW_OUT = 1
  /\ stat_of s unique_clients MODES_NET_SERVICE_HTTP = 0
  /\ idx (g_unique_ips s) = 1.
Proof. vm_compute. auto. Qed.

(** * Further properties of the network services *)

(** ** Arrays indexed by the service *)

Lemma nth_alter {A} (f : A -> A) (l : list A) (i j : nat) (d : A) :
  (i < length l)%nat ->
  nth j (alter f i l) d = if decide (i = j) then f (nth i l d) else nth j l d.
Proof.
  intros Hi. destruct (decide (i = j)) as [<-|N].
  - now apply nth_alter_here.
  - rewrite !nth_lookup, list_lookup_alter_ne by exact N. reflexivity.
Qed.

Lemma wrap64_step (x : Z) : exists q, wrap64 x = x + 2 ^ 64 * q.
Proof.
  unfold wrap64. exists (- (x / 2 ^ 64)).
  pose proof (Z.div_mod x (2 ^ 64) ltac:(lia)). lia.
Qed.

Lemma to_nat_service (sv sv' : Z) :
  0 <= sv -> 0 <= sv' -> Z.to_nat sv = Z.to_nat sv' <-> sv = sv'.
Proof. lia. Qed.

(** ** The records of a service and its counters *)

(** The connections that the counters of the service tell of: those
    accepted or connected, less those removed. *)
Definition counted_records (s : modes) (sv : Z) : Z :=
  stat_of s cli_accepted sv + stat_of s srv_connected sv
  - stat_of s cli_removed sv - stat_of s srv_removed sv.

(** The list of the service holds records of that service only, as many
    as its counters tell (the counters are 64 bits wide). *)
Definition service_ok (s : modes) (sv : Z) : Prop :=
  Forall (fun conn => conn_service conn = sv) (connections_of s sv)
  /\ (2 ^ 64 | Z.of_nat (length (connections_of s sv)) - counted_records s sv).

(** The arrays over the services have their [MODES_NET_SERVICES_NUM]
    elements, and every service is in order. *)
Definition wf_net (s : modes) : Prop :=
  length (connections s) = 5%nat
  /\ (forall f, length (stat s f) = 5%nat)
  /\ forall sv, 0 <= sv <= 4 -> service_ok s sv.

Definition counts_records (f : stat_field) : bool :=
  match f with
  | cli_accepted | srv_connected | cli_removed | srv_removed => true
  | _ => false
  end.

Lemma wf_net_frame (s s' : modes) :
  connections s' = connections s -> (forall g, stat s' g = stat s g) ->
  wf_net s -> wf_net s'.
Proof.
  intros Ec Es (Hl & Hs & Hok).
  unfold wf_net, service_ok, counted_records, connections_of, stat_of in *.
  rewrite Ec. split; [exact Hl|]. split.
  - intros f. rewrite Es. apply Hs.
  - intros sv Hsv. rewrite !Es. now apply Hok.
Qed.

Lemma stat_of_add_stat (f g : stat_field) (sv sv' n : Z) (s : modes) :
  (Z.to_nat sv < length (stat s f))%nat -> 0 <= sv -> 0 <= sv' ->
  stat_of (add_stat f sv n s) g sv'
  = if decide (g = f /\ sv' = sv) then wrap64 (stat_of s f sv + n)
    else stat_of s g sv'.
Proof.
  intros Hlen Hsv Hsv'. unfold stat_of, add_stat. cbn [stat set_stat].
  destruct (decide (g = f)) as [->|N].
  - rewrite nth_alter by exact Hlen.
    destruct (decide (Z.to_nat sv = Z.to_nat sv')) as [E|N];
      destruct (decide (f = f /\ sv' = sv)) as [[_ E']|N']; try reflexivity.
    + exfalso. apply N'. split; [reflexivity|lia].
    + subst. contradiction.
  - destruct (decide (g = f /\ sv' = sv)) as [[E _]|_]; [contradiction|].
    reflexivity.
Qed.

Lemma wf_net_stat (f : stat_field) (sv n : Z) (s : modes) :
  counts_records f = false -> wf_net s -> wf_net (add_stat f sv n s).
Proof.
  intros Hf (Hl & Hs & Hok).
  unfold wf_net, service_ok, counted_records, connections_of in *.
  split; [exact Hl|]. split.
  - intros g. unfold add_stat. cbn [stat set_stat].
    destruct (decide (g = f)); [rewrite length_alter|]; apply Hs.
  - intros sv' Hsv'. unfold stat_of.
    rewrite !stat_add_stat_other
      by (intros E; rewrite <- E in Hf; discriminate Hf).
    now apply Hok.
Qed.

(** A record is added to the list of [sv] and counted in [f]. *)
Lemma wf_net_added (s s' : modes) (sv : Z) (conn : connection)
    (f : stat_field) :
  wf_net s -> 0 <= sv <= 4 -> f = cli_accepted \/ f = srv_connected ->
  conn_service conn = sv ->
  connections s'
  = alter (fun l => l ++ [conn]) (Z.to_nat sv) (connections s) ->
  (forall g, stat s' g = stat (add_stat f sv 1 s) g) ->
  wf_net s'.
Proof.
  intros (Hl & Hs & Hok) Hsv Hf Hconn Ec Es.
  split; [rewrite Ec, length_alter; exact Hl|]. split.
  { intros g. rewrite Es. unfold add_stat. cbn [stat set_stat].
    destruct (decide (g = f)); [rewrite length_alter|]; apply Hs. }
  intros sv' Hsv'. destruct (Hok sv' Hsv') as [Hall Hdiv].
  assert (Hst : forall g, stat_of s' g sv' = stat_of (add_stat f sv 1 s) g sv')
    by (intros g; unfold stat_of; now rewrite Es).
  unfold service_ok, counted_records, connections_of. rewrite !Hst, Ec.
  rewrite !stat_of_add_stat by (rewrite ?Hs; lia).
  rewrite nth_alter by lia.
  destruct (decide (Z.to_nat sv = Z.to_nat sv')) as [E|N].
  - assert (sv' = sv) by lia. subst sv'.
    fold (connections_of s sv). split.
    + apply Forall_app. split; [exact Hall|]. now repeat constructor.
    + rewrite length_app. cbn [length].
      destruct Hdiv as [k Hk]. unfold counted_records in Hk.
      destruct Hf as [-> | ->];
        repeat (match goal with
                | |- context [decide ?P] => destruct (decide P) as [[? ?]|?]
                end; try discriminate; try tauto);
        match goal with
        | |- context [wrap64 ?x] => destruct (wrap64_step x) as [q ->]
        end;
        exists (k - q); lia.
  - assert (sv' <> sv) by lia.
    fold (connections_of s sv'). split; [exact Hall|].
    repeat (match goal with
            | |- context [decide ?P] => destruct (decide P) as [[? ?]|?]
            end; try contradiction).
    exact Hdiv.
Qed.

(** The record at the position [i] is taken from the list of [sv] and
    counted in [f]. *)
Lemma wf_net_removed (s s' : modes) (sv : Z) (i : nat) (f : stat_field) :
  wf_net s -> 0 <= sv <= 4 -> f = cli_removed \/ f = srv_removed ->
  (i < length (connections_of s sv))%nat ->
  connections s' = alter (delete i) (Z.to_nat sv) (connections s) ->
  (forall g, stat s' g = stat (add_stat f sv 1 s) g) ->
  wf_net s'.
Proof.
  intros (Hl & Hs & Hok) Hsv Hf Hi Ec Es.
  split; [rewrite Ec, length_alter; exact Hl|]. split.
  { intros g. rewrite Es. unfold add_stat. cbn [stat set_stat].
    destruct (decide (g = f)); [rewrite length_alter|]; apply Hs. }
  intros sv' Hsv'. destruct (Hok sv' Hsv') as [Hall Hdiv].
  assert (Hst : forall g, stat_of s' g sv' = stat_of (add_stat f sv 1 s) g sv')
    by (intros g; unfold stat_of; now rewrite Es).
  unfold service_ok, counted_records, connections_of. rewrite !Hst, Ec.
  rewrite !stat_of_add_stat by (rewrite ?Hs; lia).
  rewrite nth_alter by lia.
  destruct (decide (Z.to_nat sv = Z.to_nat sv')) as [E|N].
  - assert (sv' = sv) by lia. subst sv'.
    fold (connections_of s sv). split.
    + now apply Forall_delete.
    + rewrite length_delete by (now apply lookup_lt_is_Some_2).
      destruct Hdiv as [k Hk]. unfold counted_records in Hk.
      destruct Hf as [-> | ->];
        repeat (match goal with
                | |- context [decide ?P] => destruct (decide P) as [[? ?]|?]
                end; try discriminate; try tauto);
        match goal with
        | |- context [wrap64 ?x] => destruct (wrap64_step x) as [q ->]
        end;
        exists (k + q); lia.
  - assert (sv' <> sv) by lia.
    fold (connections_of s sv'). split; [exact Hall|].
    repeat (match goal with
            | |- context [decide ?P] => destruct (decide P) as [[? ?]|?]
            end; try contradiction).
    exact Hdiv.
Qed.

(** A record is changed in its place, and keeps its service. *)
Lemma wf_net_altered (s s' : modes) (sv : Z) (i : nat)
    (h : connection -> connection) :
  wf_net s -> 0 <= sv <= 4 ->
  (forall conn, conn_service (h conn) = conn_service conn) ->
  connections s' = alter (alter h i) (Z.to_nat sv) (connections s) ->
  (forall g, stat s' g = stat s g) ->
  wf_net s'.
Proof.
  intros (Hl & Hs & Hok) Hsv Hh Ec Es.
  split; [rewrite Ec, length_alter; exact Hl|]. split.
  { intros g. rewrite Es. apply Hs. }
  intros sv' Hsv'. destruct (Hok sv' Hsv') as [Hall Hdiv].
  unfold service_ok, counted_records, connections_of, stat_of in *.
  rewrite !Es, Ec. rewrite nth_alter by lia.
  destruct (decide (Z.to_nat sv = Z.to_nat sv')) as [E|N].
  - assert (sv' = sv) by lia. subst sv'. split.
    + apply Forall_alter; [exact Hall|]. intros x _ Hx. now rewrite Hh.
    + rewrite length_alter. exact Hdiv.
  - split; assumption.
Qed.

Lemma wf_net_bump_http (f : http_field) (s : modes) :
  wf_net s -> wf_net (bump_http f s).
Proof. now apply wf_net_frame. Qed.

Lemma wf_net_do_effect (ef : effect) (s : modes) :
  wf_net s -> wf_net (do_effect ef s).
Proof. now apply wf_net_frame. Qed.

Lemma wf_net_set_mgr (v : gmap Z mg_connection) (s : modes) :
  wf_net s -> wf_net (set_mgr v s).
Proof. now apply wf_net_frame. Qed.

Lemma wf_net_set_services (v : list net_service) (s : modes) :
  wf_net s -> wf_net (set_services v s).
Proof. now apply wf_net_frame. Qed.

Lemma wf_net_set_exit (v : bool) (s : modes) :
  wf_net s -> wf_net (set_exit v s).
Proof. now apply wf_net_frame. Qed.

Lemma wf_net_set_g_unique_ips (v : unique_IPS) (s : modes) :
  wf_net s -> wf_net (set_g_unique_ips v s).
Proof. now apply wf_net_frame. Qed.

Lemma wf_net_set_headers (cli : connection) (ct : option string) (s : modes) :
  wf_net s -> wf_net (set_headers cli ct s).2.
Proof.
  intros H. unfold set_headers.
  destruct ct; cbn [Modes_keep_alive set_headers_buf];
    destruct (Modes_keep_alive s && keep_alive cli); cbn [snd];
    (eapply wf_net_frame; [| |exact H]; [reflexivity|intros g; reflexivity]).
Qed.

Lemma wf_net_connection_get (c sv : Z) (is_server : bool) (s : modes) :
  wf_net s -> wf_net (connection_get c sv is_server s).2.
Proof.
  intros H. unfold connection_get.
  destruct (first_record s c sv) as [[i rec]|]; cbn [snd]; [exact H|].
  apply wf_net_stat; [destruct is_server; reflexivity|exact H].
Qed.

Section Records.

Variable sizeof_connection : Z.
Variable sizeof_unique_IP : Z.
Variable sizeof_mg_http_uri : nat.
Variable MODES_CONTENT_TYPE_JSON : string.
Variable MODES_CONTENT_TYPE_PNG : string.
Variable MODES_CONTENT_TYPE_ICON : string.
Variable favicon_png_len : Z.
Variable favicon_ico_len : Z.
Variable net_str_addr : mg_addr -> string.
Variable net_error_details : Z -> string -> string -> string.
Variable frame_handle : frame_handler -> list Z -> Z -> list Z.

Abbreviation net_handler_ :=
  (net_handler sizeof_connection sizeof_unique_IP sizeof_mg_http_uri
     MODES_CONTENT_TYPE_JSON MODES_CONTENT_TYPE_PNG MODES_CONTENT_TYPE_ICON
     favicon_png_len favicon_ico_len net_str_addr net_error_details frame_handle).
Abbreviation net_handler_all_ :=
  (net_handler_all sizeof_connection sizeof_unique_IP sizeof_mg_http_uri
     MODES_CONTENT_TYPE_JSON MODES_CONTENT_TYPE_PNG MODES_CONTENT_TYPE_ICON
     favicon_png_len favicon_ico_len net_str_addr net_error_details frame_handle).

Lemma wf_net_send_favicon (c : Z) (cli : connection) (len : Z) (ct : string)
    (s : modes) :
  wf_net s -> wf_net (send_favicon c cli len ct s).
Proof.
  intros H. unfold send_favicon.
  pose proof (wf_net_set_headers cli (Some ct) s H) as H1.
  destruct (set_headers cli (Some ct) s) as [hd s1]. cbn [snd] in H1.
  now do 2 apply wf_net_do_effect.
Qed.

Lemma wf_net_update_cli (i : nat) (h : connection -> connection) (s : modes) :
  (forall conn, conn_service (h conn) = conn_service conn) ->
  wf_net s -> wf_net (update_cli i h s).
Proof.
  intros Hh H.
  apply (wf_net_altered s _ MODES_NET_SERVICE_HTTP i h H);
    [unfold MODES_NET_SERVICE_HTTP; lia|exact Hh|reflexivity|reflexivity].
Qed.

Lemma wf_net_http_dispatch (e : env) (c : Z) (hm : mg_http_message)
    (uri : string) (i : nat) (s : modes) :
  wf_net s ->
  wf_net (http_dispatch MODES_CONTENT_TYPE_JSON MODES_CONTENT_TYPE_PNG
            MODES_CONTENT_TYPE_ICON favicon_png_len favicon_ico_len
            e c hm uri i s).2.
Proof.
  intros H. unfold http_dispatch.
  set (s1 := bump_http HTTP_get_requests s).
  assert (H1 : wf_net s1) by now apply wf_net_bump_http.
  match goal with
  | |- context [match mg_http_get_header hm "Connection" with
                | Some v => @?a v | None => _ end] =>
      set (s2 := match mg_http_get_header hm "Connection" with
                 | Some v => a v | None => s1 end)
  end.
  assert (H2 : wf_net s2).
  { unfold s2. destruct (mg_http_get_header hm "Connection"); [|exact H1].
    destruct (_ =? 0); [|exact H1].
    apply wf_net_update_cli; [reflexivity|now apply wf_net_bump_http]. }
  clearbody s2. clear H1 s1 H.
  match goal with
  | |- context [match mg_http_get_header hm "Accept-Encoding" with
                | Some v => @?a v | None => _ end] =>
      set (s3 := match mg_http_get_header hm "Accept-Encoding" with
                 | Some v => a v | None => s2 end)
  end.
  assert (H3 : wf_net s3).
  { unfold s3. destruct (mg_http_get_header hm "Accept-Encoding"); [|exact H2].
    destruct (_ =? 0); [|exact H2].
    apply wf_net_update_cli; [reflexivity|exact H2]. }
  clearbody s3. clear H2 s2.
  cbv zeta.
  repeat match goal with
         | |- context [if ?b then _ else _] => destruct b
         | |- context [match aircraft_json e with _ => _ end] =>
             destruct (aircraft_json e)
         | |- context [set_headers ?cli ?ct ?s] =>
             let Hs := fresh "Hs" in
             pose proof (wf_net_set_headers cli ct s H3) as Hs;
             destruct (set_headers cli ct s) as [? ?]; cbn [snd] in Hs
         end;
    cbn [snd];
    repeat first [ apply wf_net_do_effect | apply wf_net_bump_http
                 | apply wf_net_set_mgr | apply wf_net_send_favicon ];
    assumption.
Qed.

Lemma wf_net_handler_http (e : env) (c : Z) (hm : mg_http_message)
    (s : modes) :
  wf_net s ->
  wf_net (net_handler_http sizeof_mg_http_uri MODES_CONTENT_TYPE_JSON
            MODES_CONTENT_TYPE_PNG MODES_CONTENT_TYPE_ICON favicon_png_len
            favicon_ico_len e c hm s).2.
Proof.
  intros H. unfold net_handler_http.
  destruct (negb _ && negb _); [now apply wf_net_bump_http|].
  pose proof (wf_net_connection_get c MODES_NET_SERVICE_HTTP false s H) as H1.
  destruct (connection_get c MODES_NET_SERVICE_HTTP false s) as [[i|] s1];
    cbn [snd] in H1; [|exact H1].
  now apply wf_net_http_dispatch.
Qed.

Lemma recv_loop_frame (h : frame_handler) (c : Z) (is_server : bool)
    (fuel : nat) :
  forall loops s,
    let s' := recv_loop frame_handle fuel h c is_server loops s in
    connections s' = connections s /\ stat s' = stat s
    /\ g_unique_ips s' = g_unique_ips s /\ services s' = services s
    /\ exit s' = exit s.
Proof.
  induction fuel as [|fuel IH]; intros loops s; cbn [recv_loop]; [auto|].
  destruct (bool_decide _); [auto|].
  match goal with |- context [recv_loop _ _ _ _ _ _ ?x] => specialize (IH (loops + 1) x) end.
  cbv zeta in IH. destruct IH as (-> & -> & -> & -> & ->). auto.
Qed.

Lemma wf_net_connection_recv (conn : option nat) (sv : Z) (h : frame_handler)
    (is_server : bool) (s : modes) :
  wf_net s -> wf_net (net_connection_recv frame_handle conn sv h is_server s).
Proof.
  intros H. unfold net_connection_recv.
  destruct conn as [i|]; [|exact H].
  destruct (connections_of s sv !! i) as [rec|]; [|exact H].
  destruct (recv_loop_frame h (conn_c rec) is_server
              (length (recv (deref s (conn_c rec)))) 0 s) as (Ec & Es & _).
  eapply wf_net_frame; [exact Ec|intros g; now rewrite Es|exact H].
Qed.

Lemma wf_net_conn_free (conn : option nat) (sv : Z) (s : modes) :
  wf_net s -> 0 <= sv <= 4 ->
  wf_net (net_conn_free sizeof_connection conn sv s).
Proof.
  intros H Hsv. unfold net_conn_free.
  destruct conn as [i|]; [|exact H].
  destruct (connections_of s sv !! i) as [rec|] eqn:Hi; [|exact H].
  assert (Hlt : (i < length (connections_of s sv))%nat)
    by (eapply lookup_lt_Some; exact Hi).
  cbv zeta.
  destruct (is_accepted _).
  - apply (wf_net_removed s _ sv i cli_removed H Hsv); auto.
  - apply (wf_net_removed s _ sv i srv_removed H Hsv); auto.
Qed.

Lemma wf_net_client_handler (c sv : Z) (ev : client_event) (ok : bool)
    (now : Z) (s : modes) :
  wf_net s -> wf_net (client_handler sizeof_unique_IP c sv ev ok now s).2.
Proof.
  intros H. unfold client_handler. destruct ev; [|exact H].
  destruct (client_is_unique _ _ _ _ _ _) as [unique u]. cbn [snd].
  destruct unique.
  - apply wf_net_stat; [reflexivity|]. now apply wf_net_set_g_unique_ips.
  - now apply wf_net_set_g_unique_ips.
Qed.

Lemma wf_net_new_record (c sv : Z) (f : stat_field) (s : modes) :
  wf_net s -> 0 <= sv <= 4 -> f = cli_accepted \/ f = srv_connected ->
  wf_net (add_stat f sv 1
            (net_mem_allocated sv sizeof_connection
               (add_num_connections sv 1
                  (list_add_tail sv (new_connection net_str_addr s c sv) s)))).
Proof.
  intros H Hsv Hf.
  apply (wf_net_added s _ sv (new_connection net_str_addr s c sv) f H Hsv Hf);
    [reflexivity|reflexivity|]. intros g. reflexivity.
Qed.

(** One event keeps the services in order. *)
Lemma wf_net_handler (e : env) (c : Z) (ev : mg_event) (sv : Z) (s : modes) :
  0 <= sv <= 4 -> wf_net s -> wf_net (net_handler_ e c ev sv s).
Proof.
  intros Hsv H. unfold net_handler.
  destruct (exit s); [exact H|].
  destruct ev; try exact H.
  - (* MG_EV_ERROR *)
    destruct (_ && _); [|exact H].
    destruct (is_accepted _).
    + unfold connection_failed_accepted.
      pose proof (wf_net_connection_get c sv true s H) as H1.
      destruct (connection_get c sv true s) as [conn s1]. cbn [snd] in H1.
      apply wf_net_conn_free; [|exact Hsv].
      unfold net_store_error. now apply wf_net_set_services.
    + unfold modeS_signal_handler, connection_failed_active, net_store_error.
      apply wf_net_set_exit, wf_net_do_effect, wf_net_do_effect.
      now apply wf_net_set_services.
  - (* MG_EV_CONNECT *)
    destruct (negb _).
    + unfold close_connection. now apply wf_net_set_mgr, wf_net_do_effect.
    + cbv zeta.
      pose proof (wf_net_new_record c sv srv_connected
                    (do_effect (TimerFree sv) s)
                    (wf_net_do_effect _ _ H) Hsv (or_intror eq_refl)) as Hn.
      exact Hn.
  - (* MG_EV_ACCEPT *)
    pose proof (wf_net_client_handler c sv ClientAccept (realloc_ok e) (now e)
                  s H) as H1.
    destruct (client_handler sizeof_unique_IP c sv ClientAccept (realloc_ok e)
               (now e) s)
      as [ok s1]. cbn [snd] in H1.
    destruct (negb ok).
    { unfold close_connection. now apply wf_net_set_mgr, wf_net_do_effect. }
    destruct (negb _).
    { unfold close_connection. now apply wf_net_set_mgr. }
    cbv zeta. apply wf_net_new_record; auto.
  - (* MG_EV_READ *)
    assert (H0 : wf_net (add_stat bytes_recv sv bytes s))
      by (apply wf_net_stat; [reflexivity|exact H]).
    destruct (sv =? MODES_NET_SERVICE_RAW_IN).
    + pose proof (wf_net_connection_get c sv false _ H0) as H1.
      destruct (connection_get c sv false _) as [conn s1]. cbn [snd] in H1.
      pose proof (wf_net_connection_recv conn sv decode_RAW_message false s1 H1)
        as H2.
      pose proof (wf_net_connection_get c sv true _ H2) as H3.
      destruct (connection_get c sv true _) as [conn' s3]. cbn [snd] in H3.
      now apply wf_net_connection_recv.
    + destruct (sv =? MODES_NET_SERVICE_SBS_IN); [|exact H0].
      pose proof (wf_net_connection_get c sv true _ H0) as H1.
      destruct (connection_get c sv true _) as [conn s1]. cbn [snd] in H1.
      now apply wf_net_connection_recv.
  - (* MG_EV_WRITE *)
    apply wf_net_stat; [reflexivity|exact H].
  - (* MG_EV_CLOSE *)
    pose proof (wf_net_client_handler c sv ClientClose (realloc_ok e) (now e)
                  s H) as H1.
    destruct (client_handler sizeof_unique_IP c sv ClientClose (realloc_ok e)
               (now e) s)
      as [ok s1]. cbn [snd] in H1.
    pose proof (wf_net_connection_get c sv false _ H1) as H2.
    destruct (connection_get c sv false s1) as [conn s2]. cbn [snd] in H2.
    pose proof (wf_net_conn_free conn sv s2 H2 Hsv) as H3.
    pose proof (wf_net_connection_get c sv true _ H3) as H4.
    destruct (connection_get c sv true _) as [conn' s4]. cbn [snd] in H4.
    pose proof (wf_net_conn_free conn' sv s4 H4 Hsv) as H5.
    unfold add_num_connections. now apply wf_net_set_services.
  - (* MG_EV_HTTP_MSG *)
    destruct (sv =? MODES_NET_SERVICE_HTTP); [|exact H].
    now apply wf_net_handler_http.
  - destruct (sv =? MODES_NET_SERVICE_HTTP); exact H.
  - (* MG_EV_WS_OPEN *)
    destruct (sv =? MODES_NET_SERVICE_HTTP); [|exact H].
    unfold net_handler_websocket. destruct (is_websocket _); exact H.
  - destruct (sv =? MODES_NET_SERVICE_HTTP); [|exact H].
    unfold net_handler_websocket. destruct (is_websocket _); exact H.
  - destruct (sv =? MODES_NET_SERVICE_HTTP); [|exact H].
    unfold net_handler_websocket. destruct (is_websocket _); [|exact H].
    now apply wf_net_bump_http.
  - destruct (sv =? MODES_NET_SERVICE_HTTP); exact H.
Qed.

Lemma wf_net_handler_all (evs : list (env * Z * mg_event * Z)) (s : modes) :
  wf_net s ->
  Forall (fun '(_, _, _, sv) => 0 <= sv <= 4) evs ->
  wf_net (net_handler_all_ evs s).
Proof.
  intros H Hev. unfold net_handler_all. revert s H.
  induction evs as [|[[[e c] ev] sv] evs IH]; intros s H; [exact H|].
  apply Forall_cons in Hev. destruct Hev as [Hsv Hev].
  cbn [fold_left]. apply IH; [exact Hev|]. now apply wf_net_handler.
Qed.

(** X13. For every service and after every sequence of events, the
    list of the service holds as many connection records as its counters
    tell: the connections accepted and the connections made, less the
    client and the server connections removed (the counters are 64 bits
    wide, so modulo [2 ^ 64]); and the list of a service holds records of
    that service only.  This is the count that the handler keeps right:
    a record enters a list with [cli_accepted] or [srv_connected] going
    up and leaves it with [cli_removed] or [srv_removed] going up,
    whatever happens to [num_connections]. *)
Theorem records_match_counters
    (evs : list (env * Z * mg_event * Z)) (s : modes) :
  wf_net s ->
  Forall (fun '(_, _, _, sv) => 0 <= sv <= 4) evs ->
  let s' := net_handler_all_ evs s in
  wf_net s'
  /\ forall sv, 0 <= sv <= 4 ->
       Forall (fun conn => conn_service conn = sv) (connections_of s' sv)
       /\ (2 ^ 64 | Z.of_nat (length (connections_of s' sv))
                    - (stat_of s' cli_accepted sv + stat_of s' srv_connected sv
                       - stat_of s' cli_removed sv - stat_of s' srv_removed sv)).
Proof.
  intros H Hev.
  pose proof (wf_net_handler_all evs s H Hev) as Hwf.
  split; [exact Hwf|]. intros sv Hsv. destruct Hwf as (_ & _ & Hok).
  exact (Hok sv Hsv).
Qed.

End Records.

Lemma demo_modes_wf : wf_net (demo_modes [] no_records).
Proof.
  split; [reflexivity|]. split; [intros f; reflexivity|].
  intros sv Hsv.
  assert (Hc : sv = 0 \/ sv = 1 \/ sv = 2 \/ sv = 3 \/ sv = 4) by lia.
  destruct Hc as [-> | [-> | [-> | [-> | ->]]]];
    (split; [constructor|exists 0; reflexivity]).
Qed.

Lemma records_match_counters_witness :
  let s' :=
    net_handler_all 64 40 256 demo_type_json demo_type_png demo_type_icon
      1150 1150 demo_str_addr demo_error_details demo_frame_handle
      [(demo_env false, 7, MG_EV_ACCEPT, MODES_NET_SERVICE_RAW_OUT);
       (demo_env true, 7, MG_EV_CLOSE, MODES_NET_SERVICE_RAW_OUT)]
      (demo_modes [] no_records) in
  wf_net s'
  /\ forall sv, 0 <= sv <= 4 ->
       Forall (fun conn => conn_service conn = sv) (connections_of s' sv)
       /\ (2 ^ 64 | Z.of_nat (length (connections_of s' sv))
                    - (stat_of s' cli_accepted sv + stat_of s' srv_connected sv
                       - stat_of s' cli_removed sv - stat_of s' srv_removed sv)).
Proof.
  apply (records_match_counters 64 40 256 demo_type_json demo_type_png
           demo_type_icon 1150 1150 demo_str_addr demo_error_details
           demo_frame_handle).
  - exact demo_modes_wf.
  - repeat (apply List.Forall_cons; [unfold MODES_NET_SERVICE_RAW_OUT; lia|]).
    apply List.Forall_nil.
Defined.

(** ** Accepting and closing a connection *)

Lemma client_handler_frame (sizeof_unique_IP c sv : Z) (ev : client_event)
    (ok : bool) (now : Z) (s : modes) :
  let out := client_handler sizeof_unique_IP c sv ev ok now s in
  out.1 = true
  /\ connections out.2 = connections s /\ mgr out.2 = mgr s
  /\ effects out.2 = effects s /\ services out.2 = services s
  /\ exit out.2 = exit s /\ headers out.2 = headers s
  /\ stat_http out.2 = stat_http s
  /\ (forall g, g <> unique_clients -> stat out.2 g = stat s g).
Proof.
  unfold client_handler. destruct ev; [|cbn; tauto].
  destruct (client_is_unique _ _ _ _ _ _) as [unique u]. cbn [fst snd].
  split; [unfold client_deny; destruct (client_is_extern _); reflexivity|].
  destruct unique; cbn; repeat split; try reflexivity;
    intros g Hg; destruct (decide (g = unique_clients)); congruence.
Qed.

Lemma first_record_added (s s' : modes) (c sv : Z) (new : connection) :
  (forall x, deref s' x = deref s x) ->
  connections_of s' sv = connections_of s sv ++ [new] ->
  conn_service new = sv -> conn_rem new = c_rem (deref s c) ->
  first_record s' c sv
  = match first_record s c sv with
    | Some r => Some r
    | None => Some (length (connections_of s sv), new)
    end.
Proof.
  intros Hd Hc Hsv Hrem. unfold first_record. rewrite Hd, Hc.
  destruct (list_find _ (connections_of s sv)) as [[i x]|] eqn:Hf.
  - now apply list_find_app_l.
  - rewrite list_find_app_r by exact Hf.
    cbn [list_find]. rewrite decide_True by (split; assumption).
    cbn. reflexivity.
Qed.

Lemma first_record_frame (s s' : modes) (c sv : Z) :
  (forall x, deref s' x = deref s x) ->
  connections_of s' sv = connections_of s sv ->
  first_record s' c sv = first_record s c sv.
Proof. intros Hd Hc. unfold first_record. now rewrite Hd, Hc. Qed.

Lemma wrap16_undo (x d : Z) : wrap16 (wrap16 (x + d) - d) = wrap16 x.
Proof.
  unfold wrap16. rewrite Zminus_mod_idemp_l. f_equal. lia.
Qed.

Lemma wrap64_undo (x d : Z) : wrap64 (wrap64 (x + d) + - d) = wrap64 x.
Proof.
  unfold wrap64. rewrite Zplus_mod_idemp_l. f_equal. lia.
Qed.

Section AcceptClose.

Variable sizeof_connection : Z.
Variable sizeof_unique_IP : Z.
Variable sizeof_mg_http_uri : nat.
Variable MODES_CONTENT_TYPE_JSON : string.
Variable MODES_CONTENT_TYPE_PNG : string.
Variable MODES_CONTENT_TYPE_ICON : string.
Variable favicon_png_len : Z.
Variable favicon_ico_len : Z.
Variable net_str_addr : mg_addr -> string.
Variable net_error_details : Z -> string -> string -> string.
Variable frame_handle : frame_handler -> list Z -> Z -> list Z.

Abbreviation net_handler_ :=
  (net_handler sizeof_connection sizeof_unique_IP sizeof_mg_http_uri
     MODES_CONTENT_TYPE_JSON MODES_CONTENT_TYPE_PNG MODES_CONTENT_TYPE_ICON
     favicon_png_len favicon_ico_len net_str_addr net_error_details frame_handle).

(** The state after an accept whose record could be allocated, from
    the state [s1] that [client_handler] leaves. *)
Lemma accept_state (e : env) (c sv : Z) (s : modes) :
  exit s = false -> calloc_ok e = true ->
  exists s1,
    s1 = (client_handler sizeof_unique_IP c sv ClientAccept (realloc_ok e)
               (now e) s).2
    /\ net_handler_ e c MG_EV_ACCEPT sv s
       = add_stat cli_accepted sv 1
           (net_mem_allocated sv sizeof_connection
              (add_num_connections sv 1
                 (list_add_tail sv (new_connection net_str_addr s c sv) s1))).
Proof.
  intros Hexit Hcalloc. unfold net_handler. rewrite Hexit, Hcalloc.
  destruct (client_handler_frame sizeof_unique_IP c sv ClientAccept
              (realloc_ok e)
              (now e) s)
    as (Hok & _ & Hmgr & _).
  destruct (client_handler sizeof_unique_IP c sv ClientAccept (realloc_ok e)
               (now e) s)
    as [ok s1]. cbn [fst snd] in *. subst ok. cbn [negb].
  exists s1. split; [reflexivity|].
  unfold new_connection, deref. now rewrite Hmgr.
Qed.

(** X14. Nobody is turned away: the deny list is not looked at
    ([client_deny] answers [false] for every address), so an accept
    whose record can be allocated appends one record for the socket to
    the list of the service, counts it in [cli_accepted] and in
    [num_connections], asks for no shutdown and leaves the socket open.
    The record carries the address of the socket, and a lookup for the
    socket finds a record with that address: the new record, unless an
    older record of the service carries the same address. *)
Theorem accept_adds_record (e : env) (c sv : Z) (s : modes) :
  exit s = false -> calloc_ok e = true ->
  (Z.to_nat sv < length (connections s))%nat ->
  (Z.to_nat sv < length (services s))%nat ->
  let s' := net_handler_ e c MG_EV_ACCEPT sv s in
  let new := new_connection net_str_addr s c sv in
  connections_of s' sv = connections_of s sv ++ [new]
  /\ conn_c new = c /\ conn_rem new = c_rem (deref s c)
  /\ mgr s' = mgr s /\ effects s' = effects s
  /\ stat s' cli_accepted
     = alter (fun x => wrap64 (x + 1)) (Z.to_nat sv) (stat s cli_accepted)
  /\ num_connections (service_of s' sv)
     = wrap16 (num_connections (service_of s sv) + 1)
  /\ first_record s' c sv
     = match first_record s c sv with
       | Some r => Some r
       | None => Some (length (connections_of s sv), new)
       end.
Proof.
  intros Hexit Hcalloc Hlc Hls s' new.
  destruct (accept_state e c sv s Hexit Hcalloc) as (s1 & Es1 & Es').
  fold s' in Es'. fold new in Es'.
  destruct (client_handler_frame sizeof_unique_IP c sv ClientAccept
              (realloc_ok e)
              (now e) s)
    as (_ & Hconn & Hmgr & Heff & Hsvc & _ & _ & _ & Hstat).
  cbv zeta in *. rewrite <- Es1 in *.
  assert (Hc' : connections_of s' sv = connections_of s sv ++ [new]).
  { rewrite Es'. unfold connections_of. cbn. rewrite Hconn.
    now apply (nth_alter_here (fun l => l ++ [new])). }
  split; [exact Hc'|]. split; [reflexivity|]. split; [reflexivity|].
  split; [rewrite Es'; exact Hmgr|]. split; [rewrite Es'; exact Heff|].
  split.
  { rewrite Es', stat_add_stat_same. cbn [stat net_mem_allocated
      add_num_connections list_add_tail set_services set_connections].
    now rewrite Hstat by discriminate. }
  split.
  { rewrite Es'. unfold service_of. cbn. rewrite Hsvc.
    rewrite list_alter_alter_eq.
    now rewrite (nth_alter_here _ (services s)) by exact Hls. }
  apply first_record_added; [|exact Hc'|reflexivity|reflexivity].
  intros x. unfold deref. rewrite Es'. cbn. now rewrite Hmgr.
Qed.

Lemma delete_added {A} (l : list A) (x : A) : delete (length l) (l ++ [x]) = l.
Proof.
  rewrite (delete_middle l [] x). apply app_nil_r.
Qed.

Lemma alter_delete_added {A} (ls : list (list A)) (i : nat) (x : A) :
  (i < length ls)%nat ->
  alter (delete (length (nth i ls []))) i (alter (fun l => l ++ [x]) i ls) = ls.
Proof.
  intros Hi. rewrite list_alter_alter_eq.
  apply list_eq. intros j. destruct (decide (i = j)) as [<-|N].
  - rewrite list_lookup_alter_eq.
    destruct (lookup_lt_is_Some_2 ls i Hi) as [l El]. rewrite El. cbn.
    rewrite (nth_lookup_Some ls i [] l El). now rewrite delete_added.
  - now rewrite list_lookup_alter_ne.
Qed.

(** X15. A client that is accepted and then closes leaves no trace in
    the lists: when no record of the service carried its address
    before, the lists of records, the number of connections and the
    memory count of the service are back at their old values (as the
    C types hold them), the socket store and the calls are untouched,
    and the counters [cli_accepted] and [cli_removed] of the service
    are one higher.  The close looks the socket up a second time, as a
    server, after its record is freed: that lookup misses, so each such
    close also adds one to [srv_unknown] of the service. *)
Theorem accept_close_round_trip (e1 e2 : env) (c sv : Z) (s : modes) :
  exit s = false -> calloc_ok e1 = true ->
  (Z.to_nat sv < length (connections s))%nat ->
  (Z.to_nat sv < length (services s))%nat ->
  first_record s c sv = None -> is_accepted (deref s c) = true ->
  let s2 := net_handler_ e2 c MG_EV_CLOSE sv
              (net_handler_ e1 c MG_EV_ACCEPT sv s) in
  connections s2 = connections s
  /\ mgr s2 = mgr s /\ effects s2 = effects s /\ exit s2 = false
  /\ num_connections (service_of s2 sv)
     = wrap16 (num_connections (service_of s sv))
  /\ mem_allocated (service_of s2 sv)
     = wrap64 (mem_allocated (service_of s sv))
  /\ stat s2 cli_accepted
     = alter (fun x => wrap64 (x + 1)) (Z.to_nat sv) (stat s cli_accepted)
  /\ stat s2 cli_removed
     = alter (fun x => wrap64 (x + 1)) (Z.to_nat sv) (stat s cli_removed)
  /\ stat s2 srv_unknown
     = alter (fun x => wrap64 (x + 1)) (Z.to_nat sv) (stat s srv_unknown)
  /\ stat s2 srv_removed = stat s srv_removed
  /\ stat s2 cli_unknown = stat s cli_unknown.
Proof.
  intros Hexit Hcalloc Hlc Hls Hnone Hacc s2.
  destruct (accept_state e1 c sv s Hexit Hcalloc) as (s0 & Es0 & Es1).
  destruct (client_handler_frame sizeof_unique_IP c sv ClientAccept
              (realloc_ok e1) (now e1) s)
    as (_ & Hconn & Hmgr & Heff & Hsvc & Hex & _ & _ & Hstat).
  cbv zeta in *. rewrite <- Es0 in *.
  set (new := new_connection net_str_addr s c sv) in *.
  set (s1 := net_handler_ e1 c MG_EV_ACCEPT sv s) in *.
  assert (Hd1 : forall x, deref s1 x = deref s x).
  { intros x. unfold deref. rewrite Es1. cbn. now rewrite Hmgr. }
  assert (Hc1 : connections_of s1 sv = connections_of s sv ++ [new]).
  { rewrite Es1. unfold connections_of. cbn. rewrite Hconn.
    now apply (nth_alter_here (fun l => l ++ [new])). }
  assert (Hf1 : first_record s1 c sv
                = Some (length (connections_of s sv), new)).
  { rewrite (first_record_added s s1 c sv new Hd1 Hc1 eq_refl eq_refl).
    now rewrite Hnone. }
  assert (Hex1 : exit s1 = false).
  { rewrite Es1. cbn. now rewrite Hex. }
  assert (Hcs1 : connections s1
                 = alter (fun l => l ++ [new]) (Z.to_nat sv) (connections s)).
  { rewrite Es1. cbn. now rewrite Hconn. }
  assert (E2 : s2 = add_num_connections sv (-1)
                      (add_stat srv_unknown sv 1
                         (net_mem_allocated sv (- sizeof_connection)
                            (add_stat cli_removed sv 1
                               (set_connections (connections s) s1))))).
  { subst s2. unfold net_handler at 1. rewrite Hex1.
    cbn [client_handler]. unfold connection_get at 1. rewrite Hf1.
    unfold net_conn_free at 1. rewrite Hc1.
    rewrite (list_lookup_middle _ [] new _ eq_refl).
    change (deref (set_connections _ s1) (conn_c new)) with (deref s1 c).
    rewrite Hd1, Hacc.
    assert (Hback : alter (delete (length (connections_of s sv))) (Z.to_nat sv)
                      (connections s1) = connections s).
    { rewrite Hcs1. now apply alter_delete_added. }
    rewrite Hback.
    set (s3 := net_mem_allocated sv (- sizeof_connection)
                 (add_stat cli_removed sv 1
                    (set_connections (connections s) s1))).
    assert (Hf3 : first_record s3 c sv = None).
    { rewrite <- Hnone. apply first_record_frame; [|reflexivity].
      intros x. apply Hd1. }
    unfold connection_get. rewrite Hf3. reflexivity. }
  clearbody s2. subst s2. clear Hd1 Hc1 Hf1 Hex1 Hcs1. clearbody s1. subst s1.
  split; [reflexivity|]. split; [exact Hmgr|]. split; [exact Heff|].
  split; [cbn; now rewrite Hex|].
  assert (Hserv : forall g : net_service -> Z,
            g (service_of
                 (add_num_connections sv (-1)
                    (add_stat srv_unknown sv 1
                       (net_mem_allocated sv (- sizeof_connection)
                          (add_stat cli_removed sv 1
                             (set_connections (connections s)
                                (add_stat cli_accepted sv 1
                                   (net_mem_allocated sv sizeof_connection
                                      (add_num_connections sv 1
                                         (list_add_tail sv new s0))))))))) sv)
            = g {| num_connections :=
                     wrap16 (wrap16 (num_connections (service_of s sv) + 1)
                             + -1);
                   mem_allocated :=
                     wrap64 (wrap64 (mem_allocated (service_of s sv)
                                     + sizeof_connection)
                             + - sizeof_connection);
                   last_err := last_err (service_of s sv);
                   host := host (service_of s sv) |}).
  { intros g. f_equal. unfold service_of. cbn. rewrite Hsvc.
    rewrite !list_alter_alter_eq.
    now rewrite (nth_alter_here _ (services s)) by exact Hls. }
  split; [rewrite (Hserv num_connections); exact (wrap16_undo _ 1)|].
  split; [rewrite (Hserv mem_allocated); apply wrap64_undo|].
  clear Hserv.
  repeat split; cbn; now rewrite Hstat by discriminate.
Qed.

End AcceptClose.

Lemma accept_adds_record_witness :
  let s := demo_modes [] no_records in
  let s' := demo_net_handler (demo_env true) 7 MG_EV_ACCEPT
              MODES_NET_SERVICE_RAW_OUT s in
  let new := new_connection demo_str_addr s 7 MODES_NET_SERVICE_RAW_OUT in
  connections_of s' MODES_NET_SERVICE_RAW_OUT
  = connections_of s MODES_NET_SERVICE_RAW_OUT ++ [new]
  /\ conn_c new = 7 /\ conn_rem new = c_rem (deref s 7)
  /\ mgr s' = mgr s /\ effects s' = effects s
  /\ stat s' cli_accepted
     = alter (fun x => wrap64 (x + 1)) (Z.to_nat MODES_NET_SERVICE_RAW_OUT)
         (stat s cli_accepted)
  /\ num_connections (service_of s' MODES_NET_SERVICE_RAW_OUT)
     = wrap16 (num_connections (service_of s MODES_NET_SERVICE_RAW_OUT) + 1)
  /\ first_record s' 7 MODES_NET_SERVICE_RAW_OUT
     = match first_record s 7 MODES_NET_SERVICE_RAW_OUT with
       | Some r => Some r
       | None =>
           Some (length (connections_of s MODES_NET_SERVICE_RAW_OUT), new)
       end.
Proof.
  apply (accept_adds_record 64 40 256 demo_type_json demo_type_png
           demo_type_icon
           1150 1150 demo_str_addr demo_error_details demo_frame_handle
           (demo_env true) 7 MODES_NET_SERVICE_RAW_OUT
           (demo_modes [] no_records));
    [reflexivity|reflexivity|vm_compute; lia|vm_compute; lia].
Defined.

Lemma accept_close_round_trip_witness :
  let s := demo_modes [] no_records in
  let s2 := demo_net_handler (demo_env true) 7 MG_EV_CLOSE
              MODES_NET_SERVICE_RAW_OUT
              (demo_net_handler (demo_env true) 7 MG_EV_ACCEPT
                 MODES_NET_SERVICE_RAW_OUT s) in
  connections s2 = connections s
  /\ mgr s2 = mgr s /\ effects s2 = effects s /\ exit s2 = false
  /\ num_connections (service_of s2 MODES_NET_SERVICE_RAW_OUT)
     = wrap16 (num_connections (service_of s MODES_NET_SERVICE_RAW_OUT))
  /\ mem_allocated (service_of s2 MODES_NET_SERVICE_RAW_OUT)
     = wrap64 (mem_allocated (service_of s MODES_NET_SERVICE_RAW_OUT))
  /\ stat s2 cli_accepted
     = alter (fun x => wrap64 (x + 1)) (Z.to_nat MODES_NET_SERVICE_RAW_OUT)
         (stat s cli_accepted)
  /\ stat s2 cli_removed
     = alter (fun x => wrap64 (x + 1)) (Z.to_nat MODES_NET_SERVICE_RAW_OUT)
         (stat s cli_removed)
  /\ stat s2 srv_unknown
     = alter (fun x => wrap64 (x + 1)) (Z.to_nat MODES_NET_SERVICE_RAW_OUT)
         (stat s srv_unknown)
  /\ stat s2 srv_removed = stat s srv_removed
  /\ stat s2 cli_unknown = stat s cli_unknown.
Proof.
  apply (accept_close_round_trip 64 40 256 demo_type_json demo_type_png
           demo_type_icon 1150 1150 demo_str_addr demo_error_details
           demo_frame_handle (demo_env true) (demo_env true) 7
           MODES_NET_SERVICE_RAW_OUT (demo_modes [] no_records));
    [reflexivity|reflexivity|vm_compute; lia|vm_compute; lia
    |vm_compute; reflexivity|vm_compute; reflexivity].
Defined.

(** ** The exit flag *)

Section ExitFlag.

Variable sizeof_connection : Z.
Variable sizeof_unique_IP : Z.
Variable sizeof_mg_http_uri : nat.
Variable MODES_CONTENT_TYPE_JSON : string.
Variable MODES_CONTENT_TYPE_PNG : string.
Variable MODES_CONTENT_TYPE_ICON : string.
Variable favicon_png_len : Z.
Variable favicon_ico_len : Z.
Variable net_str_addr : mg_addr -> string.
Variable net_error_details : Z -> string -> string -> string.
Variable frame_handle : frame_handler -> list Z -> Z -> list Z.

Abbreviation net_handler_ :=
  (net_handler sizeof_connection sizeof_unique_IP sizeof_mg_http_uri
     MODES_CONTENT_TYPE_JSON MODES_CONTENT_TYPE_PNG MODES_CONTENT_TYPE_ICON
     favicon_png_len favicon_ico_len net_str_addr net_error_details frame_handle).

Abbreviation net_handler_all_ :=
  (net_handler_all sizeof_connection sizeof_unique_IP sizeof_mg_http_uri
     MODES_CONTENT_TYPE_JSON MODES_CONTENT_TYPE_PNG MODES_CONTENT_TYPE_ICON
     favicon_png_len favicon_ico_len net_str_addr net_error_details frame_handle).

Lemma net_handler_all_exit (evs : list (env * Z * mg_event * Z)) (s : modes) :
  exit s = true -> net_handler_all_ evs s = s.
Proof.
  intros Hexit. unfold net_handler_all.
  induction evs as [|[[[e c] ev] sv] evs IH]; [reflexivity|].
  cbn [fold_left]. unfold net_handler at 2. rewrite Hexit. exact IH.
Qed.

(** X16. An error event on a socket that was not accepted is the end
    of the handler's work, for every service: [remote] is the [host]
    array of the service, so the test [else if (remote)] never fails.
    The error text is stored for the service, the connect timer is
    freed, the signal handler is called, which raises the exit flag, and
    from then on the handler returns at once for every event, so
    nothing that arrives later (no close, no read, no request) changes
    a record or a counter.  An error on an accepted socket does not
    raise the flag. *)
Theorem failed_connect_stops_handler
    (e : env) (c sv : Z) (err : string) (s : modes) :
  exit s = false -> 0 <= sv <= 4 ->
  (Z.to_nat sv < length (services s))%nat ->
  let s' := net_handler_ e c (MG_EV_ERROR err) sv s in
  (is_accepted (deref s c) = false ->
   exit s' = true
   /\ effects s' = effects s ++ [TimerFree sv; SignalHandler]
   /\ last_err (service_of s' sv)
      = Some (net_error_details c "Connection out " err)
   /\ connections s' = connections s /\ stat s' = stat s
   /\ mgr s' = mgr s
   /\ forall evs, net_handler_all_ evs s' = s')
  /\ (is_accepted (deref s c) = true ->
      exit s' = false /\ effects s' = effects s /\ mgr s' = mgr s).
Proof.
  intros Hexit Hsv Hls s'. subst s'. unfold net_handler. rewrite Hexit.
  replace ((MODES_NET_SERVICE_FIRST <=? sv) && (sv <=? MODES_NET_SERVICE_LAST))
    with true
    by (unfold MODES_NET_SERVICE_FIRST, MODES_NET_SERVICE_LAST;
        symmetry; apply andb_true_iff; split; apply Z.leb_le; lia).
  split.
  - intros Hacc. rewrite Hacc.
    assert (Hx : exit (modeS_signal_handler
                         (do_effect (TimerFree sv)
                            (connection_failed_active net_error_details c sv
                               err s))) = true) by reflexivity.
    split; [exact Hx|].
    split; [cbn; now rewrite <- app_assoc|].
    split.
    { unfold service_of. cbn.
      now rewrite (nth_alter_here _ (services s)) by exact Hls. }
    split; [reflexivity|]. split; [reflexivity|]. split; [reflexivity|].
    intros evs. now apply net_handler_all_exit.
  - intros Hacc. rewrite Hacc. unfold connection_failed_accepted.
    destruct (connection_get c sv true s) as [conn s1] eqn:Eg.
    assert (Hg : exit s1 = false /\ effects s1 = effects s /\ mgr s1 = mgr s).
    { unfold connection_get in Eg.
      destruct (first_record s c sv) as [[i r]|]; inversion Eg; subst;
        cbn; auto. }
    destruct Hg as (Hg1 & Hg2 & Hg3).
    unfold net_conn_free. destruct conn as [i|]; cbn; [|auto].
    match goal with
    | |- context [?l !! i] => destruct (l !! i) as [rec|]
    end; cbn; [|auto].
    match goal with
    | |- context [is_accepted ?x] => destruct (is_accepted x)
    end; cbn; auto.
Qed.

End ExitFlag.

Definition demo_server : mg_connection :=
  {| c_id := 9; c_rem := demo_addr; is_accepted := false; is_closing := false;
     is_websocket := false; recv := [] |}.

(** The services when RAW_IN connects out to a host: the socket 9 of
    that connection is open and not yet connected. *)
Definition demo_active : modes :=
  {| exit := false; Modes_keep_alive := true; web_page := "index.html";
     web_root := "web_root"; connections := no_records;
     stat := fun _ => [0; 0; 0; 0; 0]; stat_http := fun _ => 0;
     services :=
       [blank_service;
        {| num_connections := 0; mem_allocated := 0; last_err := None;
           host := "localhost" |};
        blank_service; blank_service; blank_service];
     mgr := {[ 9 := demo_server ]};
     g_unique_ips := init_unique_ips;
     headers := repeat NUL 200; effects := [] |}.

Lemma failed_connect_stops_handler_witness :
  let s := demo_active in
  let s' := demo_net_handler (demo_env true) 9 (MG_EV_ERROR "socket error")
              MODES_NET_SERVICE_RAW_IN s in
  (is_accepted (deref s 9) = false ->
   exit s' = true
   /\ effects s'
      = effects s ++ [TimerFree MODES_NET_SERVICE_RAW_IN; SignalHandler]
   /\ last_err (service_of s' MODES_NET_SERVICE_RAW_IN)
      = Some (demo_error_details 9 "Connection out " "socket error")
   /\ connections s' = connections s /\ stat s' = stat s
   /\ mgr s' = mgr s
   /\ forall evs,
        net_handler_all 64 40 256 demo_type_json demo_type_png demo_type_icon
          1150 1150 demo_str_addr demo_error_details demo_frame_handle
          evs s' = s')
  /\ (is_accepted (deref s 9) = true ->
      exit s' = false /\ effects s' = effects s /\ mgr s' = mgr s).
Proof.
  apply (failed_connect_stops_handler 64 40 256 demo_type_json demo_type_png
           demo_type_icon 1150 1150 demo_str_addr demo_error_details
           demo_frame_handle (demo_env true) 9 MODES_NET_SERVICE_RAW_IN
           "socket error" demo_active);
    [reflexivity|unfold MODES_NET_SERVICE_RAW_IN; lia|vm_compute; lia].
Defined.

(** ** Sending to the clients of a service *)

(** [net_connection_send]; the message is stood for by its length. *)
Definition net_connection_send (service len : Z) (s : modes) : modes :=
  fold_left
    (fun s conn =>
       if decide (conn_service conn = service)
       then do_effect (MgSend (conn_c conn) len) s
       else s)
    (connections_of s service) s.

Lemma send_loop_effects (service len : Z) (l : list connection) (s : modes) :
  let s' :=
    fold_left
      (fun s conn =>
         if decide (conn_service conn = service)
         then do_effect (MgSend (conn_c conn) len) s
         else s) l s in
  effects s'
  = effects s
    ++ map (fun conn => MgSend (conn_c conn) len)
         (List.filter (fun conn => bool_decide (conn_service conn = service)) l)
  /\ connections s' = connections s /\ stat s' = stat s
  /\ stat_http s' = stat_http s /\ services s' = services s
  /\ mgr s' = mgr s /\ exit s' = exit s /\ g_unique_ips s' = g_unique_ips s.
Proof.
  revert s. induction l as [|conn l IH]; intros s; cbn [fold_left].
  - cbn. rewrite app_nil_r. tauto.
  - cbn [List.filter]. destruct (decide (conn_service conn = service)) as [E|N].
    + rewrite (bool_decide_eq_true_2 _ E).
      destruct (IH (do_effect (MgSend (conn_c conn) len) s))
        as (H1 & H2 & H3 & H4 & H5 & H6 & H7 & H8).
      cbv zeta in *. rewrite H1, H2, H3, H4, H5, H6, H7, H8. cbn.
      rewrite <- app_assoc. tauto.
    + rewrite (bool_decide_eq_false_2 _ N). apply IH.
Qed.

Lemma filter_all {A} (f : A -> bool) (l : list A) :
  List.Forall (fun x => f x = true) l -> List.filter f l = l.
Proof.
  induction 1 as [|x l Hx _ IH]; [reflexivity|].
  cbn. now rewrite Hx, IH.
Qed.

Section Send.

Variable sizeof_connection : Z.
Variable sizeof_unique_IP : Z.
Variable sizeof_mg_http_uri : nat.
Variable MODES_CONTENT_TYPE_JSON : string.
Variable MODES_CONTENT_TYPE_PNG : string.
Variable MODES_CONTENT_TYPE_ICON : string.
Variable favicon_png_len : Z.
Variable favicon_ico_len : Z.
Variable net_str_addr : mg_addr -> string.
Variable net_error_details : Z -> string -> string -> string.
Variable frame_handle : frame_handler -> list Z -> Z -> list Z.

Abbreviation net_handler_all_ :=
  (net_handler_all sizeof_connection sizeof_unique_IP sizeof_mg_http_uri
     MODES_CONTENT_TYPE_JSON MODES_CONTENT_TYPE_PNG MODES_CONTENT_TYPE_ICON
     favicon_png_len favicon_ico_len net_str_addr net_error_details frame_handle).

(** X17. Whatever events the handler has seen, a message sent to a
    service goes to the socket of every record in the list of that
    service, once each and in the order of the list (no record is
    skipped as being of another service), and to no other socket.
    Sending changes no record, no counter and no socket: the bytes are
    counted only when the write event arrives.  The exit flag and the
    closing mark of a socket are not looked at. *)
Theorem net_connection_send_reaches_all
    (evs : list (env * Z * mg_event * Z)) (s : modes) (sv len : Z) :
  wf_net s ->
  Forall (fun '(_, _, _, sv) => 0 <= sv <= 4) evs ->
  0 <= sv <= 4 ->
  let s1 := net_handler_all_ evs s in
  let s2 := net_connection_send sv len s1 in
  effects s2
  = effects s1 ++ map (fun conn => MgSend (conn_c conn) len) (connections_of s1 sv)
  /\ connections s2 = connections s1 /\ stat s2 = stat s1
  /\ stat_http s2 = stat_http s1 /\ services s2 = services s1
  /\ mgr s2 = mgr s1 /\ exit s2 = exit s1.
Proof.
  intros H Hev Hsv s1 s2.
  pose proof (wf_net_handler_all sizeof_connection sizeof_unique_IP
                sizeof_mg_http_uri
                MODES_CONTENT_TYPE_JSON MODES_CONTENT_TYPE_PNG
                MODES_CONTENT_TYPE_ICON favicon_png_len favicon_ico_len
                net_str_addr net_error_details frame_handle evs s H Hev)
    as (_ & _ & Hok).
  destruct (Hok sv Hsv) as [Hall _]. fold s1 in Hall.
  destruct (send_loop_effects sv len (connections_of s1 sv) s1)
    as (H1 & H2 & H3 & H4 & H5 & H6 & H7 & _).
  cbv zeta in H1. fold (net_connection_send sv len s1) in *. fold s2 in H1, H2, H3, H4, H5, H6, H7.
  rewrite filter_all in H1.
  - tauto.
  - rewrite List.Forall_forall. intros conn Hin. apply bool_decide_eq_true_2.
    rewrite List.Forall_forall in Hall. now apply Hall.
Qed.

End Send.

Lemma net_connection_send_reaches_all_witness :
  let s1 :=
    net_handler_all 64 40 256 demo_type_json demo_type_png demo_type_icon
      1150 1150 demo_str_addr demo_error_details demo_frame_handle
      [(demo_env true, 7, MG_EV_ACCEPT, MODES_NET_SERVICE_RAW_OUT)]
      (demo_modes [] no_records) in
  let s2 := net_connection_send MODES_NET_SERVICE_RAW_OUT 23 s1 in
  effects s2
  = effects s1 ++ map (fun conn => MgSend (conn_c conn) 23)
                    (connections_of s1 MODES_NET_SERVICE_RAW_OUT)
  /\ connections s2 = connections s1 /\ stat s2 = stat s1
  /\ stat_http s2 = stat_http s1 /\ services s2 = services s1
  /\ mgr s2 = mgr s1 /\ exit s2 = exit s1.
Proof.
  apply (net_connection_send_reaches_all 64 40 256 demo_type_json demo_type_png
           demo_type_icon 1150 1150 demo_str_addr demo_error_details
           demo_frame_handle).
  - exact demo_modes_wf.
  - apply List.Forall_cons; [unfold MODES_NET_SERVICE_RAW_OUT; lia|].
    apply List.Forall_nil.
  - unfold MODES_NET_SERVICE_RAW_OUT; lia.
Defined.

(** ** Freeing all records *)

Section FreeAll.

Variable sizeof_connection : Z.

(** The inner loop of [net_conn_free_all] for one service.  [conn] is
    the head of the list at each call of [net_conn_free], the records
    before it being freed, and [conn_next] is read before the call;
    [n] is the number of records that the loop walks over. *)
Fixpoint free_records (n : nat) (service : Z) (num : Z) (s : modes)
    : Z * modes :=
  match n with
  | O => (num, s)
  | S n' =>
      let s := net_conn_free sizeof_connection (Some 0%nat) service s in
      free_records n' service (wrap32 (num + 1)) s
  end.

(** [net_conn_free_all]: the number of records freed, a [uint32_t],
    and the state.  (The host names that it frees are not looked at
    again.) *)
Definition net_conn_free_all (s : modes) : Z * modes :=
  fold_left
    (fun '(num, s) service =>
       free_records (length (connections_of s service)) service num s)
    [MODES_NET_SERVICE_RAW_OUT; MODES_NET_SERVICE_RAW_IN;
     MODES_NET_SERVICE_SBS_OUT; MODES_NET_SERVICE_SBS_IN;
     MODES_NET_SERVICE_HTTP]
    (0, s).

Lemma num_connections_alter (f : net_service -> net_service)
    (l : list net_service) (i j : nat) :
  (forall x, num_connections (f x) = num_connections x) ->
  num_connections (nth j (alter f i l) blank_service)
  = num_connections (nth j l blank_service).
Proof.
  intros Hf. rewrite !nth_lookup. destruct (decide (i = j)) as [<-|N].
  - rewrite list_lookup_alter_eq. destruct (l !! i); cbn; [apply Hf|reflexivity].
  - now rewrite list_lookup_alter_ne.
Qed.

Lemma nth_in_range {A} (ls : list (list A)) (i : nat) (x : A) (l : list A) :
  nth i ls [] = x :: l -> (i < length ls)%nat.
Proof.
  intros E. destruct (decide (i < length ls)%nat) as [H|H]; [exact H|].
  rewrite nth_overflow in E by lia. discriminate E.
Qed.

Lemma net_conn_free_head (sv : Z) (x : connection) (l : list connection)
    (s : modes) :
  connections_of s sv = x :: l ->
  let s1 := net_conn_free sizeof_connection (Some 0%nat) sv s in
  connections_of s1 sv = l
  /\ (forall sv', Z.to_nat sv' <> Z.to_nat sv ->
        connections_of s1 sv' = connections_of s sv')
  /\ effects s1 = effects s /\ mgr s1 = mgr s /\ exit s1 = exit s
  /\ forall sv', num_connections (service_of s1 sv')
                 = num_connections (service_of s sv').
Proof.
  intros E. pose proof (nth_in_range _ _ _ _ E) as Hlt.
  unfold net_conn_free. rewrite E. cbn [lookup list_lookup].
  cbv zeta.
  match goal with
  | |- context [is_accepted ?c] => destruct (is_accepted c)
  end.
  all: unfold connections_of, service_of in *; cbn.
  all: split; [rewrite (nth_alter_here _ (connections s)) by exact Hlt;
               now rewrite E|].
  all: split; [intros sv' N; rewrite !nth_lookup;
               now rewrite list_lookup_alter_ne by congruence|].
  all: repeat (split; [reflexivity|]).
  all: intros sv'; now apply num_connections_alter.
Qed.

Lemma wrap32_succ (k : Z) : wrap32 (wrap32 k + 1) = wrap32 (k + 1).
Proof. unfold wrap32. now rewrite Zplus_mod_idemp_l. Qed.

Lemma free_records_spec (n : nat) (sv k : Z) (s : modes) :
  length (connections_of s sv) = n ->
  let r := free_records n sv (wrap32 k) s in
  r.1 = wrap32 (k + Z.of_nat n)
  /\ connections_of r.2 sv = []
  /\ (forall sv', Z.to_nat sv' <> Z.to_nat sv ->
        connections_of r.2 sv' = connections_of s sv')
  /\ effects r.2 = effects s /\ mgr r.2 = mgr s /\ exit r.2 = exit s
  /\ (forall sv', num_connections (service_of r.2 sv')
                  = num_connections (service_of s sv'))
  /\ (wf_net s -> 0 <= sv <= 4 -> wf_net r.2).
Proof.
  revert k s. induction n as [|n IH]; intros k s Hlen.
  - cbn. rewrite Z.add_0_r. apply nil_length_inv in Hlen. tauto.
  - destruct (connections_of s sv) as [|x l] eqn:E; [discriminate Hlen|].
    cbn [length] in Hlen. injection Hlen as Hlen.
    destruct (net_conn_free_head sv x l s E) as (H1 & H2 & H3 & H4 & H5 & H6).
    cbv zeta in *. cbn [free_records]. rewrite wrap32_succ.
    set (s1 := net_conn_free sizeof_connection (Some 0%nat) sv s) in *.
    assert (Hlen1 : length (connections_of s1 sv) = n) by now rewrite H1.
    destruct (IH (k + 1) s1 Hlen1) as (I1 & I2 & I3 & I4 & I5 & I6 & I7 & I8).
    cbv zeta in *.
    split; [rewrite I1; f_equal; lia|]. split; [exact I2|].
    split; [intros sv' N; now rewrite I3, H2|].
    split; [congruence|]. split; [congruence|]. split; [congruence|].
    split; [intros sv'; now rewrite I7, H6|].
    intros Hwf Hsv. apply I8; [|exact Hsv].
    now apply wf_net_conn_free.
Qed.

(** The records in the lists of the five services. *)
Definition records_in_use (s : modes) : Z :=
  Z.of_nat (length (connections_of s MODES_NET_SERVICE_RAW_OUT))
  + Z.of_nat (length (connections_of s MODES_NET_SERVICE_RAW_IN))
  + Z.of_nat (length (connections_of s MODES_NET_SERVICE_SBS_OUT))
  + Z.of_nat (length (connections_of s MODES_NET_SERVICE_SBS_IN))
  + Z.of_nat (length (connections_of s MODES_NET_SERVICE_HTTP)).

(** X18. [net_conn_free_all] leaves no record behind: afterwards the
    list of every service is empty, the number it returns is the number
    of records that the five lists held (as a [uint32_t]), and for every
    service the counters balance: the connections accepted and made are
    those removed (modulo [2 ^ 64]).  It calls nothing and touches no
    socket.  It does not touch [num_connections] either: the records
    are gone while each service still shows the number of connections
    that it showed before. *)
Theorem net_conn_free_all_empties (s : modes) :
  wf_net s ->
  let num := (net_conn_free_all s).1 in
  let s' := (net_conn_free_all s).2 in
  (forall sv, 0 <= sv <= 4 -> connections_of s' sv = [])
  /\ num = wrap32 (records_in_use s)
  /\ (forall sv, num_connections (service_of s' sv)
                 = num_connections (service_of s sv))
  /\ effects s' = effects s /\ mgr s' = mgr s
  /\ (forall sv, 0 <= sv <= 4 ->
        (2 ^ 64 | stat_of s' cli_accepted sv + stat_of s' srv_connected sv
                  - stat_of s' cli_removed sv - stat_of s' srv_removed sv)).
Proof.
  intros Hwf. unfold net_conn_free_all, records_in_use.
  unfold MODES_NET_SERVICE_RAW_OUT, MODES_NET_SERVICE_RAW_IN,
    MODES_NET_SERVICE_SBS_OUT, MODES_NET_SERVICE_SBS_IN,
    MODES_NET_SERVICE_HTTP.
  cbn [fold_left].
  destruct (free_records_spec _ 0 0 s eq_refl)
    as (A1 & A2 & A3 & A4 & A5 & _ & A7 & A8).
  change (wrap32 0) with 0 in *.
  destruct (free_records _ 0 0 s) as [n0 s0]. cbn [fst snd] in *.
  destruct (free_records_spec _ 1 (0 + Z.of_nat (length (connections_of s 0)))
              s0 eq_refl) as (B1 & B2 & B3 & B4 & B5 & _ & B7 & B8).
  rewrite <- A1 in B1, B2, B3, B4, B5, B7, B8.
  destruct (free_records _ 1 n0 s0) as [n1 s1]. cbn [fst snd] in *.
  destruct (free_records_spec _ 2
              (0 + Z.of_nat (length (connections_of s 0))
               + Z.of_nat (length (connections_of s0 1)))
              s1 eq_refl) as (C1 & C2 & C3 & C4 & C5 & _ & C7 & C8).
  rewrite <- B1 in C1, C2, C3, C4, C5, C7, C8.
  destruct (free_records _ 2 n1 s1) as [n2 s2]. cbn [fst snd] in *.
  destruct (free_records_spec _ 3
              (0 + Z.of_nat (length (connections_of s 0))
               + Z.of_nat (length (connections_of s0 1))
               + Z.of_nat (length (connections_of s1 2)))
              s2 eq_refl) as (D1 & D2 & D3 & D4 & D5 & _ & D7 & D8).
  rewrite <- C1 in D1, D2, D3, D4, D5, D7, D8.
  destruct (free_records _ 3 n2 s2) as [n3 s3]. cbn [fst snd] in *.
  destruct (free_records_spec _ 4
              (0 + Z.of_nat (length (connections_of s 0))
               + Z.of_nat (length (connections_of s0 1))
               + Z.of_nat (length (connections_of s1 2))
               + Z.of_nat (length (connections_of s2 3)))
              s3 eq_refl) as (E1 & E2 & E3 & E4 & E5 & _ & E7 & E8).
  rewrite <- D1 in E1, E2, E3, E4, E5, E7, E8.
  destruct (free_records _ 4 n3 s3) as [n4 s4]. cbn [fst snd] in *.
  assert (Hwf4 : wf_net s4).
  { apply E8; [|lia]. apply D8; [|lia]. apply C8; [|lia]. apply B8; [|lia].
    apply A8; [exact Hwf|lia]. }
  assert (Hempty : forall sv, 0 <= sv <= 4 -> connections_of s4 sv = []).
  { intros sv Hsv.
    assert (Hc : sv = 0 \/ sv = 1 \/ sv = 2 \/ sv = 3 \/ sv = 4) by lia.
    destruct Hc as [-> | [-> | [-> | [-> | ->]]]].
    - now rewrite E3, D3, C3, B3 by (cbn; lia).
    - now rewrite E3, D3, C3 by (cbn; lia).
    - now rewrite E3, D3 by (cbn; lia).
    - now rewrite E3 by (cbn; lia).
    - exact E2. }
  split; [exact Hempty|].
  split.
  { rewrite E1. f_equal.
    rewrite (D3 4), (C3 4), (B3 4), (A3 4) by (cbn; lia).
    rewrite (C3 3), (B3 3), (A3 3) by (cbn; lia).
    rewrite (B3 2), (A3 2) by (cbn; lia).
    rewrite (A3 1) by (cbn; lia). lia. }
  split; [intros sv; now rewrite E7, D7, C7, B7, A7|].
  split; [congruence|]. split; [congruence|].
  intros sv Hsv. destruct Hwf4 as (_ & _ & Hok).
  destruct (Hok sv Hsv) as [_ Hdiv]. rewrite (Hempty sv Hsv) in Hdiv.
  unfold counted_records in Hdiv. cbn [length] in Hdiv.
  apply Z.divide_opp_r in Hdiv.
  replace (- (Z.of_nat 0 - (stat_of s4 cli_accepted sv
                            + stat_of s4 srv_connected sv
                            - stat_of s4 cli_removed sv
                            - stat_of s4 srv_removed sv)))
    with (stat_of s4 cli_accepted sv + stat_of s4 srv_connected sv
          - stat_of s4 cli_removed sv - stat_of s4 srv_removed sv) in Hdiv
    by lia.
  exact Hdiv.
Qed.

End FreeAll.

(** The services after one client is accepted for RAW_OUT. *)
Definition demo_accepted : modes :=
  net_handler_all 64 40 256 demo_type_json demo_type_png demo_type_icon
    1150 1150 demo_str_addr demo_error_details demo_frame_handle
    [(demo_env true, 7, MG_EV_ACCEPT, MODES_NET_SERVICE_RAW_OUT)]
    (demo_modes [] no_records).

Lemma demo_accepted_wf : wf_net demo_accepted.
Proof.
  apply wf_net_handler_all; [exact demo_modes_wf|].
  apply List.Forall_cons; [unfold MODES_NET_SERVICE_RAW_OUT; lia|].
  apply List.Forall_nil.
Qed.

Lemma net_conn_free_all_empties_witness :
  let s := demo_accepted in
  let num := (net_conn_free_all 64 s).1 in
  let s' := (net_conn_free_all 64 s).2 in
  (forall sv, 0 <= sv <= 4 -> connections_of s' sv = [])
  /\ num = wrap32 (records_in_use s)
  /\ (forall sv, num_connections (service_of s' sv)
                 = num_connections (service_of s sv))
  /\ effects s' = effects s /\ mgr s' = mgr s
  /\ (forall sv, 0 <= sv <= 4 ->
        (2 ^ 64 | stat_of s' cli_accepted sv + stat_of s' srv_connected sv
                  - stat_of s' cli_removed sv - stat_of s' srv_removed sv)).
Proof.
  exact (net_conn_free_all_empties 64 demo_accepted demo_accepted_wf).
Defined.

(** ** The status of a request and the HTTP counters *)

Lemma set_headers_quiet (cli : connection) (ct : option string) (s : modes) :
  let s' := (set_headers cli ct s).2 in
  mgr s' = mgr s /\ effects s' = effects s /\ web_root s' = web_root s
  /\ forall f, f <> HTTP_keep_alive_sent -> stat_http s' f = stat_http s f.
Proof.
  unfold set_headers.
  destruct ct; cbn [Modes_keep_alive set_headers_buf];
    destruct (Modes_keep_alive s && keep_alive cli); cbn;
    repeat split; try reflexivity; intros f Hf;
    destruct (decide (f = HTTP_keep_alive_sent)); congruence.
Qed.

Lemma set_headers_connections (cli : connection) (ct : option string)
    (s : modes) :
  let s' := (set_headers cli ct s).2 in
  connections s' = connections s /\ stat s' = stat s
  /\ services s' = services s.
Proof.
  unfold set_headers.
  destruct ct; cbn [Modes_keep_alive set_headers_buf];
    destruct (Modes_keep_alive s && keep_alive cli); cbn; auto.
Qed.

Section HttpAccounting.

Variable sizeof_mg_http_uri : nat.
Variable MODES_CONTENT_TYPE_JSON : string.
Variable MODES_CONTENT_TYPE_PNG : string.
Variable MODES_CONTENT_TYPE_ICON : string.
Variable favicon_png_len : Z.
Variable favicon_ico_len : Z.

Abbreviation net_handler_http_ :=
  (net_handler_http sizeof_mg_http_uri MODES_CONTENT_TYPE_JSON
     MODES_CONTENT_TYPE_PNG MODES_CONTENT_TYPE_ICON favicon_png_len
     favicon_ico_len).
Abbreviation http_dispatch_ :=
  (http_dispatch MODES_CONTENT_TYPE_JSON MODES_CONTENT_TYPE_PNG
     MODES_CONTENT_TYPE_ICON favicon_png_len favicon_ico_len).

(** What a request that reached the dispatch leaves: its status, the
    counters of the error statuses and of the requests, the socket and
    the replies. *)
Definition dispatched (e : env) (c : Z) (uri : string) (s : modes)
    (out : Z * modes) : Prop :=
  let st := out.1 in
  let s' := out.2 in
  (st = 200 \/ st = 301 \/ st = 404 \/ st = 500)
  /\ stat_http s' HTTP_400_responses = stat_http s HTTP_400_responses
  /\ stat_http s' HTTP_500_responses
     = (if st =? 500 then wrap64 (stat_http s HTTP_500_responses + 1)
        else stat_http s HTTP_500_responses)
  /\ stat_http s' HTTP_404_responses
     = (if (st =? 404) && has_dot uri
        then wrap64 (stat_http s HTTP_404_responses + 1)
        else stat_http s HTTP_404_responses)
  /\ stat_http s' HTTP_get_requests = wrap64 (stat_http s HTTP_get_requests + 1)
  /\ (st = 500 ->
      effects s' = effects s
      /\ mgr s' = <[c := set_is_closing (deref s c)]> (mgr s))
  /\ (st <> 500 ->
      mgr s' = mgr s
      /\ exists ef rest, effects s' = effects s ++ ef :: rest).

Lemma http_dispatch_dispatched (e : env) (c : Z) (hm : mg_http_message)
    (uri : string) (i : nat) (s : modes) :
  dispatched e c uri s (http_dispatch_ e c hm uri i s).
Proof.
  unfold http_dispatch.
  set (s1 := bump_http HTTP_get_requests s).
  match goal with
  | |- context [match mg_http_get_header hm "Connection" with
                | Some v => @?a v | None => _ end] =>
      set (s2 := match mg_http_get_header hm "Connection" with
                 | Some v => a v | None => s1 end)
  end.
  match goal with
  | |- context [match mg_http_get_header hm "Accept-Encoding" with
                | Some v => @?a v | None => _ end] =>
      set (s3 := match mg_http_get_header hm "Accept-Encoding" with
                 | Some v => a v | None => s2 end)
  end.
  assert (H3 : mgr s3 = mgr s /\ effects s3 = effects s
               /\ stat_http s3 HTTP_400_responses = stat_http s HTTP_400_responses
               /\ stat_http s3 HTTP_500_responses = stat_http s HTTP_500_responses
               /\ stat_http s3 HTTP_404_responses = stat_http s HTTP_404_responses
               /\ stat_http s3 HTTP_get_requests
                  = wrap64 (stat_http s HTTP_get_requests + 1)).
  { unfold s3, s2, s1.
    destruct (mg_http_get_header hm "Accept-Encoding") as [v|];
      [destruct (mg_vcasecmp v "gzip" =? 0)|];
      (destruct (mg_http_get_header hm "Connection") as [w|];
       [destruct (mg_vcasecmp w "keep-alive" =? 0)|]);
      cbn; tauto. }
  clearbody s3. clear s2 s1.
  destruct H3 as (Hm & He & H400 & H500 & H404 & Hget).
  unfold dispatched, send_favicon. cbv zeta.
  repeat match goal with
         | |- context [if ?b then _ else _] =>
             lazymatch b with
             | context [fst] => fail
             | _ => destruct b eqn:?
             end
         | |- context [match aircraft_json e with _ => _ end] =>
             destruct (aircraft_json e)
         | |- context [set_headers ?cli ?ct ?s] =>
             let Hs := fresh "Hs" in
             pose proof (set_headers_quiet cli ct s) as Hs;
             destruct (set_headers cli ct s) as [? ?]; cbn [snd] in Hs;
             destruct Hs as (? & ? & ? & ?)
         end.
  all: cbn [fst snd].
  all: split; [lia|].
  all: cbn.
  all: repeat match goal with
              | |- context [decide (?a = ?b)] =>
                  let Hd := fresh "Hd" in
                  destruct (decide (a = b)) as [Hd|Hd];
                  try discriminate Hd; try (exfalso; apply Hd; reflexivity)
              end.
  all: repeat match goal with
              | H : forall f, f <> HTTP_keep_alive_sent -> _ |- _ =>
                  rewrite !H by discriminate
              end.
  all: repeat match goal with
              | H : has_dot uri = _ |- _ => rewrite H
              end.
  all: cbn.
  all: rewrite ?H400, ?H500, ?H404, ?Hget.
  all: repeat (split; [reflexivity|]).
  all: unfold deref.
  all: repeat match goal with
              | H : effects _ = _ |- _ => rewrite H; clear H
              | H : mgr _ = _ |- _ => rewrite !H; clear H
              end.
  all: split; intros Hst; try discriminate Hst; try (exfalso; lia).
  all: try (split; [reflexivity|]; rewrite <- ?app_assoc; cbn [app];
            eexists _, _; reflexivity).
  all: split; reflexivity.
Qed.

(** X19. The status that [net_handler_http] returns and what it does
    about it.  The status is one of 200, 301, 400, 404, 500 and 505.
    With 400, 500 and 505 nothing is sent to the client (with 500 the
    socket is marked as closing; with 400 and 505 it is left as it
    is); with 200, 301 and 404 a reply is queued and the socket is left
    as it is.  [HTTP_400_responses] and [HTTP_500_responses] go up by
    one exactly with their status, [HTTP_get_requests] goes up by one
    for every request but those answered 400 or 505, and
    [HTTP_404_responses] goes up by one only for a file that is
    missing: the 404 for a path without a dot is not counted. *)
Theorem net_handler_http_accounting (e : env) (c : Z) (hm : mg_http_message)
    (s : modes) :
  let out := net_handler_http_ e c hm s in
  let st := out.1 in
  let s' := out.2 in
  let old := stat_http s in
  (st = 200 \/ st = 301 \/ st = 400 \/ st = 404 \/ st = 500 \/ st = 505)
  /\ stat_http s' HTTP_400_responses
     = (if st =? 400 then wrap64 (old HTTP_400_responses + 1)
        else old HTTP_400_responses)
  /\ stat_http s' HTTP_500_responses
     = (if st =? 500 then wrap64 (old HTTP_500_responses + 1)
        else old HTTP_500_responses)
  /\ stat_http s' HTTP_404_responses
     = (if (st =? 404) && has_dot (request_uri sizeof_mg_http_uri hm)
        then wrap64 (old HTTP_404_responses + 1)
        else old HTTP_404_responses)
  /\ stat_http s' HTTP_get_requests
     = (if (st =? 400) || (st =? 505) then old HTTP_get_requests
        else wrap64 (old HTTP_get_requests + 1))
  /\ (st = 400 \/ st = 500 \/ st = 505 -> effects s' = effects s)
  /\ (st = 200 \/ st = 301 \/ st = 404 ->
      exists ef rest, effects s' = effects s ++ ef :: rest)
  /\ (st = 500 -> mgr s' = <[c := set_is_closing (deref s c)]> (mgr s))
  /\ (st <> 500 -> mgr s' = mgr s).
Proof.
  unfold net_handler_http. fold (request_uri sizeof_mg_http_uri hm).
  destruct (negb (mg_vcasecmp (method hm) "GET" =? 0)
            && negb (mg_vcasecmp (method hm) "HEAD" =? 0)).
  { cbn. split; [lia|]. repeat split; try reflexivity;
      intros Hst; try reflexivity; exfalso; lia. }
  unfold connection_get.
  destruct (first_record s c MODES_NET_SERVICE_HTTP) as [[i rec]|].
  2:{ cbn. split; [lia|]. repeat split; try reflexivity;
        intros Hst; try reflexivity; exfalso; lia. }
  pose proof (http_dispatch_dispatched e c hm
                (request_uri sizeof_mg_http_uri hm) i s) as H.
  destruct (http_dispatch_ e c hm (request_uri sizeof_mg_http_uri hm) i s)
    as [st s'].
  unfold dispatched in H. cbn [fst snd] in *.
  destruct H as (Hst & H400 & H500 & H404 & Hget & Hfive & Hnot).
  split; [lia|].
  replace (st =? 400) with false by (symmetry; apply Z.eqb_neq; lia).
  replace (st =? 505) with false by (symmetry; apply Z.eqb_neq; lia).
  cbn [orb].
  split; [exact H400|]. split; [exact H500|]. split; [exact H404|].
  split; [exact Hget|].
  split; [intros Hc; apply Hfive; lia|].
  split; [intros Hc; apply Hnot; lia|].
  split; [intros Hc; now apply Hfive|].
  intros Hc. now apply Hnot.
Qed.

End HttpAccounting.

(** ** The services do not touch each other *)

(** The list, the counters and the numbers of every service but
    [sv] are the same in [s'] as in [s]. *)
Definition confined (sv : Z) (s s' : modes) : Prop :=
  forall sv', Z.to_nat sv' <> Z.to_nat sv ->
    connections_of s' sv' = connections_of s sv'
    /\ (forall f, stat_of s' f sv' = stat_of s f sv')
    /\ service_of s' sv' = service_of s sv'.

Lemma confined_refl (sv : Z) (s : modes) : confined sv s s.
Proof. intros sv' _. auto. Qed.

Lemma confined_trans (sv : Z) (s1 s2 s3 : modes) :
  confined sv s1 s2 -> confined sv s2 s3 -> confined sv s1 s3.
Proof.
  intros H12 H23 sv' N.
  destruct (H12 sv' N) as (A1 & A2 & A3), (H23 sv' N) as (B1 & B2 & B3).
  split; [congruence|]. split; [|congruence].
  intros f. now rewrite B2, A2.
Qed.

Lemma confined_frame (sv : Z) (s s' : modes) :
  connections s' = connections s -> stat s' = stat s ->
  services s' = services s -> confined sv s s'.
Proof.
  intros Ec Es Ev sv' _. unfold connections_of, stat_of, service_of.
  rewrite Ec, Es, Ev. auto.
Qed.

Lemma nth_alter_other {A} (f : A -> A) (l : list A) (i j : nat) (d : A) :
  j <> i -> nth j (alter f i l) d = nth j l d.
Proof.
  intros N. rewrite !nth_lookup. now rewrite list_lookup_alter_ne by congruence.
Qed.

Lemma confined_add_stat (f : stat_field) (sv n : Z) (s : modes) :
  confined sv s (add_stat f sv n s).
Proof.
  intros sv' N. unfold connections_of, stat_of, service_of, add_stat. cbn.
  split; [reflexivity|]. split; [|reflexivity].
  intros g. destruct (decide (g = f)); [|reflexivity].
  now apply nth_alter_other.
Qed.

Lemma confined_set_services_alter (g : net_service -> net_service) (sv : Z)
    (s : modes) :
  confined sv s (set_services (alter g (Z.to_nat sv) (services s)) s).
Proof.
  intros sv' N. unfold connections_of, stat_of, service_of. cbn.
  split; [reflexivity|]. split; [reflexivity|]. now apply nth_alter_other.
Qed.

Lemma confined_set_connections_alter
    (g : list connection -> list connection) (sv : Z) (s : modes) :
  confined sv s (set_connections (alter g (Z.to_nat sv) (connections s)) s).
Proof.
  intros sv' N. unfold connections_of, stat_of, service_of. cbn.
  split; [now apply nth_alter_other|]. auto.
Qed.

Lemma confined_connection_get (c sv : Z) (is_server : bool) (s : modes) :
  confined sv s (connection_get c sv is_server s).2.
Proof.
  unfold connection_get. destruct (first_record s c sv) as [[i r]|]; cbn [snd].
  - apply confined_refl.
  - apply confined_add_stat.
Qed.

Lemma confined_set_headers (sv : Z) (cli : connection) (ct : option string)
    (s : modes) :
  confined sv s (set_headers cli ct s).2.
Proof.
  unfold set_headers.
  destruct ct; cbn [Modes_keep_alive set_headers_buf];
    destruct (Modes_keep_alive s && keep_alive cli); cbn [snd];
    now apply confined_frame.
Qed.

Section Confined.

Variable sizeof_connection : Z.
Variable sizeof_unique_IP : Z.
Variable sizeof_mg_http_uri : nat.
Variable MODES_CONTENT_TYPE_JSON : string.
Variable MODES_CONTENT_TYPE_PNG : string.
Variable MODES_CONTENT_TYPE_ICON : string.
Variable favicon_png_len : Z.
Variable favicon_ico_len : Z.
Variable net_str_addr : mg_addr -> string.
Variable net_error_details : Z -> string -> string -> string.
Variable frame_handle : frame_handler -> list Z -> Z -> list Z.

Abbreviation net_handler_ :=
  (net_handler sizeof_connection sizeof_unique_IP sizeof_mg_http_uri
     MODES_CONTENT_TYPE_JSON MODES_CONTENT_TYPE_PNG MODES_CONTENT_TYPE_ICON
     favicon_png_len favicon_ico_len net_str_addr net_error_details frame_handle).

Abbreviation net_handler_all_ :=
  (net_handler_all sizeof_connection sizeof_unique_IP sizeof_mg_http_uri
     MODES_CONTENT_TYPE_JSON MODES_CONTENT_TYPE_PNG MODES_CONTENT_TYPE_ICON
     favicon_png_len favicon_ico_len net_str_addr net_error_details frame_handle).

Lemma confined_conn_free (conn : option nat) (sv : Z) (s : modes) :
  confined sv s (net_conn_free sizeof_connection conn sv s).
Proof.
  unfold net_conn_free. destruct conn as [i|]; [|apply confined_refl].
  destruct (connections_of s sv !! i) as [rec|]; [|apply confined_refl].
  cbv zeta. unfold net_mem_allocated.
  eapply confined_trans; [|apply confined_set_services_alter].
  destruct (is_accepted _);
    (eapply confined_trans; [|apply confined_add_stat]);
    apply confined_set_connections_alter.
Qed.

Lemma confined_connection_recv (conn : option nat) (sv : Z) (h : frame_handler)
    (is_server : bool) (s : modes) :
  confined sv s (net_connection_recv frame_handle conn sv h is_server s).
Proof.
  unfold net_connection_recv.
  destruct conn as [i|]; [|apply confined_refl].
  destruct (connections_of s sv !! i) as [rec|]; [|apply confined_refl].
  destruct (recv_loop_frame frame_handle h (conn_c rec) is_server
              (length (recv (deref s (conn_c rec)))) 0 s)
    as (Ec & Es & _ & Ev & _).
  now apply confined_frame.
Qed.

Lemma confined_client_handler (c sv : Z) (ev : client_event) (ok : bool)
    (now : Z) (s : modes) :
  confined sv s (client_handler sizeof_unique_IP c sv ev ok now s).2.
Proof.
  unfold client_handler. destruct ev; [|apply confined_refl].
  destruct (client_is_unique _ _ _ _ _ _) as [unique u]. cbn [snd].
  destruct unique.
  - eapply confined_trans; [|apply confined_add_stat].
    now apply confined_frame.
  - now apply confined_frame.
Qed.

Lemma confined_new_record (sv : Z) (f : stat_field) (conn : connection)
    (s : modes) :
  confined sv s
    (add_stat f sv 1
       (net_mem_allocated sv sizeof_connection
          (add_num_connections sv 1 (list_add_tail sv conn s)))).
Proof.
  eapply confined_trans; [|apply confined_add_stat].
  unfold net_mem_allocated.
  eapply confined_trans; [|apply confined_set_services_alter].
  unfold add_num_connections.
  eapply confined_trans; [|apply confined_set_services_alter].
  apply confined_set_connections_alter.
Qed.

Lemma confined_http_dispatch (e : env) (c : Z) (hm : mg_http_message)
    (uri : string) (i : nat) (s : modes) :
  confined MODES_NET_SERVICE_HTTP s
    (http_dispatch MODES_CONTENT_TYPE_JSON MODES_CONTENT_TYPE_PNG
       MODES_CONTENT_TYPE_ICON favicon_png_len favicon_ico_len
       e c hm uri i s).2.
Proof.
  unfold http_dispatch.
  set (s1 := bump_http HTTP_get_requests s).
  assert (H1 : confined MODES_NET_SERVICE_HTTP s s1)
    by now apply confined_frame.
  match goal with
  | |- context [match mg_http_get_header hm "Connection" with
                | Some v => @?a v | None => _ end] =>
      set (s2 := match mg_http_get_header hm "Connection" with
                 | Some v => a v | None => s1 end)
  end.
  assert (H2 : confined MODES_NET_SERVICE_HTTP s s2).
  { unfold s2. destruct (mg_http_get_header hm "Connection"); [|exact H1].
    destruct (_ =? 0); [|exact H1].
    eapply confined_trans; [exact H1|].
    eapply confined_trans; [|apply confined_set_connections_alter].
    now apply confined_frame. }
  clearbody s2. clear H1 s1.
  match goal with
  | |- context [match mg_http_get_header hm "Accept-Encoding" with
                | Some v => @?a v | None => _ end] =>
      set (s3 := match mg_http_get_header hm "Accept-Encoding" with
                 | Some v => a v | None => s2 end)
  end.
  assert (H3 : confined MODES_NET_SERVICE_HTTP s s3).
  { unfold s3. destruct (mg_http_get_header hm "Accept-Encoding"); [|exact H2].
    destruct (_ =? 0); [|exact H2].
    eapply confined_trans; [exact H2|].
    apply confined_set_connections_alter. }
  clearbody s3. clear H2 s2.
  unfold send_favicon. cbv zeta.
  repeat match goal with
         | |- context [if ?b then _ else _] => destruct b
         | |- context [match aircraft_json e with _ => _ end] =>
             destruct (aircraft_json e)
         | |- context [set_headers ?cli ?ct ?s] =>
             let Hs := fresh "Hs" in
             pose proof (confined_set_headers MODES_NET_SERVICE_HTTP cli ct s)
               as Hs;
             destruct (set_headers cli ct s) as [? ?]; cbn [snd] in Hs
         end;
    cbn [snd];
    (eapply confined_trans; [exact H3|]);
    try (eapply confined_trans; [eassumption|]);
    now apply confined_frame.
Qed.

Lemma confined_handler_http (e : env) (c : Z) (hm : mg_http_message)
    (s : modes) :
  confined MODES_NET_SERVICE_HTTP s
    (net_handler_http sizeof_mg_http_uri MODES_CONTENT_TYPE_JSON
       MODES_CONTENT_TYPE_PNG MODES_CONTENT_TYPE_ICON favicon_png_len
       favicon_ico_len e c hm s).2.
Proof.
  unfold net_handler_http.
  destruct (negb _ && negb _); [now apply confined_frame|].
  pose proof (confined_connection_get c MODES_NET_SERVICE_HTTP false s) as H1.
  destruct (connection_get c MODES_NET_SERVICE_HTTP false s) as [[i|] s1];
    cbn [snd] in H1; [|exact H1].
  eapply confined_trans; [exact H1|]. apply confined_http_dispatch.
Qed.

Lemma confined_handler (e : env) (c : Z) (ev : mg_event) (sv : Z) (s : modes) :
  confined sv s (net_handler_ e c ev sv s).
Proof.
  unfold net_handler.
  destruct (exit s); [apply confined_refl|].
  destruct ev; try apply confined_refl.
  - (* MG_EV_ERROR *)
    destruct (_ && _); [|apply confined_refl].
    destruct (is_accepted _).
    + unfold connection_failed_accepted.
      pose proof (confined_connection_get c sv true s) as H1.
      destruct (connection_get c sv true s) as [conn s1]. cbn [snd] in H1.
      eapply confined_trans; [|apply confined_conn_free].
      eapply confined_trans; [exact H1|].
      unfold net_store_error. apply confined_set_services_alter.
    + unfold modeS_signal_handler, connection_failed_active, net_store_error.
      eapply confined_trans; [apply confined_set_services_alter|].
      now apply confined_frame.
  - (* MG_EV_CONNECT *)
    destruct (negb _); [now apply confined_frame|]. cbv zeta.
    eapply confined_trans; [|apply confined_new_record].
    now apply confined_frame.
  - (* MG_EV_ACCEPT *)
    pose proof (confined_client_handler c sv ClientAccept (realloc_ok e)
                  (now e) s) as H1.
    destruct (client_handler sizeof_unique_IP c sv ClientAccept (realloc_ok e)
               (now e) s)
      as [ok s1]. cbn [snd] in H1.
    destruct (negb ok).
    { eapply confined_trans; [exact H1|]. now apply confined_frame. }
    destruct (negb _).
    { eapply confined_trans; [exact H1|]. now apply confined_frame. }
    cbv zeta. eapply confined_trans; [exact H1|]. apply confined_new_record.
  - (* MG_EV_READ *)
    pose proof (confined_add_stat bytes_recv sv bytes s) as H0.
    destruct (sv =? MODES_NET_SERVICE_RAW_IN).
    + pose proof (confined_connection_get c sv false
                    (add_stat bytes_recv sv bytes s)) as H1.
      destruct (connection_get c sv false _) as [conn s1]. cbn [snd] in H1.
      pose proof (confined_connection_recv conn sv decode_RAW_message false s1)
        as H2.
      pose proof (confined_connection_get c sv true
                    (net_connection_recv frame_handle conn sv
                       decode_RAW_message false s1)) as H3.
      destruct (connection_get c sv true _) as [conn' s3]. cbn [snd] in H3.
      eapply confined_trans; [|apply confined_connection_recv].
      eapply confined_trans; [|exact H3].
      eapply confined_trans; [|exact H2].
      eapply confined_trans; [exact H0|exact H1].
    + destruct (sv =? MODES_NET_SERVICE_SBS_IN); [|exact H0].
      pose proof (confined_connection_get c sv true
                    (add_stat bytes_recv sv bytes s)) as H1.
      destruct (connection_get c sv true _) as [conn s1]. cbn [snd] in H1.
      eapply confined_trans; [|apply confined_connection_recv].
      eapply confined_trans; [exact H0|exact H1].
  - (* MG_EV_WRITE *)
    apply confined_add_stat.
  - (* MG_EV_CLOSE *)
    cbn [client_handler].
    pose proof (confined_connection_get c sv false s) as H2.
    destruct (connection_get c sv false s) as [conn s2]. cbn [snd] in H2.
    pose proof (confined_conn_free conn sv s2) as H3.
    pose proof (confined_connection_get c sv true
                  (net_conn_free sizeof_connection conn sv s2)) as H4.
    destruct (connection_get c sv true _) as [conn' s4]. cbn [snd] in H4.
    pose proof (confined_conn_free conn' sv s4) as H5.
    unfold add_num_connections.
    eapply confined_trans; [|apply confined_set_services_alter].
    eapply confined_trans; [|exact H5].
    eapply confined_trans; [|exact H4].
    eapply confined_trans; [exact H2|exact H3].
  - (* MG_EV_HTTP_MSG *)
    destruct (Z.eqb_spec sv MODES_NET_SERVICE_HTTP) as [->|];
      [|apply confined_refl].
    apply confined_handler_http.
  - destruct (sv =? MODES_NET_SERVICE_HTTP); apply confined_refl.
  - destruct (sv =? MODES_NET_SERVICE_HTTP); [|apply confined_refl].
    unfold net_handler_websocket. destruct (is_websocket _); apply confined_refl.
  - destruct (sv =? MODES_NET_SERVICE_HTTP); [|apply confined_refl].
    unfold net_handler_websocket. destruct (is_websocket _); apply confined_refl.
  - destruct (sv =? MODES_NET_SERVICE_HTTP); [|apply confined_refl].
    unfold net_handler_websocket. destruct (is_websocket _);
      [|apply confined_refl].
    now apply confined_frame.
  - destruct (sv =? MODES_NET_SERVICE_HTTP); apply confined_refl.
Qed.

(** X20. The services do not reach into each other.  Whatever events
    arrive for other services, in any number and order, and whatever
    they bring (errors, closes, requests), the list of records of a
    service, each of its counters in [Modes.stat] and its numbers
    ([num_connections], [mem_allocated], the last error, the host) stay
    as they are.  (The HTTP counters, the list of unique addresses and
    the exit flag are shared by all services.) *)
Theorem services_are_isolated
    (evs : list (env * Z * mg_event * Z)) (sv : Z) (s : modes) :
  0 <= sv <= 4 ->
  Forall (fun '(_, _, _, sv') => 0 <= sv' <= 4 /\ sv' <> sv) evs ->
  let s' := net_handler_all_ evs s in
  connections_of s' sv = connections_of s sv
  /\ (forall f, stat_of s' f sv = stat_of s f sv)
  /\ service_of s' sv = service_of s sv.
Proof.
  intros Hsv Hev. unfold net_handler_all. revert s.
  induction evs as [|[[[e c] ev] sv'] evs IH]; intros s; [cbn; auto|].
  apply Forall_cons in Hev. destruct Hev as [[Hsv' Hne] Hev].
  cbn [fold_left].
  destruct (IH Hev (net_handler_ e c ev sv' s)) as (A1 & A2 & A3).
  cbv zeta in *.
  destruct (confined_handler e c ev sv' s sv ltac:(lia)) as (B1 & B2 & B3).
  split; [congruence|]. split; [|congruence].
  intros f. now rewrite A2, B2.
Qed.

End Confined.

Lemma services_are_isolated_witness :
  let s := demo_accepted in
  let s' :=
    net_handler_all 64 40 256 demo_type_json demo_type_png demo_type_icon
      1150 1150 demo_str_addr demo_error_details demo_frame_handle
      [(demo_env true, 7, MG_EV_ACCEPT, MODES_NET_SERVICE_HTTP);
       (demo_env true, 7, MG_EV_HTTP_MSG (demo_request "GET" "/"),
        MODES_NET_SERVICE_HTTP);
       (demo_env true, 7, MG_EV_CLOSE, MODES_NET_SERVICE_SBS_OUT)] s in
  connections_of s' MODES_NET_SERVICE_RAW_OUT
  = connections_of s MODES_NET_SERVICE_RAW_OUT
  /\ (forall f, stat_of s' f MODES_NET_SERVICE_RAW_OUT
                = stat_of s f MODES_NET_SERVICE_RAW_OUT)
  /\ service_of s' MODES_NET_SERVICE_RAW_OUT
     = service_of s MODES_NET_SERVICE_RAW_OUT.
Proof.
  apply (services_are_isolated 64 40 256 demo_type_json demo_type_png
           demo_type_icon 1150 1150 demo_str_addr demo_error_details
           demo_frame_handle).
  - unfold MODES_NET_SERVICE_RAW_OUT; lia.
  - repeat (apply List.Forall_cons;
            [unfold MODES_NET_SERVICE_RAW_OUT, MODES_NET_SERVICE_HTTP,
               MODES_NET_SERVICE_SBS_OUT; lia|]).
    apply List.Forall_nil.
Defined.

(** ** The header block without a content type *)

Definition KEEP_ALIVE_LINE : string := ("Connection: keep-alive" ++ CRLF)%string.

Lemma set_headers_none (cli : connection) (s : modes) :
  (String.length KEEP_ALIVE_LINE < length (headers s))%nat ->
  let out := set_headers cli None s in
  let sent := Modes_keep_alive s && keep_alive cli in
  out.1 = (if sent then KEEP_ALIVE_LINE else ""%string)
  /\ stat_http out.2 HTTP_keep_alive_sent
     = (if sent then wrap64 (stat_http s HTTP_keep_alive_sent + 1)
        else stat_http s HTTP_keep_alive_sent)
  /\ (forall f, f <> HTTP_keep_alive_sent -> stat_http out.2 f = stat_http s f)
  /\ length (headers out.2) = length (headers s)
  /\ effects out.2 = effects s /\ mgr out.2 = mgr s
  /\ connections out.2 = connections s /\ stat out.2 = stat s
  /\ web_root out.2 = web_root s.
Proof.
  intros Hlen. unfold set_headers.
  cbn [Modes_keep_alive set_headers_buf headers].
  destruct (Modes_keep_alive s && keep_alive cli); cbn [fst snd].
  - split.
    { cbn [headers bump_http set_stat_http set_headers_buf].
      apply shows_c_str.
      - intros Hin. vm_compute in Hin.
        repeat (destruct Hin as [Hin|Hin]; [discriminate Hin|]).
        exact Hin.
      - apply shows_strcpy. now rewrite length_insert. }
    split; [cbn; destruct (decide _); [reflexivity|contradiction]|].
    split.
    { intros f Hf. cbn. destruct (decide (f = HTTP_keep_alive_sent));
        [contradiction|reflexivity]. }
    split; [cbn; now rewrite length_strcpy_at, length_insert|].
    repeat split; reflexivity.
  - split.
    { cbn [headers set_headers_buf]. destruct (headers s) as [|ch rest].
      - reflexivity.
      - cbn. destruct (decide (NUL = NUL)); [reflexivity|contradiction]. }
    split; [reflexivity|]. split; [reflexivity|].
    split; [cbn; now rewrite length_insert|].
    repeat split; reflexivity.
Qed.

(** X21. Without a content type, [set_headers] shows the line
    [Connection: keep-alive] with its line end when keep-alive is
    configured and the record of the client has asked for it, and the
    empty string otherwise, whatever an earlier call has left in the
    static array of 200 characters; [HTTP_keep_alive_sent] goes up by
    one exactly when the line is shown, and no other counter
    changes. *)
Theorem set_headers_plain (cli : connection) (s : modes) :
  length (headers s) = 200%nat ->
  let out := set_headers cli None s in
  let sent := Modes_keep_alive s && keep_alive cli in
  out.1 = (if sent then ("Connection: keep-alive" ++ CRLF)%string
           else ""%string)
  /\ stat_http out.2 HTTP_keep_alive_sent
     = (if sent then wrap64 (stat_http s HTTP_keep_alive_sent + 1)
        else stat_http s HTTP_keep_alive_sent)
  /\ (forall f, f <> HTTP_keep_alive_sent -> stat_http out.2 f = stat_http s f)
  /\ length (headers out.2) = 200%nat.
Proof.
  intros Hlen.
  destruct (set_headers_none cli s) as (H1 & H2 & H3 & H4 & _).
  { rewrite Hlen. vm_compute. lia. }
  cbv zeta in *. rewrite H4, Hlen in *. auto.
Qed.

(** The static array after a favicon was served to the demo client. *)
Definition demo_after_favicon : modes :=
  (set_headers (with_keep_alive (demo_record MODES_NET_SERVICE_HTTP))
     (Some demo_type_png) demo_http).2.

Lemma set_headers_plain_witness :
  let cli := with_keep_alive (demo_record MODES_NET_SERVICE_HTTP) in
  let s := demo_after_favicon in
  let out := set_headers cli None s in
  let sent := Modes_keep_alive s && keep_alive cli in
  out.1 = (if sent then ("Connection: keep-alive" ++ CRLF)%string
           else ""%string)
  /\ stat_http out.2 HTTP_keep_alive_sent
     = (if sent then wrap64 (stat_http s HTTP_keep_alive_sent + 1)
        else stat_http s HTTP_keep_alive_sent)
  /\ (forall f, f <> HTTP_keep_alive_sent -> stat_http out.2 f = stat_http s f)
  /\ length (headers out.2) = 200%nat.
Proof.
  apply (set_headers_plain
           (with_keep_alive (demo_record MODES_NET_SERVICE_HTTP))
           demo_after_favicon).
  vm_compute. reflexivity.
Defined.

(** ** What a request leaves on the record of its client *)

(** The request has the header [name] with the value [value], both
    compared without regard to case. *)
Definition header_is (hm : mg_http_message) (name value : string) : bool :=
  match mg_http_get_header hm name with
  | Some v => mg_vcasecmp v value =? 0
  | None => false
  end.

(** The record with the two flags that a request can raise. *)
Definition marked (ka gz : bool) (rec : connection) : connection :=
  {| conn_c := conn_c rec; conn_id := conn_id rec; conn_rem := conn_rem rec;
     conn_service := conn_service rec;
     keep_alive := keep_alive rec || ka;
     encoding_gzip := encoding_gzip rec || gz;
     rem_buf := rem_buf rec |}.

Lemma marked_none (rec : connection) : marked false false rec = rec.
Proof.
  destruct rec. unfold marked. cbn. now rewrite !orb_false_r.
Qed.

Lemma alter_known {A} (f : A -> A) (l : list A) (i : nat) (x : A) :
  l !! i = Some x -> alter f i l = <[i := f x]> l.
Proof.
  intros Hx. apply list_eq. intros j. destruct (decide (i = j)) as [<-|N].
  - rewrite list_lookup_alter_eq, Hx. cbn.
    rewrite list_lookup_insert_eq; [reflexivity|].
    eapply lookup_lt_Some. exact Hx.
  - now rewrite list_lookup_alter_ne, list_lookup_insert_ne.
Qed.

Lemma alter2_ext {A} (f g : A -> A) (i j : nat) (ls : list (list A)) :
  (forall x, f x = g x) -> alter (alter f i) j ls = alter (alter g i) j ls.
Proof.
  intros H. apply list_alter_ext; [|reflexivity]. intros l _.
  apply list_alter_ext; [|reflexivity]. intros x _. apply H.
Qed.

Lemma alter2_id {A} (f : A -> A) (i j : nat) (ls : list (list A)) :
  (forall x, f x = x) -> alter (alter f i) j ls = ls.
Proof.
  intros H. apply list_alter_id. intros l. now apply list_alter_id.
Qed.

Lemma alter2_compose {A} (f g : A -> A) (i j : nat) (ls : list (list A)) :
  alter (alter f i) j (alter (alter g i) j ls)
  = alter (alter (fun x => f (g x)) i) j ls.
Proof.
  rewrite list_alter_alter_eq. apply list_alter_ext; [|reflexivity].
  intros l _. cbn. apply list_alter_alter_eq.
Qed.

Lemma marked_flags (ka gz : bool) (rec : connection) :
  marked false gz (marked ka false rec)
  = (if gz then with_encoding_gzip else id)
      ((if ka then with_keep_alive else id) rec).
Proof.
  destruct rec, ka, gz; unfold marked, with_encoding_gzip, with_keep_alive;
    cbn; rewrite ?orb_true_r, ?orb_false_r; reflexivity.
Qed.

Section RequestFlags.

Variable sizeof_mg_http_uri : nat.
Variable MODES_CONTENT_TYPE_JSON : string.
Variable MODES_CONTENT_TYPE_PNG : string.
Variable MODES_CONTENT_TYPE_ICON : string.
Variable favicon_png_len : Z.
Variable favicon_ico_len : Z.

Abbreviation net_handler_http_ :=
  (net_handler_http sizeof_mg_http_uri MODES_CONTENT_TYPE_JSON
     MODES_CONTENT_TYPE_PNG MODES_CONTENT_TYPE_ICON favicon_png_len
     favicon_ico_len).
Abbreviation http_dispatch_ :=
  (http_dispatch MODES_CONTENT_TYPE_JSON MODES_CONTENT_TYPE_PNG
     MODES_CONTENT_TYPE_ICON favicon_png_len favicon_ico_len).

Lemma http_dispatch_records (e : env) (c : Z) (hm : mg_http_message)
    (uri : string) (i : nat) (s : modes) :
  let ka := header_is hm "Connection" "keep-alive" in
  let gz := header_is hm "Accept-Encoding" "gzip" in
  let s' := (http_dispatch_ e c hm uri i s).2 in
  connections s'
  = alter (alter (fun rec => marked false gz (marked ka false rec)) i)
      (Z.to_nat MODES_NET_SERVICE_HTTP) (connections s)
  /\ stat s' = stat s /\ services s' = services s
  /\ stat_http s' HTTP_keep_alive_recv
     = (if ka then wrap64 (stat_http s HTTP_keep_alive_recv + 1)
        else stat_http s HTTP_keep_alive_recv)
  /\ stat_http s' HTTP_get_requests
     = wrap64 (stat_http s HTTP_get_requests + 1).
Proof.
  unfold http_dispatch, header_is.
  set (s1 := bump_http HTTP_get_requests s).
  match goal with
  | |- context [match mg_http_get_header hm "Connection" with
                | Some v => @?a v | None => _ end] =>
      set (s2 := match mg_http_get_header hm "Connection" with
                 | Some v => a v | None => s1 end)
  end.
  match goal with
  | |- context [match mg_http_get_header hm "Accept-Encoding" with
                | Some v => @?a v | None => _ end] =>
      set (s3 := match mg_http_get_header hm "Accept-Encoding" with
                 | Some v => a v | None => s2 end)
  end.
  assert (H3 : connections s3
               = alter (alter (fun rec =>
                                 marked false
                                   match mg_http_get_header hm "Accept-Encoding" with
                                   | Some v => mg_vcasecmp v "gzip" =? 0
                                   | None => false
                                   end
                                   (marked
                                      match mg_http_get_header hm "Connection" with
                                      | Some v => mg_vcasecmp v "keep-alive" =? 0
                                      | None => false
                                      end false rec)) i)
                   (Z.to_nat MODES_NET_SERVICE_HTTP) (connections s)
               /\ stat s3 = stat s /\ services s3 = services s
               /\ stat_http s3 HTTP_keep_alive_recv
                  = (if match mg_http_get_header hm "Connection" with
                        | Some v => mg_vcasecmp v "keep-alive" =? 0
                        | None => false
                        end
                     then wrap64 (stat_http s HTTP_keep_alive_recv + 1)
                     else stat_http s HTTP_keep_alive_recv)
               /\ stat_http s3 HTTP_get_requests
                  = wrap64 (stat_http s HTTP_get_requests + 1)).
  { unfold s3, s2, s1.
    destruct (mg_http_get_header hm "Connection") as [v|];
      [destruct (mg_vcasecmp v "keep-alive" =? 0)|];
      (destruct (mg_http_get_header hm "Accept-Encoding") as [w|];
       [destruct (mg_vcasecmp w "gzip" =? 0)|]);
      (split; [|split; [reflexivity|split; [reflexivity|split]]]).
    all: try (cbn; reflexivity).
    all: unfold update_cli; cbn [connections set_connections bump_http
                                  set_stat_http].
    all: rewrite ?alter2_compose.
    all: first [ apply alter2_ext; intros rec; now rewrite marked_flags
               | symmetry; apply alter2_id; intros rec;
                 now rewrite marked_flags ]. }
  clearbody s3. clear s2 s1.
  destruct H3 as (Hc & Hs & Hv & Hk & Hg).
  unfold send_favicon. cbv zeta.
  repeat match goal with
         | |- context [if ?b then _ else _] =>
             lazymatch b with
             | context [mg_http_get_header] => fail
             | _ => destruct b
             end
         | |- context [match aircraft_json e with _ => _ end] =>
             destruct (aircraft_json e)
         | |- context [set_headers ?cli ?ct ?s] =>
             let Hq := fresh "Hq" in
             let Hr := fresh "Hr" in
             pose proof (set_headers_quiet cli ct s) as Hq;
             pose proof (set_headers_connections cli ct s) as Hr;
             destruct (set_headers cli ct s) as [? ?]; cbn [snd] in Hq, Hr;
             destruct Hq as (_ & _ & _ & ?); destruct Hr as (? & ? & ?)
         end.
  all: cbn.
  all: repeat match goal with
              | |- context [decide (?a = ?b)] =>
                  let Hd := fresh "Hd" in
                  destruct (decide (a = b)) as [Hd|Hd];
                  try discriminate Hd; try (exfalso; apply Hd; reflexivity)
              end.
  all: repeat match goal with
              | H : forall f, f <> HTTP_keep_alive_sent -> _ |- _ =>
                  rewrite !H by discriminate
              end.
  all: repeat split; congruence.
Qed.

(** X22. What a GET or HEAD request of a client with a record leaves
    in the lists and in [Modes.stat], whatever its path and however it
    is answered: the record of the client has its keep-alive flag
    raised when the request carries [Connection: keep-alive] and its
    gzip flag raised when it carries [Accept-Encoding: gzip] (names and
    values compared without regard to case); a flag once raised is
    never lowered by a request, and no other field of the record and no
    other record changes.  Of the counters, [HTTP_get_requests] goes up
    by one, [HTTP_keep_alive_recv] goes up by one exactly when the
    keep-alive header is there, and none of the counters that
    [Modes.stat] keeps for each service moves. *)
Theorem request_marks_record (e : env) (c : Z) (hm : mg_http_message)
    (i : nat) (rec : connection) (s : modes) :
  first_record s c MODES_NET_SERVICE_HTTP = Some (i, rec) ->
  lower (method hm) = "get"%string \/ lower (method hm) = "head"%string ->
  let s' := (net_handler_http_ e c hm s).2 in
  let ka := header_is hm "Connection" "keep-alive" in
  let gz := header_is hm "Accept-Encoding" "gzip" in
  connections_of s' MODES_NET_SERVICE_HTTP
  = <[i := marked ka gz rec]> (connections_of s MODES_NET_SERVICE_HTTP)
  /\ (forall sv, Z.to_nat sv <> Z.to_nat MODES_NET_SERVICE_HTTP ->
        connections_of s' sv = connections_of s sv)
  /\ stat s' = stat s
  /\ stat_http s' HTTP_get_requests
     = wrap64 (stat_http s HTTP_get_requests + 1)
  /\ stat_http s' HTTP_keep_alive_recv
     = (if ka then wrap64 (stat_http s HTTP_keep_alive_recv + 1)
        else stat_http s HTTP_keep_alive_recv).
Proof.
  intros Hrec Hm. unfold net_handler_http.
  assert (Hno : negb (mg_vcasecmp (method hm) "GET" =? 0)
                && negb (mg_vcasecmp (method hm) "HEAD" =? 0) = false).
  { destruct Hm as [Hm|Hm].
    - apply (mg_vcasecmp_zero _ "GET") in Hm. rewrite Hm. reflexivity.
    - apply (mg_vcasecmp_zero _ "HEAD") in Hm. rewrite Hm.
      apply andb_false_r. }
  rewrite Hno. unfold connection_get. rewrite Hrec.
  match goal with
  | |- context [http_dispatch_ e c hm ?u i s] =>
      destruct (http_dispatch_records e c hm u i s)
        as (Hc & Hs & _ & Hk & Hg);
      set (out := http_dispatch_ e c hm u i s) in *
  end.
  cbv zeta in *. clearbody out.
  unfold first_record in Hrec. apply list_find_Some in Hrec.
  destruct Hrec as (Hi & _ & _).
  assert (Hlt : (Z.to_nat MODES_NET_SERVICE_HTTP < length (connections s))%nat).
  { unfold connections_of in Hi.
    destruct (decide (Z.to_nat MODES_NET_SERVICE_HTTP
                      < length (connections s))%nat) as [H|H]; [exact H|].
    rewrite nth_overflow in Hi by lia. discriminate Hi. }
  split.
  { unfold connections_of at 1. rewrite Hc.
    rewrite (nth_alter_here _ (connections s)) by exact Hlt.
    fold (connections_of s MODES_NET_SERVICE_HTTP).
    rewrite (alter_known _ _ _ _ Hi). f_equal.
    destruct rec. unfold marked. cbn. now rewrite !orb_false_r. }
  split.
  { intros sv N. unfold connections_of. rewrite Hc.
    now apply nth_alter_other. }
  split; [exact Hs|]. split; [exact Hg|exact Hk].
Qed.

End RequestFlags.

Lemma request_marks_record_witness :
  let hm := {| method := "get"; uri := "/data/receiver.json";
               hdrs := [("connection", "Keep-Alive")] |} in
  let rec := demo_record MODES_NET_SERVICE_HTTP in
  let s := demo_http in
  let s' := (demo_net_handler_http (demo_env true) 7 hm s).2 in
  let ka := header_is hm "Connection" "keep-alive" in
  let gz := header_is hm "Accept-Encoding" "gzip" in
  connections_of s' MODES_NET_SERVICE_HTTP
  = <[0%nat := marked ka gz rec]> (connections_of s MODES_NET_SERVICE_HTTP)
  /\ (forall sv, Z.to_nat sv <> Z.to_nat MODES_NET_SERVICE_HTTP ->
        connections_of s' sv = connections_of s sv)
  /\ stat s' = stat s
  /\ stat_http s' HTTP_get_requests
     = wrap64 (stat_http s HTTP_get_requests + 1)
  /\ stat_http s' HTTP_keep_alive_recv
     = (if ka then wrap64 (stat_http s HTTP_keep_alive_recv + 1)
        else stat_http s HTTP_keep_alive_recv).
Proof.
  apply (request_marks_record 256 demo_type_json demo_type_png demo_type_icon
           1150 1150 (demo_env true) 7
           {| method := "get"; uri := "/data/receiver.json";
              hdrs := [("connection", "Keep-Alive")] |}
           0%nat (demo_record MODES_NET_SERVICE_HTTP) demo_http).
  - vm_compute. reflexivity.
  - left. reflexivity.
Defined.

End Net.
